(** * NeuroLens: perception-to-narration orchestrator

    A shallow embedding of the TypeScript services of the NeuroLens
    application (VisionService, MistralService, LLMService, VoiceService,
    HapticService, OCRService) and of the CameraScreen component that
    drives them, together with the properties the specification states
    about them.

    Conventions of the embedding.
    - A JavaScript [number] is a value of [num]: a finite value, kept as an
      exact rational, or one of the three special values.  Arithmetic on
      finite values is exact: rounding, overflow and the sign of zero are
      not represented.  Division keeps the JavaScript behaviour at a zero
      divisor, so that a division by zero is visible in the result.
    - [number | undefined] is [option num]; [None] is [undefined].
    - Strings are [string]s of bytes: the UTF-8 encoding of the JavaScript
      string.  [trim] removes the white space and the line terminators of
      ECMAScript in that encoding; [toLowerCase] acts on the ASCII range.
    - [console.log], [console.warn] and [console.error] are not
      represented. *)

From Stdlib Require Import QArith Qround Qabs ZArith List String Ascii Bool Lia.
From Stdlib Require Import DecimalString.
Import ListNotations.

Set Implicit Arguments.

(* ================================================================== *)
(** ** JavaScript numbers and strings *)
(* ================================================================== *)

Module JS.

Open Scope Q_scope.

Inductive num : Type :=
| Fin (q : Q)
| PInf
| NInf
| NaN.

(** [ToNumber] on [number | undefined]: [undefined] becomes [NaN]. *)
Definition toNumber (v : option num) : num :=
  match v with
  | Some n => n
  | None => NaN
  end.

Definition is_finite (n : num) : bool :=
  match n with
  | Fin _ => true
  | _ => false
  end.

(** Binary [-]. *)
Definition sub (a b : num) : num :=
  match a, b with
  | NaN, _ | _, NaN => NaN
  | Fin x, Fin y => Fin (x - y)
  | Fin _, PInf => NInf
  | Fin _, NInf => PInf
  | PInf, PInf => NaN
  | PInf, _ => PInf
  | NInf, NInf => NaN
  | NInf, _ => NInf
  end.

(** An infinity of the sign of [c] ([Eq] stands for a zero factor). *)
Definition inf_of_sign (c : comparison) : num :=
  match c with
  | Eq => NaN
  | Gt => PInf
  | Lt => NInf
  end.

(** Binary [*]. *)
Definition mul (a b : num) : num :=
  match a, b with
  | NaN, _ | _, NaN => NaN
  | Fin x, Fin y => Fin (x * y)
  | Fin x, PInf | PInf, Fin x => inf_of_sign (x ?= 0)
  | Fin x, NInf | NInf, Fin x => inf_of_sign (0 ?= x)
  | PInf, PInf | NInf, NInf => PInf
  | PInf, NInf | NInf, PInf => NInf
  end.

(** Binary [/].  A finite value divided by zero is an infinity, or [NaN]
    for [0 / 0]. *)
Definition div (a b : num) : num :=
  match a, b with
  | NaN, _ | _, NaN => NaN
  | Fin x, Fin y =>
      if Qeq_bool y 0 then inf_of_sign (x ?= 0) else Fin (x / y)
  | Fin _, PInf | Fin _, NInf => Fin 0
  | PInf, Fin y => if Qle_bool 0 y then PInf else NInf
  | NInf, Fin y => if Qle_bool 0 y then NInf else PInf
  | PInf, _ | NInf, _ => NaN
  end.

(** The comparison behind [<], [>], [<=] and [>=]; [None] when an operand
    is [NaN]. *)
Definition compare (a b : num) : option comparison :=
  match a, b with
  | NaN, _ | _, NaN => None
  | Fin x, Fin y => Some (x ?= y)
  | PInf, PInf | NInf, NInf => Some Eq
  | PInf, _ | _, NInf => Some Gt
  | NInf, _ | _, PInf => Some Lt
  end.

Definition gt (a b : num) : bool :=
  match compare a b with Some Gt => true | _ => false end.

Definition lt (a b : num) : bool :=
  match compare a b with Some Lt => true | _ => false end.

Definition ge (a b : num) : bool :=
  match compare a b with Some Gt | Some Eq => true | _ => false end.

Definition le (a b : num) : bool :=
  match compare a b with Some Lt | Some Eq => true | _ => false end.

(** [===] on numbers. *)
Definition strict_eq (a b : num) : bool :=
  match compare a b with Some Eq => true | _ => false end.

(** Truthiness of a number: [0] and [NaN] are falsy. *)
Definition truthy (a : num) : bool :=
  match a with
  | Fin q => negb (Qeq_bool q 0)
  | PInf | NInf => true
  | NaN => false
  end.

(** [v || d] for [v : number | undefined]. *)
Definition or_default (v : option num) (d : num) : num :=
  match v with
  | Some n => if truthy n then n else d
  | None => d
  end.

Definition Math_floor (a : num) : num :=
  match a with
  | Fin q => Fin (inject_Z (Qfloor q))
  | _ => a
  end.

(** [Math.round]: the nearest integer, ties towards positive infinity. *)
Definition Math_round (a : num) : num :=
  match a with
  | Fin q => Fin (inject_Z (Qfloor (q + (1 # 2))))
  | _ => a
  end.

Definition Math_abs (a : num) : num :=
  match a with
  | Fin q => Fin (Qabs q)
  | NInf => PInf
  | _ => a
  end.

Close Scope Q_scope.
Open Scope string_scope.

Definition string_of_Z (z : Z) : string :=
  NilZero.string_of_int (Z.to_int z).

(** [String(n)] for the values the services print: integers (and the
    special values).  A finite value is printed by its integer part, in
    full; every call site passes an integer, and JavaScript prints it so
    below 10^21. *)
Definition Number_toString (a : num) : string :=
  match a with
  | Fin q => string_of_Z (Qfloor q)
  | PInf => "Infinity"
  | NInf => "-Infinity"
  | NaN => "NaN"
  end.

(** [n.toFixed(1)]: the nearest multiple of one tenth, ties away from
    zero, printed with one decimal. *)
Definition toFixed1 (a : num) : string :=
  match a with
  | Fin q =>
      let neg := match (q ?= 0)%Q with Lt => true | _ => false end in
      let t := Qfloor (Qabs q * 10 + (1 # 2))%Q in
      (if neg then "-" else "") ++
      string_of_Z (t / 10) ++ "." ++ string_of_Z (t mod 10)
  | _ => Number_toString a
  end.

Definition lower_ascii (c : ascii) : ascii :=
  let n := nat_of_ascii c in
  if (65 <=? n)%nat && (n <=? 90)%nat then ascii_of_nat (n + 32) else c.

Fixpoint toLowerCase (s : string) : string :=
  match s with
  | EmptyString => EmptyString
  | String c r => String (lower_ascii c) (toLowerCase r)
  end.

Fixpoint includes (s sub : string) : bool :=
  prefix sub s ||
  match s with
  | EmptyString => false
  | String _ r => includes r sub
  end.

(** The white space and line terminators that [String.prototype.trim]
    removes, by the bytes of their UTF-8 encoding: U+0009 to U+000D and
    U+0020 (one byte), U+00A0 (two bytes), and U+1680, U+2000 to U+200A,
    U+2028, U+2029, U+202F, U+205F, U+3000 and U+FEFF (three bytes). *)
Definition is_space (c : ascii) : bool :=
  let n := nat_of_ascii c in
  (n =? 32)%nat || ((9 <=? n)%nat && (n <=? 13)%nat).

Definition is_space2 (a b : ascii) : bool :=
  (nat_of_ascii a =? 194)%nat && (nat_of_ascii b =? 160)%nat.

Definition is_space3 (a b c : ascii) : bool :=
  let x := nat_of_ascii a in
  let y := nat_of_ascii b in
  let z := nat_of_ascii c in
  ((x =? 225) && (y =? 154) && (z =? 128))%nat ||
  ((x =? 226)%nat && (y =? 128)%nat &&
   (((128 <=? z) && (z <=? 138)) || (z =? 168) || (z =? 169) || (z =? 175))%nat)
  || ((x =? 226) && (y =? 129) && (z =? 159))%nat
  || ((x =? 227) && (y =? 128) && (z =? 128))%nat
  || ((x =? 239) && (y =? 187) && (z =? 191))%nat.

Fixpoint trimStart (s : string) : string :=
  match s with
  | String a r =>
      if is_space a then trimStart r
      else
        match r with
        | String b r2 =>
            if is_space2 a b then trimStart r2
            else
              match r2 with
              | String c r3 => if is_space3 a b c then trimStart r3 else s
              | EmptyString => s
              end
        | EmptyString => s
        end
  | EmptyString => EmptyString
  end.

Fixpoint rev_string (s acc : string) : string :=
  match s with
  | EmptyString => acc
  | String c r => rev_string r (String c acc)
  end.

(** [trimEnd] on the reversed string: the last byte comes first. *)
Fixpoint trimEndReversed (s : string) : string :=
  match s with
  | String c r =>
      if is_space c then trimEndReversed r
      else
        match r with
        | String b r2 =>
            if is_space2 b c then trimEndReversed r2
            else
              match r2 with
              | String a r3 =>
                  if is_space3 a b c then trimEndReversed r3 else s
              | EmptyString => s
              end
        | EmptyString => s
        end
  | EmptyString => EmptyString
  end.

Definition trim (s : string) : string :=
  rev_string (trimEndReversed (rev_string (trimStart s) "")) "".

(** [xs.join(sep)]. *)
Fixpoint join (sep : string) (xs : list string) : string :=
  match xs with
  | [] => ""
  | [x] => x
  | x :: r => x ++ sep ++ join sep r
  end.

Definition string_truthy (s : string) : bool :=
  match s with
  | EmptyString => false
  | _ => true
  end.

(** [xs.some(p)] and [xs.includes(x)] on arrays of strings. *)
Definition some {A} (p : A -> bool) (xs : list A) : bool := existsb p xs.

Definition array_includes (xs : list string) (x : string) : bool :=
  existsb (String.eqb x) xs.

(** [Math.max(a, b)] and [Math.min(a, b)]: [NaN] when an argument is. *)
Definition Math_max (a b : num) : num :=
  match compare a b with
  | None => NaN
  | Some Lt => b
  | Some _ => a
  end.

Definition Math_min (a b : num) : num :=
  match compare a b with
  | None => NaN
  | Some Gt => b
  | Some _ => a
  end.

End JS.

Import JS.
Open Scope string_scope.

(* ================================================================== *)
(** ** VisionService: detections from raw model output *)
(* ================================================================== *)

Module Vision.

Record BoundingBox : Type := {
  x : option num;
  y : option num;
  width : num;
  height : num
}.

Record DetectedObject : Type := {
  label : string;
  confidence : num;
  boundingBox : BoundingBox;
  distance : option num
}.

Record SceneAnalysis : Type := {
  objects : list DetectedObject;
  dominantColors : list string;
  sceneType : string;
  lightingCondition : string;
  timestamp : Z
}.

(** A tensor of the model output: its shape and its downloaded data. *)
Record Tensor : Type := {
  shape : list nat;
  data : list num
}.

Definition confidenceThreshold : num := Fin 0.5.

Definition estimateDistance (objectHeight : num) : num :=
  let focalLength := Fin 600 in
  let realHeight := Fin 1.7 in
  if strict_eq objectHeight (Fin 0) then Fin 10
  else div (mul realHeight focalLength) (mul objectHeight (Fin 300)).

Definition cocoLabels : list string := [
  "unknown"; "person"; "bicycle"; "car"; "motorcycle"; "airplane"; "bus";
  "train"; "truck"; "boat"; "traffic light"; "fire hydrant"; "street sign";
  "stop sign"; "parking meter"; "bench"; "bird"; "cat"; "dog"; "horse";
  "sheep"; "cow"; "elephant"; "bear"; "zebra"; "giraffe"; "hat"; "backpack";
  "umbrella"; "shoe"; "eye glasses"; "handbag"; "tie"; "suitcase"; "frisbee";
  "skis"; "snowboard"; "sports ball"; "kite"; "baseball bat";
  "baseball glove"; "skateboard"; "surfboard"; "tennis racket"; "bottle";
  "plate"; "wine glass"; "cup"; "fork"; "knife"; "spoon"; "bowl"; "banana";
  "apple"; "sandwich"; "orange"; "broccoli"; "carrot"; "hot dog"; "pizza";
  "donut"; "cake"; "chair"; "couch"; "potted plant"; "bed"; "mirror";
  "dining table"; "window"; "desk"; "toilet"; "door"; "tv"; "laptop";
  "mouse"; "remote"; "keyboard"; "cell phone"; "microwave"; "oven";
  "toaster"; "sink"; "refrigerator"; "blender"; "book"; "clock"; "vase";
  "scissors"; "teddy bear"; "hair drier"; "toothbrush"; "hair brush" ].

(** [xs[n]] for an array and a number used as index: [undefined] unless
    [n] is an integer within the array. *)
Definition index_by_num {A} (xs : list A) (n : num) : option A :=
  match n with
  | Fin q =>
      if Qeq_bool q (inject_Z (Qfloor q)) && (0 <=? Qfloor q)%Z
      then nth_error xs (Z.to_nat (Qfloor q))
      else None
  | _ => None
  end.

(** [cocoLabels[Math.floor(classId)] || 'unknown'] *)
Definition getClassLabel (classId : option num) : string :=
  match index_by_num cocoLabels (Math_floor (toNumber classId)) with
  | Some l => if string_truthy l then l else "unknown"
  | None => "unknown"
  end.

(** The object pushed for index [i] of the score array. *)
Definition detection (boxes classes : list num) (i : nat) (score : num)
  : DetectedObject :=
  let y1 := nth_error boxes (i * 4) in
  let x1 := nth_error boxes (i * 4 + 1) in
  let y2 := nth_error boxes (i * 4 + 2) in
  let x2 := nth_error boxes (i * 4 + 3) in
  {| label := getClassLabel (nth_error classes i);
     confidence := score;
     boundingBox :=
       {| x := x1;
          y := y1;
          width := sub (toNumber x2) (toNumber x1);
          height := sub (toNumber y2) (toNumber y1) |};
     distance := Some (estimateDistance (sub (toNumber y2) (toNumber y1))) |}.

(** The loop [for (let i = 0; i < scores.length; i++)], entered at index
    [i] with [rest] the scores from [i] on. *)
Fixpoint detectLoop (boxes classes : list num) (i : nat) (rest : list num)
  : list DetectedObject :=
  match rest with
  | [] => []
  | s :: rest' =>
      (if gt s confidenceThreshold then [detection boxes classes i s] else [])
      ++ detectLoop boxes classes (S i) rest'
  end.

(** [predictions.find(p)], with the position of the element found: two
    tensors of the array are the same object when they sit at the same
    position. *)
Fixpoint find_from {A} (p : nat -> A -> bool) (i : nat) (xs : list A)
  : option (nat * A) :=
  match xs with
  | [] => None
  | a :: r => if p i a then Some (i, a) else find_from p (S i) r
  end.

Definition is_scores_shape (t : Tensor) : bool :=
  (List.length (shape t) =? 2)%nat && (100 <? nth 1 (shape t) 0)%nat.

Definition is_boxes_shape (t : Tensor) : bool :=
  (List.length (shape t) =? 3)%nat && (nth 2 (shape t) 0 =? 4)%nat.

(** The three tensors [processPredictions] looks for in the model output:
    scores, boxes and classes. *)
Definition locate (predictions : list Tensor)
  : option Tensor * option Tensor * option Tensor :=
  let scoresTensor := find_from (fun _ t => is_scores_shape t) 0 predictions in
  let boxesTensor := find_from (fun _ t => is_boxes_shape t) 0 predictions in
  let classesTensor :=
    find_from
      (fun i t =>
         is_scores_shape t &&
         match scoresTensor with
         | Some (j, _) => negb (i =? j)%nat
         | None => true
         end) 0 predictions in
  (option_map snd scoresTensor, option_map snd boxesTensor,
   option_map snd classesTensor).

Definition processPredictions (predictions : list Tensor)
  : list DetectedObject :=
  match locate predictions with
  | (Some scoresTensor, Some boxesTensor, Some classesTensor) =>
      let scores := data scoresTensor in
      let boxes := data boxesTensor in
      let classes := data classesTensor in
      detectLoop boxes classes 0 scores
  | _ => []
  end.

Definition determineSceneType (objects : list DetectedObject) : string :=
  let labels := map (fun obj => toLowerCase (label obj)) objects in
  if some (array_includes ["car"; "traffic light"; "street sign"]) labels
  then "street"
  else if some (array_includes ["tree"; "bench"; "bicycle"]) labels
  then "outdoor"
  else if some (array_includes ["chair"; "table"; "couch"]) labels
  then "indoor"
  else "unknown".

(** [analyzeLighting] after the mean brightness has been downloaded. *)
Definition lightingOf (meanBrightness : num) : string :=
  let brightness := div meanBrightness (Fin 255) in
  if gt brightness (Fin 0.7) then "bright"
  else if gt brightness (Fin 0.3) then "moderate"
  else "dim".

(** [extractDominantColors] after the channel means have been downloaded. *)
Definition dominantColorsOf (rgbMean : list num) : list string :=
  let r := Math_round (toNumber (nth_error rgbMean 0)) in
  let g := Math_round (toNumber (nth_error rgbMean 1)) in
  let b := Math_round (toNumber (nth_error rgbMean 2)) in
  ["rgb(" ++ Number_toString r ++ ", " ++ Number_toString g ++ ", "
     ++ Number_toString b ++ ")"].

End Vision.

(* ================================================================== *)
(** ** State of the services and of the screen *)
(* ================================================================== *)

Module VoiceState.
Record VoiceSettings : Type := {
  rate : num;
  pitch : num;
  language : string;
  volume : num
}.
Record t : Type := {
  settings : VoiceSettings;
  isSpeaking : bool;
  speechQueue : list string
}.
Definition init : t :=
  {| settings := {| rate := Fin 1; pitch := Fin 1; language := "en-US";
                    volume := Fin 1 |};
     isSpeaking := false;
     speechQueue := [] |}.
End VoiceState.

Module HapticState.
Record t : Type := { isEnabled : bool }.
Definition init : t := {| isEnabled := true |}.
End HapticState.

Module MistralState.
Record t : Type := { apiKey : string; isEnabled : bool }.
Definition init : t :=
  {| apiKey := "TvkpxVoYWB8A2CVJbyR9KQ0gUtW0wOGd"; isEnabled := false |}.
End MistralState.

Module VisionState.
(** [model] is [true] when the field holds a loaded model. *)
Record t : Type := { model : bool; _isInitialized : bool }.
Definition init : t := {| model := false; _isInitialized := false |}.
End VisionState.

Module Screen.
Inductive Mode : Type := scene | text | navigate.

Definition mode_eqb (a b : Mode) : bool :=
  match a, b with
  | scene, scene | text, text | navigate, navigate => true
  | _, _ => false
  end.

Record Permission : Type := { granted : bool }.

(** The values of the component's state variables in one render.  Every
    function declared in the component body ([analyzeCurrentFrame],
    [handleScreenTap], the interval callback, ...) is a closure of one
    render and reads these constants, not the state cells. *)
Record Render : Type := {
  permission : option Permission;
  isProcessing : bool;
  currentMode : Mode
}.

(** The state cells behind [useState] and the two refs.  [cameraRef] is
    [true] when [cameraRef.current] is set; [processingInterval] holds
    the render whose closure [setInterval] was given. *)
Record t : Type := {
  st_isProcessing : bool;
  st_currentMode : Mode;
  cameraRef : bool;
  processingInterval : option Render
}.

Definition init : t :=
  {| st_isProcessing := false; st_currentMode := scene;
     cameraRef := false; processingInterval := None |}.
End Screen.

Record World : Type := {
  voice : VoiceState.t;
  haptic : HapticState.t;
  mistral : MistralState.t;
  vision : VisionState.t;
  ocr_isInitialized : bool;
  llm_isInitialized : bool;
  screen : Screen.t
}.

Definition initialWorld : World :=
  {| voice := VoiceState.init;
     haptic := HapticState.init;
     mistral := MistralState.init;
     vision := VisionState.init;
     ocr_isInitialized := false;
     llm_isInitialized := false;
     screen := Screen.init |}.

Definition with_voice (f : VoiceState.t -> VoiceState.t) (w : World) : World :=
  {| voice := f (voice w); haptic := haptic w; mistral := mistral w;
     vision := vision w; ocr_isInitialized := ocr_isInitialized w;
     llm_isInitialized := llm_isInitialized w; screen := screen w |}.

Definition with_haptic (f : HapticState.t -> HapticState.t) (w : World) : World :=
  {| voice := voice w; haptic := f (haptic w); mistral := mistral w;
     vision := vision w; ocr_isInitialized := ocr_isInitialized w;
     llm_isInitialized := llm_isInitialized w; screen := screen w |}.

Definition with_mistral (f : MistralState.t -> MistralState.t) (w : World) : World :=
  {| voice := voice w; haptic := haptic w; mistral := f (mistral w);
     vision := vision w; ocr_isInitialized := ocr_isInitialized w;
     llm_isInitialized := llm_isInitialized w; screen := screen w |}.

Definition with_vision (f : VisionState.t -> VisionState.t) (w : World) : World :=
  {| voice := voice w; haptic := haptic w; mistral := mistral w;
     vision := f (vision w); ocr_isInitialized := ocr_isInitialized w;
     llm_isInitialized := llm_isInitialized w; screen := screen w |}.

Definition with_ocr (b : bool) (w : World) : World :=
  {| voice := voice w; haptic := haptic w; mistral := mistral w;
     vision := vision w; ocr_isInitialized := b;
     llm_isInitialized := llm_isInitialized w; screen := screen w |}.

Definition with_llm (b : bool) (w : World) : World :=
  {| voice := voice w; haptic := haptic w; mistral := mistral w;
     vision := vision w; ocr_isInitialized := ocr_isInitialized w;
     llm_isInitialized := b; screen := screen w |}.

Definition with_screen (f : Screen.t -> Screen.t) (w : World) : World :=
  {| voice := voice w; haptic := haptic w; mistral := mistral w;
     vision := vision w; ocr_isInitialized := ocr_isInitialized w;
     llm_isInitialized := llm_isInitialized w; screen := f (screen w) |}.

(* ================================================================== *)
(** ** The platform: external operations and their outcomes *)
(* ================================================================== *)

Inductive Err : Type := Error (message : string).

Inductive Outcome (A : Type) : Type :=
| Ok (a : A)
| Failed (e : Err).
Arguments Ok {A} a.
Arguments Failed {A} e.

(** Parsed JSON, as [response.json()] yields it. *)
#[warnings="-register-all"]
Inductive Json : Type :=
| JNull
| JBool (b : bool)
| JNum (n : num)
| JStr (s : string)
| JArr (items : list Json)
| JObj (fields : list (string * Json)).

(** What a [fetch] response gives: its status line and what its [text()]
    and [json()] methods resolve to. *)
Record Response : Type := {
  ok : bool;
  status : Z;
  statusText : string;
  body_text : Outcome string;
  body_json : Outcome Json
}.

Inductive ContentPart : Type :=
| PartText (text : string)
| PartImageUrl (url : string).

Inductive Content : Type :=
| ContentText (text : string)
| ContentParts (parts : list ContentPart).

Record Message : Type := { role : string; content : Content }.

Record RequestBody : Type := {
  rb_model : string;
  rb_messages : list Message;
  rb_temperature : num;
  rb_max_tokens : Z
}.

Record Photo : Type := { base64 : option string }.

Inductive ImpactFeedbackStyle : Type := Light | Medium | Heavy.
Inductive NotificationFeedbackType : Type := Success | Warning | ErrorType.

(** Handles of the image tensors of one frame. *)
Inductive ImageTensor : Type := imageTensor | inputTensor.

(** Operations of the platform that can fail (throw, or reject the promise
    they return), indexed by what they yield. *)
Inductive Call : Type -> Type :=
| Speech_getAvailableVoicesAsync : Call nat
| Speech_stop : Call unit
| Speech_speak (text : string) (options : VoiceState.VoiceSettings) : Call unit
| Haptics_impactAsync (style : ImpactFeedbackStyle) : Call unit
| Haptics_notificationAsync (type : NotificationFeedbackType) : Call unit
| fetch (url authorization : string) (body : RequestBody) : Call Response
| takePictureAsync (quality : num) (skipProcessing : bool)
    : Call (option Photo)
| requestPermission : Call Screen.Permission
| AsyncStorage_getItem (key : string) : Call (option string)
| tf_ready : Call unit
| tf_loadGraphModel (url : string) : Call unit
| tf_warmUp : Call unit
| decodeJpeg (imageBase64 : string) : Call unit
| resizeBilinear : Call unit
| model_executeAsync : Call (list Vision.Tensor)
| tensor_mean (t : ImageTensor) : Call (list num)
| tensor_meanRGB (t : ImageTensor) : Call (list num)
| tensor_dispose : Call unit.

(** Operations that cannot fail.  [Array_sort compareFn xs] is
    [[...xs].sort(compareFn)]: ECMAScript leaves the order of the result to
    the engine where the comparator is not consistent, so the sort is an
    operation of the engine and its result is the engine's to give. *)
Inductive Query : Type -> Type :=
| Date_now : Query Z
| setTimeout (ms : Z) : Query unit
| Array_sort {A : Type} (compareFn : A -> A -> num) (xs : list A)
    : Query (list A).

(** The operations at which an [await] really suspends the caller: those
    completed by the platform on a later turn of the event loop. *)
Definition suspends {R} (c : Call R) : bool :=
  match c with
  | Speech_speak _ _ => false
  | decodeJpeg _ | resizeBilinear | tensor_dispose => false
  | _ => true
  end.

Definition suspendsQ {R} (q : Query R) : bool :=
  match q with
  | Date_now => false
  | setTimeout _ => true
  | Array_sort _ _ => false
  end.

Inductive Event : Type :=
| Called {R} (c : Call R)
| Asked {R} (q : Query R).

(** The environment of a run: what the [n]-th operation yields. *)
Record Env : Type := {
  answer : forall R, nat -> Call R -> Outcome R;
  reply : forall R, nat -> Query R -> R
}.

(* ================================================================== *)
(** ** Programs *)
(* ================================================================== *)

(** A service method is a program over the state of the services: it
    returns or throws, reads and writes the state, and performs operations
    of the platform. *)
Inductive Prog (A : Type) : Type :=
| Ret (a : A)
| Throw (e : Err)
| GetW (k : World -> Prog A)
| PutW (w : World) (k : Prog A)
| Ask {R} (q : Query R) (k : R -> Prog A)
| Do {R} (c : Call R) (k : Outcome R -> Prog A).
Arguments Ret {A} a.
Arguments Throw {A} e.
Arguments GetW {A} k.
Arguments PutW {A} w k.
Arguments Ask {A R} q k.
Arguments Do {A R} c k.

Fixpoint bind {A B} (p : Prog A) (f : A -> Prog B) : Prog B :=
  match p with
  | Ret a => f a
  | Throw e => Throw e
  | GetW k => GetW (fun w => bind (k w) f)
  | PutW w k => PutW w (bind k f)
  | Ask q k => Ask q (fun r => bind (k r) f)
  | Do c k => Do c (fun o => bind (k o) f)
  end.

Declare Scope prog_scope.
Delimit Scope prog_scope with prog.
Bind Scope prog_scope with Prog.
Notation "x <- p ;; q" := (bind p (fun x => q))
  (at level 61, p at next level, right associativity) : prog_scope.
Notation "p ;; q" := (bind p (fun _ => q))
  (at level 61, right associativity) : prog_scope.
Open Scope prog_scope.

Definition get : Prog World := GetW (fun w => Ret w).
Definition modify (f : World -> World) : Prog unit :=
  GetW (fun w => PutW (f w) (Ret tt)).

(** [await c] (or a plain call of [c]): the value, or the exception. *)
Definition await {R} (c : Call R) : Prog R :=
  Do c (fun o => match o with Ok r => Ret r | Failed e => Throw e end).

Definition ask {R} (q : Query R) : Prog R := Ask q (fun r => Ret r).

(** [try { p } catch (e) { h e }] *)
Fixpoint try_catch {A} (p : Prog A) (h : Err -> Prog A) : Prog A :=
  match p with
  | Ret a => Ret a
  | Throw e => h e
  | GetW k => GetW (fun w => try_catch (k w) h)
  | PutW w k => PutW w (try_catch k h)
  | Ask q k => Ask q (fun r => try_catch (k r) h)
  | Do c k => Do c (fun o => try_catch (k o) h)
  end.

(** [try { p } finally { f }] *)
Fixpoint try_finally {A} (p : Prog A) (f : Prog unit) : Prog A :=
  match p with
  | Ret a => f ;; Ret a
  | Throw e => f ;; Throw e
  | GetW k => GetW (fun w => try_finally (k w) f)
  | PutW w k => PutW w (try_finally k f)
  | Ask q k => Ask q (fun r => try_finally (k r) f)
  | Do c k => Do c (fun o => try_finally (k o) f)
  end.

(** A call of an async function that is not awaited: a rejection of its
    promise reaches nobody. *)
Definition detached (p : Prog unit) : Prog unit :=
  try_catch p (fun _ => Ret tt).

(** [for (let i = 0; i < n; i++) body] *)
Fixpoint for_n (n : nat) (body : Prog unit) : Prog unit :=
  match n with
  | O => Ret tt
  | S n' => body ;; for_n n' body
  end.

(** A run to completion: every operation is answered by the environment,
    the [n]-th one by its [n]-th answer.  The result is how the program
    ends, the final state, and the operations performed, in order. *)
Fixpoint run {A} (env : Env) (p : Prog A) (w : World) (tr : list Event)
  : Outcome A * World * list Event :=
  match p with
  | Ret a => (Ok a, w, tr)
  | Throw e => (Failed e, w, tr)
  | GetW k => run env (k w) w tr
  | PutW w' k => run env k w' tr
  | Ask q k => run env (k (reply env (List.length tr) q)) w (tr ++ [Asked q])
  | Do c k => run env (k (answer env (List.length tr) c)) w (tr ++ [Called c])
  end.

Definition result_of {A} (r : Outcome A * World * list Event) : Outcome A :=
  fst (fst r).
Definition world_of {A} (r : Outcome A * World * list Event) : World :=
  snd (fst r).
Definition trace_of {A} (r : Outcome A * World * list Event) : list Event :=
  snd r.

(* ================================================================== *)
(** ** VoiceService *)
(* ================================================================== *)

Module VoiceService.
Import VoiceState.

Definition set_isSpeaking (b : bool) : Prog unit :=
  modify (with_voice (fun v =>
    {| settings := settings v; isSpeaking := b;
       speechQueue := speechQueue v |})).

Definition set_speechQueue (q : list string) : Prog unit :=
  modify (with_voice (fun v =>
    {| settings := settings v; isSpeaking := isSpeaking v;
       speechQueue := q |})).

Definition initialize : Prog unit :=
  _ <- await Speech_getAvailableVoicesAsync ;;
  Ret tt.

Definition stop : Prog unit :=
  await Speech_stop ;;
  set_isSpeaking false.

(** [speak].  The [onDone] and [onError] callbacks handed to the platform
    are the handlers [onDone] and [onError] below. *)
Definition speak (text : string) (priority : bool) : Prog unit :=
  (if priority then stop ;; set_speechQueue [] else Ret tt) ;;
  w <- get ;;
  if isSpeaking (voice w) && negb priority then
    set_speechQueue (speechQueue (voice w) ++ [text])
  else
    set_isSpeaking true ;;
    try_catch
      (await (Speech_speak text (settings (voice w))))
      (fun _ => set_isSpeaking false).

Definition processQueue : Prog unit :=
  w <- get ;;
  match speechQueue (voice w) with
  | nextText :: rest =>
      set_speechQueue rest ;;
      if string_truthy nextText then speak nextText false else Ret tt
  | [] => Ret tt
  end.

(** The platform reports the end of the utterance. *)
Definition onDone : Prog unit :=
  set_isSpeaking false ;;
  detached processQueue.

(** The platform reports a speech error. *)
Definition onError : Prog unit :=
  set_isSpeaking false ;;
  detached processQueue.

Module Command.
Inductive VoiceCommand : Type :=
| describe_scene
| read_text
| find_object
| navigate
| help
| settings
| unknown.
End Command.

Definition parseCommand (text : string) : Command.VoiceCommand :=
  let lowerText := toLowerCase text in
  if includes lowerText "describe" || includes lowerText "what"
     || includes lowerText "see"
  then Command.describe_scene
  else if includes lowerText "read" || includes lowerText "text"
  then Command.read_text
  else if includes lowerText "find" || includes lowerText "where"
  then Command.find_object
  else if includes lowerText "navigate" || includes lowerText "direction"
  then Command.navigate
  else if includes lowerText "help"
  then Command.help
  else if includes lowerText "settings" || includes lowerText "options"
  then Command.settings
  else Command.unknown.

Module Feedback.
Inductive FeedbackEvent : Type :=
| object_detected
| text_found
| error
| success.
End Feedback.

Definition feedbackSounds (event : Feedback.FeedbackEvent) : string :=
  match event with
  | Feedback.object_detected => "Object detected"
  | Feedback.text_found => "Text found"
  | Feedback.error => "Error occurred"
  | Feedback.success => "Success"
  end.

Definition provideFeedback (event : Feedback.FeedbackEvent) : Prog unit :=
  speak (feedbackSounds event) false.

(** The objects of [generateSceneDescription]:
    [{ label: string; distance?: number }]. *)
Module Spoken.
Record Object : Type := {
  label : string;
  distance : option num
}.
End Spoken.

(** The three distance groups of [generateSceneDescription]. *)
Definition closeObjects (objects : list Spoken.Object)
  : list Spoken.Object :=
  filter (fun obj => lt (or_default (Spoken.distance obj) (Fin 10)) (Fin 2))
         objects.

Definition mediumObjects (objects : list Spoken.Object)
  : list Spoken.Object :=
  filter (fun obj =>
            ge (or_default (Spoken.distance obj) (Fin 10)) (Fin 2) &&
            lt (or_default (Spoken.distance obj) (Fin 10)) (Fin 5))
         objects.

Definition farObjects (objects : list Spoken.Object)
  : list Spoken.Object :=
  filter (fun obj => ge (or_default (Spoken.distance obj) (Fin 10)) (Fin 5))
         objects.

Definition generateSceneDescription (objects : list Spoken.Object)
  : string :=
  if (List.length objects =? 0)%nat then "No objects detected in view"
  else
    let descriptions : list string := [] in
    let descriptions :=
      if (0 <? List.length (closeObjects objects))%nat then
        let labels := join ", " (map Spoken.label (closeObjects objects)) in
        (descriptions ++ [("Close to you: " ++ labels)%string])%list
      else descriptions in
    let descriptions :=
      if (0 <? List.length (mediumObjects objects))%nat then
        let labels := join ", " (map Spoken.label (mediumObjects objects)) in
        (descriptions ++ [("A few meters away: " ++ labels)%string])%list
      else descriptions in
    let descriptions :=
      if (0 <? List.length (farObjects objects))%nat then
        let labels := join ", " (map Spoken.label (farObjects objects)) in
        (descriptions ++ [("In the distance: " ++ labels)%string])%list
      else descriptions in
    join ". " descriptions.

Definition distanceText (distance : num) : string :=
  if lt distance (Fin 1) then "very close"
  else if lt distance (Fin 3) then
    Number_toString (Math_round distance) ++ " meters"
  else "far ahead".

Definition announceNavigation (direction object : string) (distance : num)
  : Prog unit :=
  speak (object ++ " " ++ distanceText distance ++ ", " ++ direction) true.

End VoiceService.

(* ================================================================== *)
(** ** HapticService *)
(* ================================================================== *)

Module HapticService.
Import HapticState.

Inductive HapticPattern : Type :=
| object_detected
| text_found
| navigation_cue
| warning
| success
| error.

Definition initialize : Prog unit := Ret tt.

Definition delay (ms : Z) : Prog unit := ask (setTimeout ms).

Definition trigger (pattern : HapticPattern) : Prog unit :=
  w <- get ;;
  if negb (isEnabled (haptic w)) then Ret tt
  else
    try_catch
      match pattern with
      | object_detected =>
          await (Haptics_impactAsync Light)
      | text_found =>
          await (Haptics_impactAsync Light) ;;
          delay 100 ;;
          await (Haptics_impactAsync Light)
      | navigation_cue =>
          await (Haptics_impactAsync Medium)
      | warning =>
          for_n 3 (await (Haptics_impactAsync Medium) ;; delay 150)
      | success =>
          await (Haptics_notificationAsync Success)
      | error =>
          await (Haptics_notificationAsync ErrorType)
      end
      (fun _ => Ret tt).

Definition setEnabled (enabled : bool) : Prog unit :=
  modify (with_haptic (fun _ => {| isEnabled := enabled |})).

Definition isHapticsEnabled : Prog bool :=
  w <- get ;; Ret (isEnabled (haptic w)).

Module Direction.
Inductive Direction : Type := left | right | forward | back.
End Direction.

Definition directionalCue (direction : Direction.Direction) : Prog unit :=
  w <- get ;;
  if negb (isEnabled (haptic w)) then Ret tt
  else
    match direction with
    | Direction.left =>
        await (Haptics_impactAsync Light) ;;
        delay 50 ;;
        await (Haptics_impactAsync Light)
    | Direction.right =>
        for_n 3 (await (Haptics_impactAsync Light) ;; delay 50)
    | Direction.forward =>
        await (Haptics_impactAsync Heavy)
    | Direction.back =>
        await (Haptics_impactAsync Medium) ;;
        delay 200 ;;
        await (Haptics_impactAsync Medium)
    end.

(** The pause between the two pulses of [distanceFeedback]:
    [Math.max(100, Math.min(1000, distanceMeters * 200))]. *)
Definition feedbackInterval (distanceMeters : num) : num :=
  Math_max (Fin 100) (Math_min (Fin 1000) (mul distanceMeters (Fin 200))).

End HapticService.

(* ================================================================== *)
(** ** MistralService *)
(* ================================================================== *)

(** The objects handed to the narration services,
    [{ label: string; confidence: number; distance?: number }], and the
    scene context of a question. *)
Module Scene.
Record SceneObject : Type := {
  label : string;
  confidence : num;
  distance : option num
}.

Definition ofDetected (o : Vision.DetectedObject) : SceneObject :=
  {| label := Vision.label o;
     confidence := Vision.confidence o;
     distance := Vision.distance o |}.

Record SceneContext : Type := {
  objects : list SceneObject;
  text : option string;
  sceneType : string;
  lightingCondition : string
}.
End Scene.

Inductive Source : Type := mistral_source | local_source | template_source.

(** The double quote character. *)
Definition dq : string := String (ascii_of_nat 34) "".
(** The line feed character. *)
Definition nl : string := String (ascii_of_nat 10) "".

Module MistralService.
Import MistralState.

Record MistralResponse : Type := {
  text : string;
  confidence : num;
  processingTime : Z;
  source : Source
}.

Definition baseUrl : string := "https://api.mistral.ai/v1/chat/completions".

Definition set_isEnabled (b : bool) : Prog unit :=
  modify (with_mistral (fun m => {| apiKey := apiKey m; isEnabled := b |})).

Definition set_apiKey (k : string) : Prog unit :=
  modify (with_mistral (fun m => {| apiKey := k; isEnabled := isEnabled m |})).

Definition initialize (key : string) : Prog unit :=
  try_catch
    (set_apiKey key ;;
     w <- get ;;
     if string_truthy (apiKey (mistral w))
        && (0 <? String.length (apiKey (mistral w)))%nat
     then set_isEnabled true
     else Throw (Error "Invalid API key"))
    (fun _ =>
       set_isEnabled false ;;
       Throw (Error "Mistral Service initialization failed")).

Definition isAvailable : Prog bool :=
  w <- get ;; Ret (isEnabled (mistral w)).

(** Property access [v.name] on a parsed JSON value; [None] is
    [undefined]. *)
Fixpoint lookup_last (name : string) (fs : list (string * Json)) : option Json :=
  match fs with
  | [] => None
  | (k, v) :: r =>
      match lookup_last name r with
      | Some v' => Some v'
      | None => if String.eqb k name then Some v else None
      end
  end.

Definition prop (v : option Json) (name : string) : Prog (option Json) :=
  match v with
  | None => Throw (Error "TypeError: cannot read properties of undefined")
  | Some JNull => Throw (Error "TypeError: cannot read properties of null")
  | Some (JObj fs) => Ret (lookup_last name fs)
  | Some _ => Ret None
  end.

(** Element access [v[0]]. *)
Definition first (v : option Json) : Prog (option Json) :=
  match v with
  | None => Throw (Error "TypeError: cannot read properties of undefined")
  | Some JNull => Throw (Error "TypeError: cannot read properties of null")
  | Some (JArr items) => Ret (nth_error items 0)
  | Some (JObj fs) => Ret (lookup_last "0" fs)
  | Some (JStr (String c _)) => Ret (Some (JStr (String c "")))
  | Some _ => Ret None
  end.

(** [v.trim()] *)
Definition call_trim (v : option Json) : Prog string :=
  match v with
  | Some (JStr s) => Ret (trim s)
  | _ => Throw (Error "TypeError: text.trim is not a function")
  end.

Definition makeRequest (model : string) (messages : list Message)
  : Prog Json :=
  w <- get ;;
  response <- await (fetch baseUrl ("Bearer " ++ apiKey (mistral w))
    {| rb_model := model; rb_messages := messages;
       rb_temperature := Fin 0.7; rb_max_tokens := 500 |}) ;;
  if negb (ok response) then
    match body_text response with
    | Ok errorText =>
        Throw (Error ("Mistral API error: " ++ string_of_Z (status response)
                      ++ " " ++ statusText response ++ " - " ++ errorText))
    | Failed e => Throw e
    end
  else
    match body_json response with
    | Ok j => Ret j
    | Failed e => Throw e
    end.

Definition percent (c : num) : string :=
  Number_toString (Math_round (mul c (Fin 100))).

Definition buildEnhancedPrompt (objects : list Scene.SceneObject)
    (sceneType lightingCondition : string) (detectedText : option string)
  : string :=
  "You are an AI assistant helping a visually impaired person understand their surroundings." ++ nl ++
  nl ++
  "Scene Analysis:" ++ nl ++
  "- Location type: " ++ sceneType ++ nl ++
  "- Lighting: " ++ lightingCondition ++ nl ++
  "- Detected objects: " ++
  join ", " (map (fun o =>
    Scene.label o ++ " (" ++
    match Scene.distance o with Some d => toFixed1 d | None => "?" end ++
    "m away, " ++ percent (Scene.confidence o) ++ "% confident)")
    objects) ++ nl ++
  match detectedText with
  | Some t =>
      if string_truthy t then "- Visible text: " ++ dq ++ t ++ dq else ""
  | None => ""
  end ++ nl ++
  nl ++
  "Provide a natural, conversational description of this scene in 2-3 sentences. Focus on:" ++ nl ++
  "1. Overall environment and atmosphere" ++ nl ++
  "2. Key objects and their spatial relationships" ++ nl ++
  "3. Any important details for navigation or safety" ++ nl ++
  nl ++
  "Be concise, helpful, and conversational. Speak directly to the user.".

(** The common tail of the four requests:
    [response.choices[0].message.content], trimmed. *)
Definition completionText (response : Json) : Prog string :=
  choices <- prop (Some response) "choices" ;;
  choice <- first choices ;;
  message <- prop choice "message" ;;
  content <- prop message "content" ;;
  call_trim content.

Definition unavailable : Err := Error "Mistral Service not available".

Definition generateEnhancedDescription (objects : list Scene.SceneObject)
    (sceneType lightingCondition : string) (detectedText : option string)
  : Prog MistralResponse :=
  startTime <- ask Date_now ;;
  available <- isAvailable ;;
  if negb available then Throw unavailable
  else
    try_catch
      (let prompt :=
         buildEnhancedPrompt objects sceneType lightingCondition detectedText in
       response <- makeRequest "mistral-small-latest"
         [{| role := "user"; content := ContentText prompt |}] ;;
       text <- completionText response ;;
       now <- ask Date_now ;;
       Ret {| text := text;
              confidence := Fin 0.95;
              processingTime := now - startTime;
              source := mistral_source |})
      (fun error => Throw error).

Definition navigationPrompt (targetObject : string)
    (currentObjects : list Scene.SceneObject) (userIntent : string) : string :=
  "You are an AI assistant helping a visually impaired person navigate." ++ nl ++
  nl ++
  "User's goal: " ++ userIntent ++ nl ++
  "Target object: " ++ targetObject ++ nl ++
  nl ++
  "Currently visible objects:" ++ nl ++
  join nl (map (fun o =>
    "- " ++ Scene.label o ++ " at approximately " ++
    match Scene.distance o with Some d => toFixed1 d | None => "unknown" end ++
    " meters (" ++ percent (Scene.confidence o) ++ "% confident)")
    currentObjects) ++ nl ++
  nl ++
  "Provide clear, concise navigation instructions. Be specific about direction and distance. Keep it under 30 words.".

Definition generateNavigationGuidance (targetObject : string)
    (currentObjects : list Scene.SceneObject) (userIntent : string)
  : Prog MistralResponse :=
  startTime <- ask Date_now ;;
  available <- isAvailable ;;
  if negb available then Throw unavailable
  else
    try_catch
      (let prompt := navigationPrompt targetObject currentObjects userIntent in
       response <- makeRequest "mistral-small-latest"
         [{| role := "user"; content := ContentText prompt |}] ;;
       text <- completionText response ;;
       now <- ask Date_now ;;
       Ret {| text := text;
              confidence := Fin 0.90;
              processingTime := now - startTime;
              source := mistral_source |})
      (fun error => Throw error).

Definition questionPrompt (question : string) (sceneContext : Scene.SceneContext)
  : string :=
  "You are helping a visually impaired person understand their surroundings." ++ nl ++
  nl ++
  "Scene information:" ++ nl ++
  "- Type: " ++ Scene.sceneType sceneContext ++ nl ++
  "- Lighting: " ++ Scene.lightingCondition sceneContext ++ nl ++
  "- Visible objects: " ++
  join ", " (map (fun o =>
    Scene.label o ++ " (" ++
    match Scene.distance o with Some d => toFixed1 d | None => "undefined" end ++
    "m away)") (Scene.objects sceneContext)) ++ nl ++
  match Scene.text sceneContext with
  | Some t =>
      if string_truthy t then "- Visible text: " ++ dq ++ t ++ dq else ""
  | None => ""
  end ++ nl ++
  nl ++
  "User's question: " ++ dq ++ question ++ dq ++ nl ++
  nl ++
  "Provide a helpful, concise answer (under 40 words). Be specific and actionable.".

Definition answerQuestion (question : string) (sceneContext : Scene.SceneContext)
  : Prog MistralResponse :=
  startTime <- ask Date_now ;;
  available <- isAvailable ;;
  if negb available then Throw unavailable
  else
    try_catch
      (let prompt := questionPrompt question sceneContext in
       response <- makeRequest "mistral-small-latest"
         [{| role := "user"; content := ContentText prompt |}] ;;
       text <- completionText response ;;
       now <- ask Date_now ;;
       Ret {| text := text;
              confidence := Fin 0.92;
              processingTime := now - startTime;
              source := mistral_source |})
      (fun error => Throw error).

Definition visionPrompt : string :=
  "You are assisting a visually impaired person. Analyze this image and provide:" ++ nl ++
  nl ++
  "1. A brief, natural description of the scene (2-3 sentences)" ++ nl ++
  "2. Important objects and their approximate locations (left, right, center, near, far)" ++ nl ++
  "3. Any text visible in the image" ++ nl ++
  "4. Potential hazards or obstacles" ++ nl ++
  "5. Helpful navigation cues" ++ nl ++
  nl ++
  "Keep your response conversational and under 100 words. Focus on what's most important for navigation and safety.".

Definition analyzeImageWithVision (imageBase64 mimeType : string)
  : Prog MistralResponse :=
  startTime <- ask Date_now ;;
  available <- isAvailable ;;
  if negb available then Throw unavailable
  else
    try_catch
      (let prompt := visionPrompt in
       response <- makeRequest "pixtral-12b-2409"
         [{| role := "user";
             content := ContentParts
               [PartText prompt;
                PartImageUrl ("data:" ++ mimeType ++ ";base64," ++ imageBase64)]
          |}] ;;
       text <- completionText response ;;
       now <- ask Date_now ;;
       Ret {| text := text;
              confidence := Fin 0.98;
              processingTime := now - startTime;
              source := mistral_source |})
      (fun error => Throw error).

Definition setEnabled (enabled : bool) : Prog unit :=
  w <- get ;;
  set_isEnabled (enabled && (0 <? String.length (apiKey (mistral w)))%nat).

Definition getStatus : Prog (bool * bool) :=
  w <- get ;;
  Ret (isEnabled (mistral w), (0 <? String.length (apiKey (mistral w)))%nat).

Definition dispose : Prog unit := set_isEnabled false.

End MistralService.

(* ================================================================== *)
(** ** LLMService *)
(* ================================================================== *)

Module LLMService.

Record LLMResponse : Type := {
  text : string;
  confidence : num;
  processingTime : Z;
  source : option Source
}.

(** A [MistralResponse] returned as an [LLMResponse]. *)
Definition ofMistral (r : MistralService.MistralResponse) : LLMResponse :=
  {| text := MistralService.text r;
     confidence := MistralService.confidence r;
     processingTime := MistralService.processingTime r;
     source := Some (MistralService.source r) |}.

Definition initialize : Prog unit :=
  w <- get ;;
  if llm_isInitialized w then Ret tt
  else modify (with_llm true).

Definition closeObjects (objects : list Scene.SceneObject)
  : list Scene.SceneObject :=
  filter (fun o => lt (or_default (Scene.distance o) (Fin 10)) (Fin 2)) objects.

Definition farObjects (objects : list Scene.SceneObject)
  : list Scene.SceneObject :=
  filter (fun o => ge (or_default (Scene.distance o) (Fin 10)) (Fin 2)) objects.

Definition generateTemplateDescription (objects : list Scene.SceneObject)
    (sceneType lightingCondition : string) : string :=
  if (List.length objects =? 0)%nat then
    "You appear to be in a " ++ sceneType ++ " area with " ++
    lightingCondition ++ " lighting. No specific objects detected nearby."
  else
    let description :=
      "You're in a " ++ sceneType ++ " area with " ++ lightingCondition ++
      " lighting. " in
    let description :=
      if (0 <? List.length (closeObjects objects))%nat then
        description ++ "Close to you: " ++
        join ", " (map Scene.label (closeObjects objects)) ++ ". "
      else description in
    let description :=
      if (0 <? List.length (farObjects objects))%nat then
        description ++ "Further away: " ++
        join ", " (map Scene.label (farObjects objects)) ++ "."
      else description in
    description.

Definition generateTemplateNavigation (targetObject : string)
    (currentObjects : list Scene.SceneObject) : string :=
  let target :=
    find (fun o => includes (toLowerCase (Scene.label o))
                            (toLowerCase targetObject)) currentObjects in
  match target with
  | Some target =>
      let distance := or_default (Scene.distance target) (Fin 5) in
      targetObject ++ " is approximately " ++
      Number_toString (Math_round distance) ++ " meters ahead of you."
  | None =>
      "I don't see a " ++ targetObject ++
      " in the current view. Try looking around."
  end.

Definition generateTemplateAnswer (question : string)
    (sceneContext : Scene.SceneContext) : string :=
  let lowerQuestion := toLowerCase question in
  let count :=
    string_of_Z (Z.of_nat (List.length (Scene.objects sceneContext))) in
  if includes lowerQuestion "what" || includes lowerQuestion "see" then
    "I can see " ++
    join ", " (map Scene.label (Scene.objects sceneContext)) ++
    " in this " ++ Scene.sceneType sceneContext ++ "."
  else if includes lowerQuestion "where" then
    "You're in a " ++ Scene.sceneType sceneContext ++ " area."
  else if includes lowerQuestion "how many" then
    "I can see " ++ count ++ " objects."
  else
    "I see " ++ count ++ " objects in this " ++
    Scene.sceneType sceneContext ++ ".".

(** The shape shared by the three narration methods: Mistral first when it
    is available, the local template otherwise or when Mistral fails.  The
    inner [try] yields the Mistral response, if any. *)
Definition tryMistral (request : Prog MistralService.MistralResponse)
  : Prog (option LLMResponse) :=
  available <- MistralService.isAvailable ;;
  if available then
    try_catch
      (r <- request ;; Ret (Some (ofMistral r)))
      (fun mistralError => Ret None)
  else Ret None.

Definition generateSceneDescription (objects : list Scene.SceneObject)
    (sceneType lightingCondition : string) (detectedText : option string)
  : Prog LLMResponse :=
  startTime <- ask Date_now ;;
  try_catch
    (enhanced <- tryMistral
       (MistralService.generateEnhancedDescription
          objects sceneType lightingCondition detectedText) ;;
     match enhanced with
     | Some r => Ret r
     | None =>
         let description :=
           generateTemplateDescription objects sceneType lightingCondition in
         now <- ask Date_now ;;
         Ret {| text := description;
                confidence := Fin 0.85;
                processingTime := now - startTime;
                source := Some template_source |}
     end)
    (fun error => Throw error).

Definition generateNavigationGuidance (targetObject : string)
    (currentObjects : list Scene.SceneObject) (userIntent : string)
  : Prog LLMResponse :=
  startTime <- ask Date_now ;;
  try_catch
    (enhanced <- tryMistral
       (MistralService.generateNavigationGuidance
          targetObject currentObjects userIntent) ;;
     match enhanced with
     | Some r => Ret r
     | None =>
         let guidance := generateTemplateNavigation targetObject currentObjects in
         now <- ask Date_now ;;
         Ret {| text := guidance;
                confidence := Fin 0.80;
                processingTime := now - startTime;
                source := Some template_source |}
     end)
    (fun error => Throw error).

Definition answerQuestion (question : string)
    (sceneContext : Scene.SceneContext) : Prog LLMResponse :=
  startTime <- ask Date_now ;;
  try_catch
    (enhanced <- tryMistral
       (MistralService.answerQuestion question sceneContext) ;;
     match enhanced with
     | Some r => Ret r
     | None =>
         let answer := generateTemplateAnswer question sceneContext in
         now <- ask Date_now ;;
         Ret {| text := answer;
                confidence := Fin 0.75;
                processingTime := now - startTime;
                source := Some template_source |}
     end)
    (fun error => Throw error).

Definition dispose : Prog unit := modify (with_llm false).

End LLMService.

(* ================================================================== *)
(** ** VisionService: initialisation and scene analysis *)
(* ================================================================== *)

Module VisionService.
Import VisionState.

Definition MODEL_URL : string :=
  "https://storage.googleapis.com/tfjs-models/savedmodel/ssd_mobilenet_v2_owt/model.json".

Definition isInitialized : Prog bool :=
  w <- get ;; Ret (_isInitialized (vision w)).

Definition set_model (b : bool) : Prog unit :=
  modify (with_vision (fun v =>
    {| model := b; _isInitialized := _isInitialized v |})).

Definition set_isInitialized (b : bool) : Prog unit :=
  modify (with_vision (fun v => {| model := model v; _isInitialized := b |})).

Definition initialize : Prog unit :=
  w <- get ;;
  if _isInitialized (vision w) then Ret tt
  else
    try_catch
      (await tf_ready ;;
       await (tf_loadGraphModel MODEL_URL) ;;
       set_model true ;;
       await tf_warmUp ;;
       set_isInitialized true)
      (fun _ => Throw (Error "Vision Service initialization failed")).

Definition analyzeScene (imageBase64 : string) : Prog Vision.SceneAnalysis :=
  w <- get ;;
  if negb (_isInitialized (vision w)) || negb (model (vision w)) then
    Throw (Error "Vision Service not initialized")
  else
    try_catch
      (await (decodeJpeg imageBase64) ;;
       await resizeBilinear ;;
       result <- await model_executeAsync ;;
       let objects := Vision.processPredictions result in
       let sceneType := Vision.determineSceneType objects in
       meanBrightness <- await (tensor_mean imageTensor) ;;
       let lightingCondition :=
         Vision.lightingOf (toNumber (nth_error meanBrightness 0)) in
       rgbMean <- await (tensor_meanRGB imageTensor) ;;
       let dominantColors := Vision.dominantColorsOf rgbMean in
       await tensor_dispose ;;
       await tensor_dispose ;;
       for_n (List.length result) (await tensor_dispose) ;;
       now <- ask Date_now ;;
       Ret {| Vision.objects := objects;
              Vision.dominantColors := dominantColors;
              Vision.sceneType := sceneType;
              Vision.lightingCondition := lightingCondition;
              Vision.timestamp := now |})
      (fun error => Throw error).

Definition dispose : Prog unit :=
  w <- get ;;
  (if model (vision w) then await tensor_dispose ;; set_model false
   else Ret tt) ;;
  set_isInitialized false.

End VisionService.

(* ================================================================== *)
(** ** OCRService *)
(* ================================================================== *)

Module OCRService.

Record TextDetection : Type := {
  text : string;
  confidence : num;
  boundingBox : Vision.BoundingBox;
  language : option string
}.

Record OCRResult : Type := {
  detections : list TextDetection;
  fullText : string;
  timestamp : Z
}.

Definition isInitialized : Prog bool :=
  w <- get ;; Ret (ocr_isInitialized w).

Definition initialize : Prog unit :=
  w <- get ;;
  if ocr_isInitialized w then Ret tt
  else modify (with_ocr true).

Definition detectText (imageData : string) : Prog OCRResult :=
  w <- get ;;
  if negb (ocr_isInitialized w) then
    Throw (Error "OCR Service not initialized")
  else
    try_catch
      (now <- ask Date_now ;;
       Ret {| detections := []; fullText := ""; timestamp := now |})
      (fun error => Throw error).

(** The comparator that [organizeTextForReading] hands to [sort]. *)
Definition readingOrder (a b : TextDetection) : num :=
  let yDiff := sub (toNumber (Vision.y (boundingBox a)))
                   (toNumber (Vision.y (boundingBox b))) in
  if gt (Math_abs yDiff) (Fin 20) then yDiff
  else sub (toNumber (Vision.x (boundingBox a)))
           (toNumber (Vision.x (boundingBox b))).

(** The comparator does not ask for [a] after [b]: its result is not
    positive.  A [NaN] result counts as 0, as [sort] reads it. *)
Definition before (a b : TextDetection) : bool :=
  negb (gt (readingOrder a b) (Fin 0)).

(** [organizeTextForReading]: the detections in the order the engine's
    [sort] gives them under [readingOrder], their texts joined by single
    spaces. *)
Definition organizeTextForReading (detections : list TextDetection)
  : Prog string :=
  sorted <- ask (Array_sort readingOrder detections) ;;
  Ret (join " " (map text sorted)).

Definition dispose : Prog unit := modify (with_ocr false).

Module Kind.
Inductive TextKind : Type := sign | menu | currency | document.
End Kind.

Module Currency.
Record Amount : Type := {
  value : num;
  currency : string;
  confidence : num
}.
End Currency.

Definition currencySymbols : list (string * string) :=
  [("$", "USD"); ("€", "EUR"); ("£", "GBP"); ("¥", "JPY")].

Fixpoint lookup (key : string) (table : list (string * string))
  : option string :=
  match table with
  | [] => None
  | (k, v) :: r => if String.eqb k key then Some v else lookup key r
  end.

(** The regular expressions and [parseFloat] belong to the runtime; the
    currency functions are written over them. *)
Section Currency.

(** [/[$€£¥]|\d+\.\d{2}/.test(s)] *)
Variable currencyPattern : string -> bool.

(** [s.match(/([€£¥$])\s*(\d+(?:\.\d{2})?)/)]: the groups 1 and 2. *)
Variable currencyMatch : string -> option (string * string).

Variable parseFloat : string -> num.

Definition with_detections (r : OCRResult) (ds : list TextDetection)
  : OCRResult :=
  {| detections := ds; fullText := fullText r; timestamp := timestamp r |}.

Definition detectSpecificText (imageData : string) (type : Kind.TextKind)
  : Prog OCRResult :=
  result <- detectText imageData ;;
  match type with
  | Kind.sign =>
      Ret (with_detections result
             (filter (fun d =>
                        (String.length (text d) <? 50)%nat &&
                        gt (confidence d) (Fin 0.7))
                     (detections result)))
  | Kind.currency =>
      Ret (with_detections result
             (filter (fun d => currencyPattern (text d)) (detections result)))
  | Kind.menu => Ret result
  | Kind.document => Ret result
  end.

(** The loop of [detectCurrency] over the detections. *)
Fixpoint firstAmount (ds : list TextDetection) : option Currency.Amount :=
  match ds with
  | [] => None
  | detection :: rest =>
      match currencyMatch (text detection) with
      | Some (symbol, digits) =>
          Some {| Currency.value := parseFloat digits;
                  Currency.currency :=
                    match lookup symbol currencySymbols with
                    | Some code => if string_truthy code then code else "unknown"
                    | None => "unknown"
                    end;
                  Currency.confidence := confidence detection |}
      | None => firstAmount rest
      end
  end.

Definition detectCurrency (imageData : string) : Prog (option Currency.Amount) :=
  result <- detectSpecificText imageData Kind.currency ;;
  Ret (firstAmount (detections result)).

End Currency.

End OCRService.

(* ================================================================== *)
(** ** CameraScreen *)
(* ================================================================== *)

Module CameraScreen.
Import Screen.

Definition setIsProcessing (b : bool) : Prog unit :=
  modify (with_screen (fun s =>
    {| st_isProcessing := b; st_currentMode := st_currentMode s;
       cameraRef := cameraRef s;
       processingInterval := processingInterval s |})).

Definition setCurrentMode (m : Mode) : Prog unit :=
  modify (with_screen (fun s =>
    {| st_isProcessing := st_isProcessing s; st_currentMode := m;
       cameraRef := cameraRef s;
       processingInterval := processingInterval s |})).

Definition set_processingInterval (cb : option Render) : Prog unit :=
  modify (with_screen (fun s =>
    {| st_isProcessing := st_isProcessing s;
       st_currentMode := st_currentMode s;
       cameraRef := cameraRef s;
       processingInterval := cb |})).

Definition set_cameraRef (b : bool) : Prog unit :=
  modify (with_screen (fun s =>
    {| st_isProcessing := st_isProcessing s;
       st_currentMode := st_currentMode s;
       cameraRef := b;
       processingInterval := processingInterval s |})).

(** [photo.base64] *)
Definition photo_base64 (photo : option Photo) : Prog (option string) :=
  match photo with
  | Some ph => Ret (base64 ph)
  | None => Throw (Error "TypeError: cannot read properties of undefined")
  end.

Definition defined_truthy (v : option string) : bool :=
  match v with
  | Some s => string_truthy s
  | None => false
  end.

Definition the_string (v : option string) : string :=
  match v with
  | Some s => s
  | None => ""
  end.

(** The [scene] branch of a cycle when [VisionService] cannot be used. *)
Definition mistralFallback : Prog unit :=
  mistralStatus <- MistralService.getStatus ;;
  w <- get ;;
  if fst mistralStatus && snd mistralStatus && cameraRef (screen w) then
    try_catch
      (photo <- await (takePictureAsync (Fin 0.5) false) ;;
       match photo with
       | Some ph =>
           if defined_truthy (base64 ph) then
             HapticService.trigger HapticService.success ;;
             mistralResponse <-
               MistralService.analyzeImageWithVision
                 (the_string (base64 ph)) "image/jpeg" ;;
             VoiceService.speak (MistralService.text mistralResponse) true
           else Ret tt
       | None => Ret tt
       end)
      (fun mistralError =>
         VoiceService.speak
           "Scene analysis failed. Please check your connection." true)
  else
    VoiceService.speak
      "Vision service unavailable. Please check settings." true.

(** One capture cycle, as the closure of render [r]. *)
Definition analyzeCurrentFrame (r : Render) (speakResult : bool) : Prog unit :=
  w <- get ;;
  if negb (cameraRef (screen w)) || isProcessing r then Ret tt
  else
    setIsProcessing true ;;
    try_finally
      (try_catch
         (photo <- await (takePictureAsync (Fin 0.5) true) ;;
          match currentMode r with
          | scene =>
              visionReady <- VisionService.isInitialized ;;
              b <- (if (visionReady : bool) then photo_base64 photo
                    else Ret None) ;;
              if defined_truthy b then
                sceneAnalysis <- VisionService.analyzeScene (the_string b) ;;
                if (0 <? List.length (Vision.objects sceneAnalysis))%nat then
                  HapticService.trigger HapticService.object_detected ;;
                  if speakResult then
                    description <-
                      LLMService.generateSceneDescription
                        (map Scene.ofDetected (Vision.objects sceneAnalysis))
                        (Vision.sceneType sceneAnalysis)
                        (Vision.lightingCondition sceneAnalysis)
                        None ;;
                    VoiceService.speak (LLMService.text description) true
                  else Ret tt
                else Ret tt
              else mistralFallback
          | text =>
              ocrReady <- OCRService.isInitialized ;;
              b <- (if (ocrReady : bool) then photo_base64 photo
                    else Ret None) ;;
              if defined_truthy b then
                ocrResult <- OCRService.detectText (the_string b) ;;
                if (0 <? List.length (OCRService.detections ocrResult))%nat
                then
                  HapticService.trigger HapticService.text_found ;;
                  if speakResult then
                    organizedText <-
                      OCRService.organizeTextForReading
                        (OCRService.detections ocrResult) ;;
                    VoiceService.speak ("Text found: " ++ organizedText) true
                  else Ret tt
                else if speakResult then
                  VoiceService.speak "No text detected" true
                else Ret tt
              else Ret tt
          | navigate => Ret tt
          end)
         (fun error =>
            if speakResult then
              VoiceService.speak "Analysis failed. Please try again" true ;;
              HapticService.trigger HapticService.error
            else Ret tt))
      (setIsProcessing false).

Definition handleScreenTap (r : Render) : Prog unit :=
  HapticService.trigger HapticService.success ;;
  analyzeCurrentFrame r true.

(** The callback that [startContinuousAnalysis] hands to [setInterval]. *)
Definition intervalCallback (r : Render) : Prog unit :=
  if negb (isProcessing r) && mode_eqb (currentMode r) scene then
    analyzeCurrentFrame r false
  else Ret tt.

Definition startContinuousAnalysis (r : Render) : Prog unit :=
  set_processingInterval (Some r).

Definition modeMessages (m : Mode) : string :=
  match m with
  | scene => "Scene description mode"
  | text => "Text reading mode"
  | navigate => "Navigation mode"
  end.

Definition switchMode (m : Mode) : Prog unit :=
  setCurrentMode m ;;
  HapticService.trigger HapticService.success ;;
  VoiceService.speak (modeMessages m) true.

(** [try { p } catch (e) { console.error(...) }] *)
Definition isolated (p : Prog unit) : Prog unit :=
  try_catch p (fun _ => Ret tt).

Definition loadMistral : Prog unit :=
  isolated
    (apiKey <- await (AsyncStorage_getItem "@neurolens_mistral_key") ;;
     enabled <- await (AsyncStorage_getItem "@neurolens_mistral_enabled") ;;
     if defined_truthy apiKey &&
        match enabled with Some e => String.eqb e "true" | None => false end
     then MistralService.initialize (the_string apiKey)
     else MistralService.initialize "TvkpxVoYWB8A2CVJbyR9KQ0gUtW0wOGd").

Definition initializeServices (r : Render) : Prog unit :=
  try_catch
    match permission r with
    | None => Ret tt
    | Some perm =>
        proceed <-
          (if negb (granted perm) then
             result <- await requestPermission ;;
             if negb (granted result) then
               VoiceService.speak
                 "Camera permission is required for NeuroLens to work" true ;;
               Ret false
             else Ret true
           else Ret true) ;;
        if (proceed : bool) then
          loadMistral ;;
          isolated VoiceService.initialize ;;
          isolated HapticService.initialize ;;
          isolated OCRService.initialize ;;
          isolated LLMService.initialize ;;
          try_catch VisionService.initialize
            (fun e =>
               VoiceService.speak
                 "Vision service failed to load. Check internet for first run."
                 true) ;;
          available <- MistralService.isAvailable ;;
          let mistralStatus :=
            if (available : bool) then "with Mistral enhanced mode" else "" in
          VoiceService.speak
            ("NeuroLens is ready " ++ mistralStatus ++
             ". Tap anywhere to describe your surroundings") true ;;
          HapticService.trigger HapticService.success ;;
          startContinuousAnalysis r
        else Ret tt
    end
    (fun error =>
       VoiceService.speak
         "Failed to initialize NeuroLens. Please restart the app" true).

Definition cleanup : Prog unit :=
  set_processingInterval None ;;
  VisionService.dispose ;;
  OCRService.dispose ;;
  LLMService.dispose.

(** The render a state of the screen gives rise to. *)
Definition render (perm : option Permission) (s : Screen.t) : Render :=
  {| permission := perm;
     isProcessing := st_isProcessing s;
     currentMode := st_currentMode s |}.

(** The effect [useEffect(() => { initializeServices(); ... }, [])] runs
    once, after the first render, with the closures of that render. *)
Definition firstRender (perm : option Permission) : Render :=
  {| permission := perm; isProcessing := false; currentMode := scene |}.

Definition mountEffect (perm : option Permission) : Prog unit :=
  detached (initializeServices (firstRender perm)).

End CameraScreen.

(* ================================================================== *)
(** ** The event loop *)
(* ================================================================== *)

(** Handlers run one at a time; a handler that awaits an operation of the
    platform is suspended until the platform completes it, and other
    handlers run meanwhile. *)
Module EventLoop.
Import Screen.

Inductive Status (A : Type) : Type :=
| Finished (o : Outcome A)
| Suspended (awaited : Event) (rest : Prog A).
Arguments Finished {A} o.
Arguments Suspended {A} awaited rest.

(** Runs [p] up to its first suspension.  The operation awaited is already
    issued and recorded; [rest] is what follows its completion. *)
Fixpoint advance {A} (env : Env) (p : Prog A) (w : World) (tr : list Event)
  : Status A * World * list Event :=
  match p with
  | Ret a => (Finished (Ok a), w, tr)
  | Throw e => (Finished (Failed e), w, tr)
  | GetW k => advance env (k w) w tr
  | PutW w' k => advance env k w' tr
  | Ask q k =>
      let rest := k (reply env (List.length tr) q) in
      if suspendsQ q then (Suspended (Asked q) rest, w, (tr ++ [Asked q])%list)
      else advance env rest w ((tr ++ [Asked q])%list)
  | Do c k =>
      let rest := k (answer env (List.length tr) c) in
      if suspends c then (Suspended (Called c) rest, w, (tr ++ [Called c])%list)
      else advance env rest w ((tr ++ [Called c])%list)
  end.

Record Config : Type := {
  world : World;
  rendered : Render;
  tasks : list (Event * Prog unit);
  trace : list Event
}.

Definition initialConfig : Config :=
  {| world := initialWorld;
     rendered := CameraScreen.firstRender None;
     tasks := [];
     trace := [] |}.

(** The operations awaited by the suspended handlers. *)
Definition pending (c : Config) : list Event := map fst (tasks c).

Definition settle (c : Config) (before after : list (Event * Prog unit))
    (r : Status unit * World * list Event) : Config :=
  match r with
  | (Finished _, w, tr) =>
      {| world := w; rendered := rendered c;
         tasks := (before ++ after)%list; trace := tr |}
  | (Suspended ev rest, w, tr) =>
      {| world := w; rendered := rendered c;
         tasks := (before ++ (ev, rest) :: after)%list; trace := tr |}
  end.

(** A new handler starts. *)
Definition spawn (env : Env) (p : Prog unit) (c : Config) : Config :=
  settle c (tasks c) [] (advance env p (world c) (trace c)).

(** The platform completes the operation awaited by the [i]-th suspended
    handler, which resumes. *)
Definition complete (env : Env) (i : nat) (c : Config) : Config :=
  match nth_error (tasks c) i with
  | Some (_, rest) =>
      settle c (firstn i (tasks c)) (skipn (S i) (tasks c))
        (advance env rest (world c) (trace c))
  | None => c
  end.

Inductive Action : Type :=
| Mount (perm : option Permission)
| AttachCamera
| Commit (perm : option Permission)
| Tap
| Tick
| Press (m : Mode)
| SpeechDone
| SpeechError
| Complete (i : nat).

Definition step (env : Env) (c : Config) (a : Action) : Config :=
  match a with
  | Mount perm =>
      spawn env (CameraScreen.mountEffect perm)
        {| world := world c; rendered := CameraScreen.firstRender perm;
           tasks := tasks c; trace := trace c |}
  | AttachCamera =>
      spawn env (CameraScreen.set_cameraRef true) c
  | Commit perm =>
      {| world := world c;
         rendered := CameraScreen.render perm (screen (world c));
         tasks := tasks c; trace := trace c |}
  | Tap => spawn env (detached (CameraScreen.handleScreenTap (rendered c))) c
  | Tick =>
      match processingInterval (screen (world c)) with
      | Some r => spawn env (detached (CameraScreen.intervalCallback r)) c
      | None => c
      end
  | Press m => spawn env (detached (CameraScreen.switchMode m)) c
  | SpeechDone => spawn env VoiceService.onDone c
  | SpeechError => spawn env VoiceService.onError c
  | Complete i => complete env i c
  end.

Definition steps (env : Env) (c : Config) (acts : list Action) : Config :=
  fold_left (step env) acts c.

End EventLoop.

(** An environment in which every operation succeeds: the camera delivers
    a frame, the model finds nothing. *)
Definition calm_answer (R : Type) (n : nat) (c : Call R) : Outcome R :=
  match c in Call T return Outcome T with
  | Speech_getAvailableVoicesAsync => Ok 1%nat
  | Speech_stop => Ok tt
  | Speech_speak _ _ => Ok tt
  | Haptics_impactAsync _ => Ok tt
  | Haptics_notificationAsync _ => Ok tt
  | fetch _ _ _ =>
      Ok {| ok := true; status := 200; statusText := "OK";
            body_text := Ok "";
            body_json := Ok (JObj [("choices",
              JArr [JObj [("message",
                JObj [("content", JStr "A quiet room.")])]])]) |}
  | takePictureAsync _ _ => Ok (Some {| base64 := Some "/9j/4AAQ" |})
  | requestPermission => Ok {| Screen.granted := true |}
  | AsyncStorage_getItem _ => Ok None
  | tf_ready => Ok tt
  | tf_loadGraphModel _ => Ok tt
  | tf_warmUp => Ok tt
  | decodeJpeg _ => Ok tt
  | resizeBilinear => Ok tt
  | model_executeAsync => Ok []
  | tensor_mean _ => Ok [Fin 128]
  | tensor_meanRGB _ => Ok [Fin 120; Fin 130; Fin 140]
  | tensor_dispose => Ok tt
  end.

(** A stable insertion sort: what a conforming engine returns for a
    consistent comparator. *)
Fixpoint insertBy {A} (compareFn : A -> A -> num) (x : A) (sorted : list A)
  : list A :=
  match sorted with
  | [] => [x]
  | e :: r =>
      if gt (compareFn x e) (Fin 0) then e :: insertBy compareFn x r
      else x :: e :: r
  end.

Definition stableSort {A} (compareFn : A -> A -> num) (xs : list A) : list A :=
  fold_right (insertBy compareFn) [] xs.

Definition calm_reply (R : Type) (n : nat) (q : Query R) : R :=
  match q in Query T return T with
  | Date_now => (1700000000000 + Z.of_nat n)%Z
  | setTimeout _ => tt
  | Array_sort compareFn xs => stableSort compareFn xs
  end.

Definition calm : Env := {| answer := calm_answer; reply := calm_reply |}.


(* ================================================================== *)
(** ** Narration kinds and the vocabulary of the specification *)
(* ================================================================== *)

(** The narration operations that yield a result with a confidence: the
    three methods of [LLMService] and the direct image analysis of
    [MistralService]. *)
Inductive Narration : Type :=
| SceneDescription (objects : list Scene.SceneObject)
    (sceneType lightingCondition : string) (detectedText : option string)
| NavigationGuidance (targetObject : string)
    (currentObjects : list Scene.SceneObject) (userIntent : string)
| QuestionAnswer (question : string) (sceneContext : Scene.SceneContext)
| ImageAnalysis (imageBase64 mimeType : string).

Definition perform (n : Narration) : Prog LLMService.LLMResponse :=
  match n with
  | SceneDescription objects sceneType lightingCondition detectedText =>
      LLMService.generateSceneDescription
        objects sceneType lightingCondition detectedText
  | NavigationGuidance targetObject currentObjects userIntent =>
      LLMService.generateNavigationGuidance
        targetObject currentObjects userIntent
  | QuestionAnswer question sceneContext =>
      LLMService.answerQuestion question sceneContext
  | ImageAnalysis imageBase64 mimeType =>
      r <- MistralService.analyzeImageWithVision imageBase64 mimeType ;;
      Ret (LLMService.ofMistral r)
  end.

(** The constants the code writes into [confidence], by operation and
    source; [None] where the operation never reports the source. *)
Definition designedConfidence (n : Narration) (s : Source) : option num :=
  match n, s with
  | SceneDescription _ _ _ _, mistral_source => Some (Fin 0.95)
  | SceneDescription _ _ _ _, template_source => Some (Fin 0.85)
  | NavigationGuidance _ _ _, mistral_source => Some (Fin 0.90)
  | NavigationGuidance _ _ _, template_source => Some (Fin 0.80)
  | QuestionAnswer _ _, mistral_source => Some (Fin 0.92)
  | QuestionAnswer _ _, template_source => Some (Fin 0.75)
  | ImageAnalysis _ _, mistral_source => Some (Fin 0.98)
  | _, _ => None
  end.

(** [lo <= c <= hi] *)
Definition within (lo hi : Q) (c : num) : bool :=
  le (Fin lo) c && le c (Fin hi).

(** The specification names two sources, cloud and local.  The cloud
    source is ['mistral']; the local one is the on-device template,
    ['template'] (the code never reports ['local']). *)
Inductive NarrationSource : Type := cloud | local.

Definition narrationSource (s : Source) : NarrationSource :=
  match s with
  | mistral_source => cloud
  | local_source | template_source => local
  end.

(** The postcondition of a cloud request: the constant of the operation,
    and the cloud source. *)
Definition cloudResult (c : num) (r : MistralService.MistralResponse) : Prop :=
  MistralService.confidence r = c /\ MistralService.source r = mistral_source.

(** A result [r] of the narration [n] carries the constant designed for
    its source, within the range of that source. *)
Definition designed (n : Narration) (r : LLMService.LLMResponse) : Prop :=
  exists s,
    LLMService.source r = Some s /\
    designedConfidence n s = Some (LLMService.confidence r) /\
    match narrationSource s with
    | cloud => within 0.90 0.98 (LLMService.confidence r) = true
    | local => within 0.75 0.85 (LLMService.confidence r) = true
    end.

(** [released_at_end p w]: on every way [p] can end when started in state
    [w], the single-flight flag is off at that moment, whatever the
    platform answers and whatever other handlers did to the state while
    [p] was waiting for the platform. *)
Fixpoint released_at_end {A} (p : Prog A) (w : World) : Prop :=
  match p with
  | Ret _ | Throw _ => Screen.st_isProcessing (screen w) = false
  | GetW k => released_at_end (k w) w
  | PutW w' k => released_at_end k w'
  | Ask q k => forall r w', released_at_end (k r) w'
  | Do c k => forall o w', released_at_end (k o) w'
  end.

(** What a handler does when it is called: how it ends, the state it
    leaves and the operations it performs. *)
Definition noop {A} (env : Env) (p : Prog A) (a : A) : Prop :=
  forall w tr, run env p w tr = (Ok a, w, tr).

(** The voice channel with flag [speaking] and queue [queue]. *)
Definition voiceChannel (speaking : bool) (queue : list string) (w : World)
  : World :=
  with_voice (fun v =>
    {| VoiceState.settings := VoiceState.settings v;
       VoiceState.isSpeaking := speaking;
       VoiceState.speechQueue := queue |}) w.

(** [returns p Q]: whenever [p] returns, the value satisfies [Q]. *)
Definition returns {A} (p : Prog A) (Q : A -> Prop) : Prop :=
  forall env w tr a, result_of (run env p w tr) = Ok a -> Q a.

Definition succeeded {A} (o : Outcome A) : bool :=
  match o with
  | Ok _ => true
  | Failed _ => false
  end.

(* ================================================================== *)
(** ** Concrete inputs *)
(* ================================================================== *)

Module Examples.

(** A model output of 101 candidates, in the order boxes, scores, classes.
    Candidate 0 scores exactly 0.5, candidate 1 scores 0.9 and has a
    well-formed box, candidate 2 scores 0.499, candidate 3 scores 0.8 and
    has a box whose corners are swapped; the others score 0. *)
Definition scores101 : Vision.Tensor :=
  {| Vision.shape := [1; 101]%nat;
     Vision.data :=
       Fin 0.5 :: Fin 0.9 :: Fin 0.499 :: Fin 0.8 :: repeat (Fin 0) 97 |}.

Definition boxes101 : Vision.Tensor :=
  {| Vision.shape := [1; 101; 4]%nat;
     Vision.data :=
       [Fin 0.1; Fin 0.1; Fin 0.3; Fin 0.3;
        Fin 0.1; Fin 0.1; Fin 0.2; Fin 0.4;
        Fin 0.2; Fin 0.2; Fin 0.6; Fin 0.6;
        Fin 0.5; Fin 0.5; Fin 0.2; Fin 0.1] ++ repeat (Fin 0) 388 |}.

Definition classes101 : Vision.Tensor :=
  {| Vision.shape := [1; 101]%nat;
     Vision.data :=
       Fin 1 :: Fin 62 :: Fin 63 :: Fin 3 :: repeat (Fin 0) 97 |}.

Definition output101 : list Vision.Tensor := [boxes101; scores101; classes101].

(** A model output of only 50 candidates, the first of score 0.9. *)
Definition scores50 : Vision.Tensor :=
  {| Vision.shape := [1; 50]%nat;
     Vision.data := Fin 0.9 :: repeat (Fin 0) 49 |}.

Definition boxes50 : Vision.Tensor :=
  {| Vision.shape := [1; 50; 4]%nat;
     Vision.data :=
       [Fin 0.1; Fin 0.1; Fin 0.3; Fin 0.3] ++ repeat (Fin 0) 196 |}.

Definition classes50 : Vision.Tensor :=
  {| Vision.shape := [1; 50]%nat;
     Vision.data := Fin 62 :: repeat (Fin 0) 49 |}.

Definition output50 : list Vision.Tensor := [boxes50; scores50; classes50].

Definition chair (c : num) : Scene.SceneObject :=
  {| Scene.label := "chair"; Scene.confidence := c;
     Scene.distance := Some (Fin 1.5) |}.

Definition couch (c : num) : Scene.SceneObject :=
  {| Scene.label := "couch"; Scene.confidence := c;
     Scene.distance := Some (Fin 4) |}.

Definition lamp : Scene.SceneObject :=
  {| Scene.label := "lamp"; Scene.confidence := Fin 0.7;
     Scene.distance := None |}.

Definition rug : Scene.SceneObject :=
  {| Scene.label := "rug"; Scene.confidence := Fin 0.6;
     Scene.distance := Some (Fin 0) |}.

(** Environments that differ from [calm] in one respect. *)
Definition offline_answer (R : Type) (n : nat) (c : Call R) : Outcome R :=
  match c in Call T return Outcome T with
  | fetch _ _ _ => Failed (Error "Network request failed")
  | c' => calm_answer n c'
  end.

Definition offline : Env :=
  {| answer := offline_answer; reply := calm_reply |}.

Definition overloaded_answer (R : Type) (n : nat) (c : Call R) : Outcome R :=
  match c in Call T return Outcome T with
  | fetch _ _ _ =>
      Ok {| ok := false; status := 503; statusText := "Service Unavailable";
            body_text := Ok "try later"; body_json := Ok JNull |}
  | c' => calm_answer n c'
  end.

Definition overloaded : Env :=
  {| answer := overloaded_answer; reply := calm_reply |}.

Definition numb_answer (R : Type) (n : nat) (c : Call R) : Outcome R :=
  match c in Call T return Outcome T with
  | Haptics_impactAsync _ => Failed (Error "Haptics unavailable")
  | c' => calm_answer n c'
  end.

Definition numb : Env := {| answer := numb_answer; reply := calm_reply |}.

Definition blind_answer (R : Type) (n : nat) (c : Call R) : Outcome R :=
  match c in Call T return Outcome T with
  | takePictureAsync _ _ => Failed (Error "Camera is not ready")
  | Speech_stop => Failed (Error "Speech is not available")
  | c' => calm_answer n c'
  end.

(** The capture fails, and so does the announcement of the failure. *)
Definition blind : Env := {| answer := blind_answer; reply := calm_reply |}.

(** States of the services. *)
Definition enhanced : World :=
  with_mistral (fun m =>
    {| MistralState.apiKey := MistralState.apiKey m;
       MistralState.isEnabled := true |}) initialWorld.

Definition muted : World :=
  with_haptic (fun _ => {| HapticState.isEnabled := false |}) initialWorld.

Definition speaking (queue : list string) : World :=
  voiceChannel true queue initialWorld.

Definition granted : option Screen.Permission :=
  Some {| Screen.granted := true |}.

(** The screen after start-up: the camera is attached, the mount effect
    has run to its end (eight operations awaited and completed), the
    interval is registered and the screen has rendered again. *)
Definition started : EventLoop.Config :=
  EventLoop.steps calm EventLoop.initialConfig
    ([EventLoop.AttachCamera; EventLoop.Mount granted]
     ++ repeat (EventLoop.Complete 0) 8 ++ [EventLoop.Commit granted])%list.

Definition attached : World :=
  with_screen (fun s =>
    {| Screen.st_isProcessing := Screen.st_isProcessing s;
       Screen.st_currentMode := Screen.st_currentMode s;
       Screen.cameraRef := true;
       Screen.processingInterval := Screen.processingInterval s |})
    initialWorld.

(** A tap whose cycle has reached the capture, then a render. *)
Definition capturing : EventLoop.Config :=
  EventLoop.steps calm started
    [EventLoop.Tap; EventLoop.Complete 0; EventLoop.Commit granted].


End Examples.

(* ================================================================== *)
(** ** Further vocabulary and inputs *)
(* ================================================================== *)

(** Some object of the list carries one of the labels [names]. *)
Definition labelled (names : list string) (objects : list Vision.DetectedObject)
  : bool :=
  existsb (fun o => array_includes names (Vision.label o)) objects.

(** Mistral is enabled only with a non-empty key. *)
Definition keyed (w : World) : bool :=
  implb (MistralState.isEnabled (mistral w))
        (0 <? String.length (MistralState.apiKey (mistral w)))%nat.

Definition set_mistral (key : string) (enabled : bool) (w : World) : World :=
  with_mistral (fun _ =>
    {| MistralState.apiKey := key; MistralState.isEnabled := enabled |}) w.

(** The requests sent to the cloud among the operations [tr]. *)
Definition is_fetch (e : Event) : bool :=
  match e with
  | Called c => match c with fetch _ _ _ => true | _ => false end
  | Asked _ => false
  end.

Definition requests (tr : list Event) : nat :=
  List.length (filter is_fetch tr).

(** The request [makeRequest] sends for [model] and [messages] in state
    [w]. *)
Definition requestOf (w : World) (model : string) (messages : list Message)
  : Call Response :=
  fetch MistralService.baseUrl
        ("Bearer " ++ MistralState.apiKey (mistral w))%string
        {| rb_model := model; rb_messages := messages;
           rb_temperature := Fin 0.7; rb_max_tokens := 500 |}.

(** The body shared by the four cloud methods of [MistralService], for
    the model, the messages and the confidence of each. *)
Definition cloudRequest (model : string) (messages : list Message)
    (conf : num) : Prog MistralService.MistralResponse :=
  startTime <- ask Date_now ;;
  available <- MistralService.isAvailable ;;
  if negb available then Throw MistralService.unavailable
  else
    try_catch
      (response <- MistralService.makeRequest model messages ;;
       text <- MistralService.completionText response ;;
       now <- ask Date_now ;;
       Ret {| MistralService.text := text;
              MistralService.confidence := conf;
              MistralService.processingTime := now - startTime;
              MistralService.source := mistral_source |})
      (fun error => Throw error).

(** The body shared by the three narration methods of [LLMService], for
    the cloud request and the local result of each. *)
Definition narrate (request : Prog MistralService.MistralResponse)
    (template : Z -> Z -> LLMService.LLMResponse)
  : Prog LLMService.LLMResponse :=
  startTime <- ask Date_now ;;
  try_catch
    (enhanced <- LLMService.tryMistral request ;;
     match enhanced with
     | Some r => Ret r
     | None =>
         now <- ask Date_now ;;
         Ret (template startTime now)
     end)
    (fun error => Throw error).


(** The words [parseCommand] looks for. *)
Definition commandKeywords : list string :=
  ["describe"; "what"; "see"; "read"; "text"; "find"; "where"; "navigate";
   "direction"; "help"; "settings"; "options"].

(** Successive non-priority calls of [speak], one for each text. *)
Definition announceAll (texts : list string) : Prog unit :=
  fold_right (fun t rest => VoiceService.speak t false ;; rest) (Ret tt) texts.

(** The platform calls that speak [texts], in order. *)
Definition utterances (options : VoiceState.VoiceSettings)
    (texts : list string) : list Event :=
  map (fun t => Called (Speech_speak t options)) texts.

(** [always env p Q]: in the environment [env], from every state, [p]
    returns (it does not throw) and leaves a state that satisfies [Q]. *)
Definition always {A} (env : Env) (p : Prog A) (Q : World -> Prop) : Prop :=
  forall w tr,
    succeeded (result_of (run env p w tr)) = true /\
    Q (world_of (run env p w tr)).

(** [a] is placed before [b] by the comparator of [organizeTextForReading],
    and not the other way round. *)
Definition strictlyBefore (a b : OCRService.TextDetection) : bool :=
  OCRService.before a b && negb (OCRService.before b a).

(** The services that [cleanup] disposes of are all released. *)
Definition allDisposed (w : World) : bool :=
  negb (VisionState._isInitialized (vision w)) &&
  negb (VisionState.model (vision w)) &&
  negb (ocr_isInitialized w) && negb (llm_isInitialized w).

Module Samples.

(** The vision service after a successful [initialize]. *)
Definition sighted : World :=
  with_vision (fun _ =>
    {| VisionState.model := true; VisionState._isInitialized := true |})
    Examples.attached.

(** A model output whose box tensor is too short for candidate 1. *)
Definition shortBoxes : Vision.Tensor :=
  {| Vision.shape := [1; 1; 4]%nat;
     Vision.data := [Fin 0.1; Fin 0.1; Fin 0.3; Fin 0.3] |}.

Definition truncated : list Vision.Tensor :=
  [shortBoxes; Examples.scores101; Examples.classes101].

(** A word detected at the position ([x], [y]). *)
Definition word (t : string) (x y : Q) : OCRService.TextDetection :=
  {| OCRService.text := t;
     OCRService.confidence := Fin 0.9;
     OCRService.boundingBox :=
       {| Vision.x := Some (Fin x); Vision.y := Some (Fin y);
          Vision.width := Fin 40; Vision.height := Fin 12 |};
     OCRService.language := None |}.

(** The user refuses the camera permission. *)
Definition refusing_answer (R : Type) (n : nat) (c : Call R) : Outcome R :=
  match c in Call T return Outcome T with
  | requestPermission => Ok {| Screen.granted := false |}
  | c' => calm_answer n c'
  end.

Definition refusing : Env :=
  {| answer := refusing_answer; reply := calm_reply |}.




(** The screen before start-up, while an utterance is being spoken and
    [queue] is waiting. *)
Definition talking (queue : list string) : EventLoop.Config :=
  {| EventLoop.world := Examples.speaking queue;
     EventLoop.rendered := CameraScreen.firstRender None;
     EventLoop.tasks := [];
     EventLoop.trace := [] |}.

End Samples.

(* ================================================================== *)
(** ** Properties of the detector *)
(* ================================================================== *)

Section DetectorFacts.
Import Vision.

Lemma gt_threshold_finite (q : Q) :
  gt (Fin q) confidenceThreshold = true <-> (0.5 < q)%Q.
Proof.
  unfold gt, confidenceThreshold. cbn [JS.compare].
  rewrite Qgt_alt. destruct (q ?= 0.5)%Q; split; congruence.
Qed.

Lemma ge_Fin (a b : Q) : ge (Fin a) (Fin b) = true <-> (b <= a)%Q.
Proof.
  unfold ge. cbn [JS.compare]. rewrite Qge_alt.
  destruct (a ?= b)%Q; split; congruence.
Qed.

Lemma confidence_detection boxes classes i s :
  confidence (detection boxes classes i s) = s.
Proof. reflexivity. Qed.

(** The loop pushes exactly the candidates whose score exceeds the
    threshold. *)
Lemma In_detectLoop boxes classes scores : forall n d,
  In d (detectLoop boxes classes n scores) <->
  exists i s, nth_error scores i = Some s /\
              gt s confidenceThreshold = true /\
              d = detection boxes classes (n + i) s.
Proof.
  induction scores as [|s0 rest IH]; intros n d; cbn [detectLoop].
  - split; [intros [] | intros (i & s & H & _)]. now destruct i.
  - rewrite in_app_iff, IH. split.
    + intros [H | (i & s & Hn & Hg & ->)].
      * destruct (gt s0 confidenceThreshold) eqn:E; [|destruct H].
        destruct H as [<- | []]. exists 0%nat, s0.
        rewrite Nat.add_0_r. auto.
      * exists (S i), s. rewrite Nat.add_succ_r. auto.
    + intros (i & s & Hn & Hg & ->). destruct i as [|i]; cbn in Hn.
      * injection Hn as ->. rewrite Hg, Nat.add_0_r. left. now left.
      * right. exists i, s. rewrite Nat.add_succ_r. auto.
Qed.

Lemma processPredictions_located predictions st bt ct :
  locate predictions = (Some st, Some bt, Some ct) ->
  processPredictions predictions = detectLoop (data bt) (data ct) 0 (data st).
Proof. intros H. unfold processPredictions. now rewrite H. Qed.

End DetectorFacts.

Section DetectorClaims.
Import Vision Examples.

(** C1, as the specification states it, fails: a candidate that scores
    exactly 0.5 satisfies [c >= 0.5] and yet no detection of the output
    carries that score.  (And an output of 50 candidates is not recognised
    as a model output at all: its candidate of score 0.9 is dropped.) *)
Lemma half_score_is_dropped :
  nth_error (data scores101) 0 = Some (Fin 0.5) /\
  ge (Fin 0.5) confidenceThreshold = true /\
  existsb (fun d => strict_eq (confidence d) (Fin 0.5))
          (processPredictions output101) = false /\
  map confidence (processPredictions output101) = [Fin 0.9; Fin 0.8] /\
  nth_error (data scores50) 0 = Some (Fin 0.9) /\
  processPredictions output50 = [].
Proof. vm_compute. repeat split. Qed.

(** C1 (amended): when the model output holds the three tensors, the
    detection of candidate [i], of score [c], is in the result of
    [processPredictions] if and only if [c > 0.5]; for a finite score that
    is the strict inequality on rationals, so that 0.5 and 0.499 are both
    dropped. *)
Theorem detection_kept_iff_above_threshold
    (predictions : list Tensor) (st bt ct : Tensor) (i : nat) (c : num) :
  locate predictions = (Some st, Some bt, Some ct) ->
  nth_error (data st) i = Some c ->
  (In (detection (data bt) (data ct) i c) (processPredictions predictions)
   <-> gt c confidenceThreshold = true) /\
  (forall q : Q, gt (Fin q) confidenceThreshold = true <-> (0.5 < q)%Q) /\
  gt (Fin 0.5) confidenceThreshold = false /\
  gt (Fin 0.499) confidenceThreshold = false.
Proof.
  intros Hloc Hi. rewrite (processPredictions_located Hloc).
  split; [|split; [exact gt_threshold_finite | split; reflexivity]].
  rewrite In_detectLoop. split.
  - intros (j & s & _ & Hg & Heq).
    apply (f_equal confidence) in Heq.
    rewrite !confidence_detection in Heq. now subst.
  - intros Hg. exists i, c. auto.
Qed.

Lemma detection_kept_iff_above_threshold_witness :
  In (detection (data boxes101) (data classes101) 1 (Fin 0.9))
     (processPredictions output101)
  <-> gt (Fin 0.9) confidenceThreshold = true.
Proof.
  exact (proj1 (@detection_kept_iff_above_threshold
                  output101 scores101 boxes101 classes101 1 (Fin 0.9)
                  eq_refl eq_refl)).
Defined.

(** C4, as the specification states it, fails: the box of candidate 3 has
    its corners swapped, and the detection reports a negative width and a
    negative height. *)
Lemma swapped_box_is_not_clamped :
  map (fun d => (width (boundingBox d), height (boundingBox d)))
      (processPredictions output101)
  = [(Fin 0.30, Fin 0.10); (Fin (-0.40), Fin (-0.30))] /\
  lt (Fin (-0.40)) (Fin 0) = true /\
  lt (Fin (-0.30)) (Fin 0) = true.
Proof. vm_compute. repeat split. Qed.

(** C4 (amended): for every raw box [(y1, x1, y2, x2)] of a candidate that
    passes the threshold, the detection is produced without error and its
    bounding box is [x = x1], [y = y1], [width = x2 - x1] and
    [height = y2 - y1], not clamped: the width is non-negative exactly when
    [x1 <= x2], the height exactly when [y1 <= y2]. *)
Theorem boundingBox_is_the_raw_difference
    (predictions : list Tensor) (st bt ct : Tensor) (i : nat) (s : num)
    (y1 x1 y2 x2 : Q) :
  locate predictions = (Some st, Some bt, Some ct) ->
  nth_error (data st) i = Some s ->
  gt s confidenceThreshold = true ->
  nth_error (data bt) (i * 4) = Some (Fin y1) ->
  nth_error (data bt) (i * 4 + 1) = Some (Fin x1) ->
  nth_error (data bt) (i * 4 + 2) = Some (Fin y2) ->
  nth_error (data bt) (i * 4 + 3) = Some (Fin x2) ->
  exists d,
    In d (processPredictions predictions) /\
    confidence d = s /\
    x (boundingBox d) = Some (Fin x1) /\
    y (boundingBox d) = Some (Fin y1) /\
    width (boundingBox d) = Fin (x2 - x1) /\
    height (boundingBox d) = Fin (y2 - y1) /\
    (ge (width (boundingBox d)) (Fin 0) = true <-> (x1 <= x2)%Q) /\
    (ge (height (boundingBox d)) (Fin 0) = true <-> (y1 <= y2)%Q).
Proof.
  intros Hloc Hs Hg Hy1 Hx1 Hy2 Hx2.
  exists (detection (data bt) (data ct) i s).
  rewrite (processPredictions_located Hloc), In_detectLoop.
  split; [exists i, s; auto|].
  unfold detection. cbn [confidence boundingBox x y width height].
  rewrite Hy1, Hx1, Hy2, Hx2. cbn [toNumber sub].
  repeat split; try reflexivity.
  - rewrite ge_Fin. now rewrite (Qle_minus_iff x1 x2).
  - rewrite (Qle_minus_iff x1 x2). now rewrite <- ge_Fin.
  - rewrite ge_Fin. now rewrite (Qle_minus_iff y1 y2).
  - rewrite (Qle_minus_iff y1 y2). now rewrite <- ge_Fin.
Qed.

Lemma boundingBox_is_the_raw_difference_witness :
  exists d,
    In d (processPredictions output101) /\
    confidence d = Fin 0.8 /\
    x (boundingBox d) = Some (Fin 0.5) /\
    y (boundingBox d) = Some (Fin 0.5) /\
    width (boundingBox d) = Fin (0.1 - 0.5) /\
    height (boundingBox d) = Fin (0.2 - 0.5) /\
    (ge (width (boundingBox d)) (Fin 0) = true <-> (0.5 <= 0.1)%Q) /\
    (ge (height (boundingBox d)) (Fin 0) = true <-> (0.5 <= 0.2)%Q).
Proof.
  exact (@boundingBox_is_the_raw_difference
           output101 scores101 boxes101 classes101 3 (Fin 0.8)
           0.5 0.5 0.2 0.1
           eq_refl eq_refl eq_refl eq_refl eq_refl eq_refl eq_refl).
Defined.

(** On a finite height the result is a finite number: exactly 10 when
    [h = 0], and otherwise [(1.7 * 600) / (h * 300)], whose divisor is not
    zero. *)
Lemma estimateDistance_on_finite (h : Q) :
  exists d : Q,
    estimateDistance (Fin h) = Fin d /\
    is_finite (estimateDistance (Fin h)) = true /\
    (((h == 0)%Q /\ d = 10%Q) \/
     (~ (h == 0)%Q /\ ~ (h * 300 == 0)%Q /\ d = (1.7 * 600 / (h * 300))%Q)).
Proof.
  assert (M : ~ (h == 0)%Q -> ~ (h * 300 == 0)%Q).
  { intros N M. apply Qmult_integral in M.
    destruct M as [M | M]; [contradiction | discriminate]. }
  unfold estimateDistance, strict_eq. cbn [JS.compare mul].
  destruct (Qcompare_spec h 0) as [E | E | E].
  - exists 10%Q. repeat split. now left.
  - assert (N : ~ (h == 0)%Q) by (intro N; rewrite N in E; discriminate).
    unfold div. destruct (Qeq_bool (h * 300) 0) eqn:B.
    + apply Qeq_bool_iff in B. now apply M in B.
    + eexists. repeat split. right. repeat split; auto.
  - assert (N : ~ (h == 0)%Q) by (intro N; rewrite N in E; discriminate).
    unfold div. destruct (Qeq_bool (h * 300) 0) eqn:B.
    + apply Qeq_bool_iff in B. now apply M in B.
    + eexists. repeat split. right. repeat split; auto.
Qed.

(** C5, as the specification states it, fails: the height of a box is not
    always a finite number.  When the box tensor is too short for a kept
    candidate the corners are [undefined], the height [y2 - y1] is [NaN],
    and [estimateDistance] answers [NaN]: the detections that
    [processPredictions] returns carry a [NaN] distance. *)
Lemma NaN_height_gives_NaN_distance :
  estimateDistance NaN = NaN /\
  is_finite (estimateDistance NaN) = false /\
  processPredictions Samples.truncated
  = [ {| label := "chair";
         confidence := Fin 0.9;
         boundingBox :=
           {| x := None; y := None; width := NaN; height := NaN |};
         distance := Some NaN |};
      {| label := "car";
         confidence := Fin 0.8;
         boundingBox :=
           {| x := None; y := None; width := NaN; height := NaN |};
         distance := Some NaN |} ].
Proof. vm_compute. repeat split. Qed.

(** C5 (amended): [estimateDistance] never divides by zero.  For a height
    that is 0 it returns exactly the fallback 10.  For a finite height [h]
    that is not 0 it returns [(1.7 * 600) / (h * 300)], which in exact
    arithmetic is the finite number [3.4 / h], of magnitude at most
    [3.4 / b] when [|h| >= b > 0].  For a [NaN] height it returns [NaN], and
    for an infinite height 0. *)
Theorem estimateDistance_by_height (h b : Q) :
  (0 < b)%Q -> (b <= Qabs h)%Q ->
  (exists d : Q,
     estimateDistance (Fin h) = Fin d /\
     ~ (h * 300 == 0)%Q /\
     d = (1.7 * 600 / (h * 300))%Q /\
     (d * h == 3.4)%Q /\
     (Qabs d <= 3.4 / b)%Q) /\
  (forall z : Q, (z == 0)%Q -> estimateDistance (Fin z) = Fin 10) /\
  estimateDistance NaN = NaN /\
  estimateDistance PInf = Fin 0 /\
  estimateDistance NInf = Fin 0.
Proof.
  intros Hb Hh.
  assert (Nz : ~ (h == 0)%Q).
  { intros E. rewrite E in Hh. apply (Qlt_irrefl 0).
    eapply Qlt_le_trans; [exact Hb | exact Hh]. }
  split; [|split; [|repeat split; reflexivity]].
  - destruct (estimateDistance_on_finite h)
      as (d & E & _ & [[Z _] | (_ & N3 & D)]); [contradiction|].
    exists d. split; [exact E|]. split; [exact N3|]. split; [exact D|].
    assert (P : (d * h == 3.4)%Q) by (rewrite D; field; exact Nz).
    split; [exact P|].
    apply Qle_shift_div_l; [exact Hb|].
    apply Qle_trans with (Qabs d * Qabs h)%Q.
    + rewrite (Qmult_comm (Qabs d) b), (Qmult_comm (Qabs d) (Qabs h)).
      apply Qmult_le_compat_r; [exact Hh | apply Qabs_nonneg].
    + rewrite <- Qabs_Qmult, P. discriminate.
  - intros z Z. unfold estimateDistance, strict_eq. cbn [JS.compare].
    apply Qeq_alt in Z. rewrite Z. reflexivity.
Qed.

Lemma estimateDistance_by_height_witness :
  exists d : Q,
    estimateDistance (Fin 0.2) = Fin d /\
    ~ (0.2 * 300 == 0)%Q /\
    d = (1.7 * 600 / (0.2 * 300))%Q /\
    (d * 0.2 == 3.4)%Q /\
    (Qabs d <= 3.4 / 0.1)%Q.
Proof.
  exact (proj1 (@estimateDistance_by_height 0.2 0.1 eq_refl
                  ltac:(discriminate))).
Defined.

End DetectorClaims.

(* ================================================================== *)
(** ** Running programs *)
(* ================================================================== *)

Local Open Scope list_scope.

Section RunFacts.
Variable env : Env.

Lemma run_bind {A B} (p : Prog A) (f : A -> Prog B) : forall w tr,
  run env (bind p f) w tr =
  match run env p w tr with
  | (Ok a, w', tr') => run env (f a) w' tr'
  | (Failed e, w', tr') => (Failed e, w', tr')
  end.
Proof.
  induction p as [a | e | k IH | w0 k IH | R q k IH | R c k IH];
    intros w tr; cbn [bind run]; auto.
Qed.

Lemma run_try_catch {A} (p : Prog A) (h : Err -> Prog A) : forall w tr,
  run env (try_catch p h) w tr =
  match run env p w tr with
  | (Ok a, w', tr') => (Ok a, w', tr')
  | (Failed e, w', tr') => run env (h e) w' tr'
  end.
Proof.
  induction p as [a | e | k IH | w0 k IH | R q k IH | R c k IH];
    intros w tr; cbn [try_catch run]; auto.
Qed.

Lemma run_try_finally {A} (p : Prog A) (f : Prog unit) : forall w tr,
  run env (try_finally p f) w tr =
  match run env p w tr with
  | (o, w', tr') =>
      match run env f w' tr' with
      | (Ok _, w'', tr'') => (o, w'', tr'')
      | (Failed e, w'', tr'') => (Failed e, w'', tr'')
      end
  end.
Proof.
  induction p as [a | e | k IH | w0 k IH | R q k IH | R c k IH];
    intros w tr; cbn [try_finally run]; auto.
  - rewrite run_bind. destruct (run env f w tr) as [[[[]|] ?] ?]; reflexivity.
  - rewrite run_bind. destruct (run env f w tr) as [[[[]|] ?] ?]; reflexivity.
Qed.

(** Rethrowing handlers change nothing. *)
Lemma run_rethrow {A} (p : Prog A) w tr :
  run env (try_catch p (fun error => Throw error)) w tr = run env p w tr.
Proof.
  rewrite run_try_catch. destruct (run env p w tr) as [[[|] ?] ?]; reflexivity.
Qed.

Lemma run_get {B} (f : World -> Prog B) w tr :
  run env (bind get f) w tr = run env (f w) w tr.
Proof. reflexivity. Qed.

Lemma run_modify {B} (g : World -> World) (f : unit -> Prog B) w tr :
  run env (bind (modify g) f) w tr = run env (f tt) (g w) tr.
Proof. reflexivity. Qed.

Lemma run_ask {R B} (q : Query R) (f : R -> Prog B) w tr :
  run env (bind (ask q) f) w tr =
  run env (f (reply env (List.length tr) q)) w (tr ++ [Asked q]).
Proof. reflexivity. Qed.

Lemma run_await {R B} (c : Call R) (f : R -> Prog B) w tr :
  run env (bind (await c) f) w tr =
  match answer env (List.length tr) c with
  | Ok r => run env (f r) w (tr ++ [Called c])
  | Failed e => (Failed e, w, tr ++ [Called c])
  end.
Proof.
  cbn [await bind run]. destruct (answer env (List.length tr) c); reflexivity.
Qed.

End RunFacts.

Section ReturnsFacts.

Lemma returns_ret {A} (a : A) (Q : A -> Prop) : Q a -> returns (Ret a) Q.
Proof. intros H env w tr b E. cbn in E. now injection E as <-. Qed.

Lemma returns_throw {A} (e : Err) (Q : A -> Prop) : returns (Throw e) Q.
Proof. intros env w tr b E. discriminate. Qed.

Lemma returns_bind {A B} (p : Prog A) (f : A -> Prog B) (Q : B -> Prop) :
  (forall a, returns (f a) Q) -> returns (bind p f) Q.
Proof.
  intros H env w tr b. rewrite run_bind.
  destruct (run env p w tr) as [[[a|e] w'] tr'].
  - apply H.
  - discriminate.
Qed.

Lemma returns_try_catch {A} (p : Prog A) (h : Err -> Prog A) (Q : A -> Prop) :
  returns p Q -> (forall e, returns (h e) Q) -> returns (try_catch p h) Q.
Proof.
  intros Hp Hh env w tr b. rewrite run_try_catch.
  destruct (run env p w tr) as [[[a|e] w'] tr'] eqn:E.
  - intros H. apply (Hp env w tr). now rewrite E.
  - apply Hh.
Qed.

Lemma returns_rethrow {A} (p : Prog A) (Q : A -> Prop) :
  returns p Q -> returns (try_catch p (fun error => Throw error)) Q.
Proof.
  intros H. apply returns_try_catch; [exact H | intros e; apply returns_throw].
Qed.

Lemma returns_if {A} (b : bool) (p q : Prog A) (Q : A -> Prop) :
  returns p Q -> returns q Q -> returns (if b then p else q) Q.
Proof. now destruct b. Qed.

Lemma returns_map {A B} (p : Prog A) (g : A -> B) (P : A -> Prop)
    (Q : B -> Prop) :
  returns p P -> (forall a, P a -> Q (g a)) ->
  returns (bind p (fun a => Ret (g a))) Q.
Proof.
  intros Hp Himp env w tr b. rewrite run_bind.
  destruct (run env p w tr) as [[[a|e] w'] tr'] eqn:E; [|discriminate].
  cbn. intros H. injection H as <-. apply Himp, (Hp env w tr). now rewrite E.
Qed.

End ReturnsFacts.

Lemma returns_bind_post {A B} (p : Prog A) (f : A -> Prog B)
    (P : A -> Prop) (Q : B -> Prop) :
  returns p P -> (forall a, P a -> returns (f a) Q) -> returns (bind p f) Q.
Proof.
  intros Hp Hf env w tr b. rewrite run_bind.
  destruct (run env p w tr) as [[[a|e] w'] tr'] eqn:E; [|discriminate].
  apply Hf, (Hp env w tr). now rewrite E.
Qed.

Ltac returns_step :=
  first [ apply returns_ret
        | apply returns_throw
        | apply returns_rethrow
        | apply returns_if
        | apply returns_bind; intros ].

(* ================================================================== *)
(** ** Properties of the narration chain *)
(* ================================================================== *)

Section TemplateClaims.
Import LLMService Examples.
Local Open Scope string_scope.

Lemma string_app_assoc (a b c : string) : (a ++ b) ++ c = a ++ (b ++ c).
Proof. induction a as [|ch a IH]; cbn; [reflexivity | now rewrite IH]. Qed.

Lemma or_default_absent_or_zero (o : Scene.SceneObject) :
  Scene.distance o = None \/
  (exists q, Scene.distance o = Some (Fin q) /\ (q == 0)%Q) ->
  or_default (Scene.distance o) (Fin 10) = Fin 10.
Proof.
  intros [-> | (q & -> & E)]; [reflexivity|].
  unfold or_default, truthy. apply Qeq_bool_iff in E. now rewrite E.
Qed.

(** C10: in the local template description an object whose distance is
    absent, or is exactly 0, counts as 10 meters away: it is listed in the
    "Further away" group and is not in the "Close to you" group. *)
Theorem absent_or_zero_distance_is_far
    (objects : list Scene.SceneObject) (o : Scene.SceneObject)
    (sceneType lightingCondition : string) :
  In o objects ->
  Scene.distance o = None \/
  (exists q, Scene.distance o = Some (Fin q) /\ (q == 0)%Q) ->
  or_default (Scene.distance o) (Fin 10) = Fin 10 /\
  In o (farObjects objects) /\
  ~ In o (closeObjects objects) /\
  In (Scene.label o) (map Scene.label (farObjects objects)) /\
  generateTemplateDescription objects sceneType lightingCondition =
    (let description :=
       "You're in a " ++ sceneType ++ " area with " ++ lightingCondition ++
       " lighting. " in
     let description :=
       if (0 <? List.length (closeObjects objects))%nat then
         description ++ "Close to you: " ++
         join ", " (map Scene.label (closeObjects objects)) ++ ". "
       else description in
     description ++ "Further away: " ++
     join ", " (map Scene.label (farObjects objects)) ++ ".").
Proof.
  intros Hin Hd. pose proof (or_default_absent_or_zero o Hd) as E.
  assert (Hfar : In o (farObjects objects)).
  { apply filter_In. split; [exact Hin | now rewrite E]. }
  split; [exact E|]. split; [exact Hfar|]. split; [|split].
  - intros H. apply filter_In in H. destruct H as [_ H].
    rewrite E in H. discriminate.
  - now apply in_map.
  - unfold generateTemplateDescription.
    destruct objects as [|o0 rest]; [destruct Hin|].
    cbn [List.length Nat.eqb].
    destruct (farObjects (o0 :: rest)) as [|f fs] eqn:F; [destruct Hfar|].
    reflexivity.
Qed.

Lemma absent_or_zero_distance_is_far_witness :
  In lamp (farObjects [chair (Fin 0.9); lamp; rug]) /\
  In rug (farObjects [chair (Fin 0.9); lamp; rug]) /\
  generateTemplateDescription [chair (Fin 0.9); lamp; rug] "indoor" "dim" =
    "You're in a indoor area with dim lighting. Close to you: chair. Further away: lamp, rug.".
Proof.
  pose proof (@absent_or_zero_distance_is_far
                [chair (Fin 0.9); lamp; rug] lamp "indoor" "dim"
                (or_intror (or_introl eq_refl)) (or_introl eq_refl)) as L.
  pose proof (@absent_or_zero_distance_is_far
                [chair (Fin 0.9); lamp; rug] rug "indoor" "dim"
                (or_intror (or_intror (or_introl eq_refl)))
                (or_intror (ex_intro _ 0%Q (conj eq_refl (Qeq_refl 0)))))
    as R.
  split; [exact (proj1 (proj2 L))|]. split; [exact (proj1 (proj2 R))|].
  exact (proj2 (proj2 (proj2 (proj2 L)))).
Defined.

End TemplateClaims.

Section FallbackClaims.
Import LLMService Examples.

Lemma run_tryMistral env (request : Prog MistralService.MistralResponse) w tr :
  run env (tryMistral request) w tr =
  if MistralState.isEnabled (mistral w) then
    match run env request w tr with
    | (Ok r, w', tr') => (Ok (Some (ofMistral r)), w', tr')
    | (Failed _, w', tr') => (Ok None, w', tr')
    end
  else (Ok None, w, tr).
Proof.
  unfold tryMistral, MistralService.isAvailable.
  rewrite run_bind. cbn [run bind get].
  destruct (MistralState.isEnabled (mistral w)); [|reflexivity].
  rewrite run_try_catch, run_bind.
  destruct (run env request w tr) as [[[r|e] w'] tr']; reflexivity.
Qed.

(** The result of the local branch of [generateSceneDescription], entered
    in state [w] after the operations [tr], for a start time [startTime]. *)
Lemma run_generateSceneDescription env objects sceneType lightingCondition
    detectedText w tr :
  run env (generateSceneDescription objects sceneType lightingCondition
             detectedText) w tr =
  let startTime := reply env (List.length tr) Date_now in
  let template w' tr' :=
    (Ok {| text := generateTemplateDescription objects sceneType
                     lightingCondition;
           confidence := Fin 0.85;
           processingTime :=
             (reply env (List.length tr') Date_now - startTime)%Z;
           source := Some template_source |},
     w', tr' ++ [Asked Date_now]) in
  if MistralState.isEnabled (mistral w) then
    match run env (MistralService.generateEnhancedDescription objects
                     sceneType lightingCondition detectedText)
              w (tr ++ [Asked Date_now]) with
    | (Ok r, w', tr') => (Ok (ofMistral r), w', tr')
    | (Failed _, w', tr') => template w' tr'
    end
  else template w (tr ++ [Asked Date_now]).
Proof.
  unfold generateSceneDescription.
  rewrite run_ask, run_rethrow, run_bind, run_tryMistral.
  destruct (MistralState.isEnabled (mistral w)); [|reflexivity].
  destruct (run env _ w (tr ++ [Asked Date_now])) as [[[r|e] w'] tr'];
    reflexivity.
Qed.

(** [generateSceneDescription] returns in every environment. *)
Lemma generateSceneDescription_never_throws env objects sceneType
    lightingCondition detectedText w tr :
  exists r,
    result_of (run env (generateSceneDescription objects sceneType
                          lightingCondition detectedText) w tr) = Ok r.
Proof.
  rewrite run_generateSceneDescription. cbv zeta.
  destruct (MistralState.isEnabled (mistral w)).
  - destruct (run env _ w (tr ++ [Asked Date_now])) as [[[r|e'] w'] tr'];
      eexists; reflexivity.
  - eexists. reflexivity.
Qed.

(** The failures of the cloud call: the request is rejected (network
    error), the response is not a 2xx, its body is not JSON, or the JSON
    holds no completion text.  Each makes
    [MistralService.generateEnhancedDescription] throw. *)
Lemma cloud_failures_fail_the_call env w tr objects sceneType lightingCondition
    detectedText :
  MistralState.isEnabled (mistral w) = true ->
  match
    answer env (S (List.length tr))
      (fetch MistralService.baseUrl
         ("Bearer " ++ MistralState.apiKey (mistral w))%string
         {| rb_model := "mistral-small-latest";
            rb_messages :=
              [{| role := "user";
                  content := ContentText
                    (MistralService.buildEnhancedPrompt objects sceneType
                       lightingCondition detectedText) |}];
            rb_temperature := Fin 0.7;
            rb_max_tokens := 500 |})
  with
  | Failed _ => True
  | Ok response =>
      ok response = false \/
      (exists e, body_json response = Failed e) \/
      (exists j, body_json response = Ok j /\
         forall w' tr', exists e,
           result_of (run env (MistralService.completionText j) w' tr')
           = Failed e)
  end ->
  exists e,
    result_of (run env (MistralService.generateEnhancedDescription objects
                          sceneType lightingCondition detectedText) w tr)
    = Failed e.
Proof.
  intros Hen H.
  unfold MistralService.generateEnhancedDescription.
  rewrite run_ask. unfold MistralService.isAvailable.
  rewrite run_bind. cbn [run bind get]. rewrite Hen. cbn [negb].
  rewrite run_rethrow, run_bind. unfold MistralService.makeRequest.
  rewrite run_get, run_await.
  rewrite length_app, Nat.add_1_r. cbn [List.length].
  destruct (answer env (S (List.length tr)) _) as [response|e].
  - destruct (ok response) eqn:Hok; cbn [negb].
    + destruct (body_json response) as [j|e] eqn:Hj.
      * cbn [run]. destruct H as [H | [(e & H) | (j' & Hj' & H)]];
          try discriminate.
        injection Hj' as <-. rewrite run_bind.
        match goal with
        | |- context [run env (MistralService.completionText j) ?a ?b] =>
            destruct (H a b) as (e & He);
            destruct (run env (MistralService.completionText j) a b)
              as [[[t|e'] w'] tr']
        end.
        -- discriminate.
        -- eexists. reflexivity.
      * eexists. reflexivity.
    + destruct (body_text response); eexists; reflexivity.
  - eexists. reflexivity.
Qed.

(** C2: if the cloud provider is disabled, or its call fails, then
    [generateSceneDescription] returns (it does not throw) a result whose
    source is the local template, with the template text; for the objects
    chair at 1.5 m and couch at 4 m that text lists "chair" under "Close to
    you" and "couch" under "Further away". *)
Theorem generateSceneDescription_falls_back
    (env : Env) (w : World) (tr : list Event)
    (objects : list Scene.SceneObject)
    (sceneType lightingCondition : string) (detectedText : option string)
    (c1 c2 : num) :
  MistralState.isEnabled (mistral w) = false \/
  (exists e,
     result_of (run env (MistralService.generateEnhancedDescription objects
                           sceneType lightingCondition detectedText)
                    w (tr ++ [Asked Date_now])) = Failed e) ->
  (exists r,
     result_of (run env (generateSceneDescription objects sceneType
                           lightingCondition detectedText) w tr) = Ok r /\
     source r = Some template_source /\
     option_map narrationSource (source r) = Some local /\
     text r = generateTemplateDescription objects sceneType lightingCondition)
  /\
  generateTemplateDescription [chair c1; couch c2] sceneType lightingCondition
  = ("You're in a " ++ sceneType ++ " area with " ++ lightingCondition ++
     " lighting. Close to you: chair. Further away: couch.")%string.
Proof.
  intros H. split.
  - rewrite run_generateSceneDescription. cbv zeta.
    destruct H as [H | (e & H)].
    + rewrite H. eexists. cbn. repeat split.
    + destruct (MistralState.isEnabled (mistral w)).
      * destruct (run env _ w (tr ++ [Asked Date_now])) as [[[r|e'] w'] tr'].
        -- discriminate.
        -- eexists. cbn. repeat split.
      * eexists. cbn. repeat split.
  - unfold generateTemplateDescription. cbn.
    repeat (rewrite !string_app_assoc; cbn). reflexivity.
Qed.

Lemma generateSceneDescription_falls_back_witness :
  (exists r,
     result_of (run overloaded
                  (generateSceneDescription
                     [chair (Fin 0.9); couch (Fin 0.8)] "indoor" "moderate"
                     None) enhanced []) = Ok r /\
     source r = Some template_source /\
     option_map narrationSource (source r) = Some local /\
     text r =
       generateTemplateDescription [chair (Fin 0.9); couch (Fin 0.8)]
         "indoor" "moderate") /\
  generateTemplateDescription [chair (Fin 0.9); couch (Fin 0.8)]
    "indoor" "moderate"
  = "You're in a indoor area with moderate lighting. Close to you: chair. Further away: couch."%string.
Proof.
  exact (@generateSceneDescription_falls_back
           overloaded enhanced [] [chair (Fin 0.9); couch (Fin 0.8)]
           "indoor" "moderate" None (Fin 0.9) (Fin 0.8)
           (or_intror (ex_intro _ _ eq_refl))).
Defined.

(** Without a network the cloud is asked once, and the template answers. *)
Example offline_description_is_local :
  run offline
    (generateSceneDescription [chair (Fin 0.9); couch (Fin 0.8)]
       "indoor" "moderate" None) enhanced []
  = (Ok {| text := "You're in a indoor area with moderate lighting. Close to you: chair. Further away: couch.";
           confidence := Fin 0.85;
           processingTime := 3;
           source := Some template_source |},
     enhanced,
     [Asked Date_now; Asked Date_now;
      Called (fetch MistralService.baseUrl
                "Bearer TvkpxVoYWB8A2CVJbyR9KQ0gUtW0wOGd"
                {| rb_model := "mistral-small-latest";
                   rb_messages :=
                     [{| role := "user";
                         content := ContentText
                           (MistralService.buildEnhancedPrompt
                              [chair (Fin 0.9); couch (Fin 0.8)]
                              "indoor" "moderate" None) |}];
                   rb_temperature := Fin 0.7;
                   rb_max_tokens := 500 |});
      Asked Date_now]).
Proof. vm_compute. reflexivity. Qed.

End FallbackClaims.

Section ConfidenceClaims.
Import Examples.

(** C8, as the specification states it, fails: navigation guidance that
    comes from the cloud reports confidence 0.90, below 0.95 (and a cloud
    answer to a question reports 0.92). *)
Lemma cloud_navigation_confidence_below_095 :
  exists r,
    result_of (run calm
                 (perform (NavigationGuidance "door" [chair (Fin 0.9)]
                             "find the door")) enhanced []) = Ok r /\
    LLMService.source r = Some mistral_source /\
    LLMService.confidence r = Fin 0.90 /\
    within 0.95 0.98 (LLMService.confidence r) = false.
Proof. eexists. vm_compute. repeat split. Qed.

Lemma generateEnhancedDescription_returns o s l t :
  returns (MistralService.generateEnhancedDescription o s l t)
          (cloudResult (Fin 0.95)).
Proof.
  unfold MistralService.generateEnhancedDescription.
  repeat returns_step. split; reflexivity.
Qed.

Lemma generateNavigationGuidance_returns t o u :
  returns (MistralService.generateNavigationGuidance t o u)
          (cloudResult (Fin 0.90)).
Proof.
  unfold MistralService.generateNavigationGuidance.
  repeat returns_step. split; reflexivity.
Qed.

Lemma answerQuestion_returns q c :
  returns (MistralService.answerQuestion q c) (cloudResult (Fin 0.92)).
Proof.
  unfold MistralService.answerQuestion.
  repeat returns_step. split; reflexivity.
Qed.

Lemma analyzeImageWithVision_returns b m :
  returns (MistralService.analyzeImageWithVision b m) (cloudResult (Fin 0.98)).
Proof.
  unfold MistralService.analyzeImageWithVision.
  repeat returns_step. split; reflexivity.
Qed.

Lemma tryMistral_returns (request : Prog MistralService.MistralResponse) c :
  returns request (cloudResult c) ->
  returns (LLMService.tryMistral request)
    (fun o => forall r, o = Some r ->
       LLMService.confidence r = c /\
       LLMService.source r = Some mistral_source).
Proof.
  intros H. unfold LLMService.tryMistral.
  apply returns_bind. intros available. apply returns_if.
  - apply returns_try_catch.
    + apply returns_map with (P := cloudResult c); [exact H|].
      intros a [Hc Hs] r E. injection E as <-. cbn. now rewrite Hc, Hs.
    + intros e. apply returns_ret. discriminate.
  - apply returns_ret. discriminate.
Qed.

Lemma perform_returns (n : Narration) : returns (perform n) (designed n).
Proof.
  destruct n as [o s l t | t o u | q c | b m]; cbn [perform].
  - unfold LLMService.generateSceneDescription.
    apply returns_bind. intros startTime. apply returns_rethrow.
    eapply returns_bind_post;
      [exact (tryMistral_returns (generateEnhancedDescription_returns o s l t))|].
    intros [r|] H.
    + destruct (H r eq_refl) as [Hc Hs]. apply returns_ret.
      exists mistral_source. rewrite Hc, Hs. repeat split.
    + repeat returns_step. exists template_source. repeat split.
  - unfold LLMService.generateNavigationGuidance.
    apply returns_bind. intros startTime. apply returns_rethrow.
    eapply returns_bind_post;
      [exact (tryMistral_returns (generateNavigationGuidance_returns t o u))|].
    intros [r|] H.
    + destruct (H r eq_refl) as [Hc Hs]. apply returns_ret.
      exists mistral_source. rewrite Hc, Hs. repeat split.
    + repeat returns_step. exists template_source. repeat split.
  - unfold LLMService.answerQuestion.
    apply returns_bind. intros startTime. apply returns_rethrow.
    eapply returns_bind_post;
      [exact (tryMistral_returns (answerQuestion_returns q c))|].
    intros [r|] H.
    + destruct (H r eq_refl) as [Hc Hs]. apply returns_ret.
      exists mistral_source. rewrite Hc, Hs. repeat split.
    + repeat returns_step. exists template_source. repeat split.
  - apply returns_map with (P := cloudResult (Fin 0.98));
      [apply analyzeImageWithVision_returns|].
    intros a [Hc Hs]. exists mistral_source. cbn. rewrite Hc, Hs.
    repeat split.
Qed.

(** C8 (amended): the confidence of every successful narration result is a
    constant fixed by the operation and the source, never computed from
    model output: 0.95, 0.90, 0.92 and 0.98 for the cloud (scene
    description, navigation guidance, question answering, image analysis),
    hence within [0.90, 0.98]; 0.85, 0.80 and 0.75 for the local template,
    hence within [0.75, 0.85]. *)
Theorem confidence_is_designed
    (env : Env) (w : World) (tr : list Event) (n : Narration)
    (r : LLMService.LLMResponse) :
  result_of (run env (perform n) w tr) = Ok r ->
  exists s,
    LLMService.source r = Some s /\
    designedConfidence n s = Some (LLMService.confidence r) /\
    match narrationSource s with
    | cloud => within 0.90 0.98 (LLMService.confidence r) = true
    | local => within 0.75 0.85 (LLMService.confidence r) = true
    end.
Proof. exact (@perform_returns n env w tr r). Qed.

Lemma confidence_is_designed_witness :
  exists r,
    result_of (run calm (perform (QuestionAnswer "where am I"
                 {| Scene.objects := [chair (Fin 0.9)];
                    Scene.text := None;
                    Scene.sceneType := "indoor";
                    Scene.lightingCondition := "dim" |})) enhanced []) = Ok r /\
    exists s,
      LLMService.source r = Some s /\
      designedConfidence (QuestionAnswer "where am I"
                 {| Scene.objects := [chair (Fin 0.9)];
                    Scene.text := None;
                    Scene.sceneType := "indoor";
                    Scene.lightingCondition := "dim" |}) s
        = Some (LLMService.confidence r) /\
      match narrationSource s with
      | cloud => within 0.90 0.98 (LLMService.confidence r) = true
      | local => within 0.75 0.85 (LLMService.confidence r) = true
      end.
Proof.
  eexists. split; [vm_compute; reflexivity|].
  apply (@confidence_is_designed calm enhanced []). vm_compute. reflexivity.
Defined.

End ConfidenceClaims.

(* ================================================================== *)
(** ** Properties of the output channels *)
(* ================================================================== *)

Section VoiceClaims.
Import VoiceService VoiceState Examples.

(** C6, as the specification states it, fails, in three ways.
    (1) [speak C true] awaits the stop before it clears the queue: when the
    ongoing utterance completes while the stop is pending, the queued [A]
    is spoken, and [C] only after it.
    (2) When the platform rejects the stop, [speak C true] throws: [C] is
    not spoken and [A] stays queued.
    (3) An empty string can be queued while something is speaking, and
    when the utterance completes it is removed from the queue but nothing
    is spoken; the channel goes idle although an entry is still queued. *)
Lemma priority_speech_can_be_overtaken :
  (let c1 := EventLoop.spawn calm (speak "C" true) (Samples.talking ["A"]) in
   let c2 := EventLoop.step calm c1 EventLoop.SpeechDone in
   let c3 := EventLoop.complete calm 0 c2 in
   EventLoop.pending c1 = [Called Speech_stop] /\
   EventLoop.trace c3
   = [Called Speech_stop;
      Called (Speech_speak "A" (settings init));
      Called (Speech_speak "C" (settings init))]) /\
  (let c1 := EventLoop.spawn blind (speak "C" true) (Samples.talking ["A"]) in
   let c2 := EventLoop.complete blind 0 c1 in
   EventLoop.pending c1 = [Called Speech_stop] /\
   EventLoop.pending c2 = [] /\
   EventLoop.world c2 = speaking ["A"] /\
   EventLoop.trace c2 = [Called Speech_stop] /\
   run blind (speak "C" true) (speaking ["A"]) []
   = (Failed (Error "Speech is not available"), speaking ["A"],
      [Called Speech_stop])) /\
  run calm (speak "" false) (speaking []) [] = (Ok tt, speaking [""], []) /\
  run calm (speak "next" false) (speaking [""]) []
    = (Ok tt, speaking [""; "next"], []) /\
  run calm onDone (speaking [""; "next"]) []
    = (Ok tt, voiceChannel false ["next"] initialWorld, []).
Proof. vm_compute. repeat split. Qed.

Lemma nth_error_last {A} (xs : list A) (x : A) :
  nth_error (xs ++ [x]) (List.length xs) = Some x.
Proof. induction xs as [|a r IH]; [reflexivity | exact IH]. Qed.

(** C6 (amended): in every state of the screen in which something is
    speaking, whatever other handlers are suspended,
    (1) [speak C true] asks the platform at once to stop the ongoing
    utterance, and changes nothing else before the platform has done so;
    when the stop has succeeded, at whatever state the suspended call is
    resumed, it discards the queue as it then is and speaks [C] at once;
    (2) a non-priority [speak text] appends [text] to the queue and speaks
    nothing;
    (3) when the current utterance completes, the next queue entry is
    removed from the queue and, if it is a non-empty string, spoken. *)
Theorem speak_preempts_queues_and_drains
    (env : Env) (c : EventLoop.Config) (C text : string) :
  isSpeaking (voice (EventLoop.world c)) = true ->
  let queue := speechQueue (voice (EventLoop.world c)) in
  let options := settings (voice (EventLoop.world c)) in
  let at_world (w : World) (tr : list Event) : EventLoop.Config :=
    {| EventLoop.world := w; EventLoop.rendered := EventLoop.rendered c;
       EventLoop.tasks := EventLoop.tasks c; EventLoop.trace := tr |} in
  let stopping := EventLoop.spawn env (speak C true) c in
  (EventLoop.world stopping = EventLoop.world c /\
   EventLoop.trace stopping = EventLoop.trace c ++ [Called Speech_stop] /\
   EventLoop.pending stopping = EventLoop.pending c ++ [Called Speech_stop]) /\
  (answer env (List.length (EventLoop.trace c)) Speech_stop = Ok tt ->
   forall (c' : EventLoop.Config) (i : nat),
     nth_error (EventLoop.tasks c') i
     = nth_error (EventLoop.tasks stopping) (List.length (EventLoop.tasks c)) ->
     let w' := EventLoop.world c' in
     let spoken := Speech_speak C (settings (voice w')) in
     EventLoop.complete env i c'
     = {| EventLoop.world :=
            voiceChannel
              (succeeded
                 (answer env (List.length (EventLoop.trace c')) spoken))
              [] w';
          EventLoop.rendered := EventLoop.rendered c';
          EventLoop.tasks :=
            firstn i (EventLoop.tasks c') ++ skipn (S i) (EventLoop.tasks c');
          EventLoop.trace := EventLoop.trace c' ++ [Called spoken] |}) /\
  EventLoop.spawn env (speak text false) c
    = at_world (voiceChannel true (queue ++ [text]) (EventLoop.world c))
               (EventLoop.trace c) /\
  EventLoop.step env
      (at_world (voiceChannel true (queue ++ [text]) (EventLoop.world c))
                (EventLoop.trace c))
      EventLoop.SpeechDone =
    (let next := hd text queue in
     let rest := tl (queue ++ [text]) in
     if string_truthy next then
       at_world
         (voiceChannel
            (succeeded
               (answer env (List.length (EventLoop.trace c))
                  (Speech_speak next options)))
            rest (EventLoop.world c))
         (EventLoop.trace c ++ [Called (Speech_speak next options)])
     else
       at_world (voiceChannel false rest (EventLoop.world c))
                (EventLoop.trace c)).
Proof.
  destruct c as [[[st sp q] h m v o l s] rd ts tr].
  cbn [EventLoop.world EventLoop.trace EventLoop.tasks EventLoop.rendered
       voice isSpeaking speechQueue settings].
  intros ->. cbv zeta. split; [|split; [|split]].
  - unfold EventLoop.spawn, EventLoop.pending. cbn.
    rewrite map_app. repeat split.
  - intros Hstop c' i Hi.
    unfold EventLoop.spawn in Hi. cbn in Hi.
    rewrite nth_error_last, Hstop in Hi.
    unfold EventLoop.complete. rewrite Hi.
    destruct c' as [[[st' sp' q'] h' m' v' o' l' s'] rd' ts' tr'].
    cbn.
    destruct (answer env (List.length tr') (Speech_speak C st')) as [[]|e];
      reflexivity.
  - unfold EventLoop.spawn. cbn. rewrite app_nil_r. reflexivity.
  - unfold EventLoop.step, EventLoop.spawn, onDone, detached, processQueue.
    cbn.
    destruct q as [|a q']; cbn.
    + destruct text as [|ch t]; cbn; [rewrite app_nil_r; reflexivity|].
      destruct (answer env (List.length tr) _) as [[]|e]; cbn;
        rewrite app_nil_r; reflexivity.
    + destruct a as [|ch t]; cbn; [rewrite app_nil_r; reflexivity|].
      destruct (answer env (List.length tr) _) as [[]|e]; cbn;
        rewrite app_nil_r; reflexivity.
Qed.

Lemma speak_preempts_queues_and_drains_witness :
  EventLoop.complete calm 0
    (EventLoop.spawn calm (speak "C" true) (Samples.talking ["A"]))
  = {| EventLoop.world := speaking [];
       EventLoop.rendered := CameraScreen.firstRender None;
       EventLoop.tasks := [];
       EventLoop.trace :=
         [Called Speech_stop; Called (Speech_speak "C" (settings init))] |} /\
  EventLoop.spawn calm (speak "D" false) (Samples.talking ["A"])
  = Samples.talking ["A"; "D"] /\
  EventLoop.trace
    (EventLoop.step calm (Samples.talking ["A"; "D"]) EventLoop.SpeechDone)
  = [Called (Speech_speak "A" (settings init))].
Proof.
  pose proof (@speak_preempts_queues_and_drains
                calm (Samples.talking ["A"]) "C" "D" eq_refl) as H.
  cbv zeta in H. destruct H as (_ & H1 & H2 & H3).
  split; [|split].
  - exact (H1 eq_refl
             (EventLoop.spawn calm (speak "C" true) (Samples.talking ["A"]))
             0%nat eq_refl).
  - exact H2.
  - exact (f_equal EventLoop.trace H3).
Defined.

End VoiceClaims.

Section HapticClaims.
Import HapticService HapticState Examples.

(** C9, as the specification states it, fails: with haptics disabled the
    trigger returns at once and no pulse is executed; and when the platform
    rejects the first pulse the failure is caught and the two other pulses
    are not attempted. *)
Lemma warning_without_three_pulses :
  isEnabled (haptic muted) = false /\
  run calm (trigger warning) muted [] = (Ok tt, muted, []) /\
  run numb (trigger warning) initialWorld []
    = (Ok tt, initialWorld, [Called (Haptics_impactAsync Medium)]).
Proof. vm_compute. repeat split. Qed.

Ltac answers :=
  repeat match goal with
         | |- context [answer ?e ?n ?c] =>
             let o := fresh "o" in
             destruct (answer e n c) as [[]|o]; cbn
         end.

(** The trigger never throws and leaves the state of the services as it
    was, whatever the platform does. *)
Lemma trigger_is_caught env pattern w tr :
  result_of (run env (trigger pattern) w tr) = Ok tt /\
  world_of (run env (trigger pattern) w tr) = w.
Proof.
  unfold trigger. rewrite run_get.
  destruct (isEnabled (haptic w)); cbn [negb]; [|split; reflexivity].
  destruct pattern; cbn; answers; split; reflexivity.
Qed.

(** C9 (amended): when haptics are enabled and the platform performs the
    pulses, [trigger warning] executes exactly 3 medium pulses, each
    followed by the 150 ms delay, whatever the state of the voice channel;
    when haptics are disabled it executes nothing; and a failure of the
    platform is caught, never propagated. *)
Theorem warning_is_three_pulses
    (env : Env) (w : World) (tr : list Event) (v : VoiceState.t) :
  (forall n, answer env n (Haptics_impactAsync Medium) = Ok tt) ->
  let pulses :=
    [Called (Haptics_impactAsync Medium); Asked (setTimeout 150);
     Called (Haptics_impactAsync Medium); Asked (setTimeout 150);
     Called (Haptics_impactAsync Medium); Asked (setTimeout 150)] in
  let performed := if isEnabled (haptic w) then tr ++ pulses else tr in
  run env (trigger warning) w tr = (Ok tt, w, performed) /\
  run env (trigger warning) (with_voice (fun _ => v) w) tr
    = (Ok tt, with_voice (fun _ => v) w, performed) /\
  (forall env',
     result_of (run env' (trigger warning) w tr) = Ok tt /\
     world_of (run env' (trigger warning) w tr) = w).
Proof.
  intros Hok. cbv zeta. split; [|split].
  - unfold trigger. rewrite run_get.
    destruct (isEnabled (haptic w)); cbn [negb]; [|reflexivity].
    cbn. rewrite !Hok. cbn. rewrite !Hok. cbn. rewrite !Hok. cbn.
    rewrite <- !app_assoc. reflexivity.
  - unfold trigger. rewrite run_get. cbn [haptic with_voice].
    destruct (isEnabled (haptic w)); cbn [negb]; [|reflexivity].
    cbn. rewrite !Hok. cbn. rewrite !Hok. cbn. rewrite !Hok. cbn.
    rewrite <- !app_assoc. reflexivity.
  - intros env'. apply trigger_is_caught.
Qed.

Lemma warning_is_three_pulses_witness :
  run calm (trigger warning) initialWorld []
    = (Ok tt, initialWorld,
       [Called (Haptics_impactAsync Medium); Asked (setTimeout 150);
        Called (Haptics_impactAsync Medium); Asked (setTimeout 150);
        Called (Haptics_impactAsync Medium); Asked (setTimeout 150)]) /\
  run calm (trigger warning) (speaking ["A"]) []
    = (Ok tt, speaking ["A"],
       [Called (Haptics_impactAsync Medium); Asked (setTimeout 150);
        Called (Haptics_impactAsync Medium); Asked (setTimeout 150);
        Called (Haptics_impactAsync Medium); Asked (setTimeout 150)]).
Proof.
  pose proof (@warning_is_three_pulses calm initialWorld []
                (voice (speaking ["A"])) (fun n => eq_refl)) as H.
  split; [exact (proj1 H) | exact (proj1 (proj2 H))].
Defined.

End HapticClaims.

(* ================================================================== *)
(** ** Properties of the capture cycle *)
(* ================================================================== *)

Section CycleClaims.
Import CameraScreen Screen EventLoop Examples.

Lemma released_after_finally {A} (p : Prog A) : forall w,
  released_at_end (try_finally p (setIsProcessing false)) w.
Proof.
  induction p as [a | e | k IH | w0 k IH | R q k IH | R c k IH];
    intros w; cbn; auto.
Qed.

(** What [released_at_end] means for a run to completion. *)
Lemma released_at_end_run {A} env (p : Prog A) : forall w tr,
  released_at_end p w ->
  st_isProcessing (screen (world_of (run env p w tr))) = false.
Proof.
  induction p as [a | e | k IH | w0 k IH | R q k IH | R c k IH];
    intros w tr H; cbn in *; auto.
Qed.

(** What it means in the event loop: a handler that finishes leaves the
    flag off, and one that is suspended still releases it at its end. *)
Lemma released_at_end_advance {A} env (p : Prog A) : forall w tr,
  released_at_end p w ->
  match advance env p w tr with
  | (Finished _, w', _) => st_isProcessing (screen w') = false
  | (Suspended _ rest, _, _) => forall w', released_at_end rest w'
  end.
Proof.
  induction p as [a | e | k IH | w0 k IH | R q k IH | R c k IH];
    intros w tr H; cbn [advance released_at_end] in *.
  - exact H.
  - exact H.
  - apply IH, H.
  - apply IH, H.
  - destruct (suspendsQ _); [intros w'; apply H | apply IH, H].
  - destruct (suspends _); [intros w'; apply H | apply IH, H].
Qed.

(** C7: on every exit path of a capture cycle, whether it completes or
    fails at the capture, at the inference or anywhere else, including in
    the handler of the failure, the single-flight flag is set back to
    [false]; the next render reads [false], so the cycle of its closure is
    not refused. *)
Theorem guard_released_on_every_exit
    (env : Env) (w : World) (tr : list Event) (r : Render)
    (speakResult : bool) (perm : option Permission) :
  cameraRef (screen w) = true ->
  isProcessing r = false ->
  let after := world_of (run env (analyzeCurrentFrame r speakResult) w tr) in
  st_isProcessing (screen after) = false /\
  isProcessing (render perm (screen after)) = false /\
  released_at_end (analyzeCurrentFrame r speakResult) w /\
  st_isProcessing
    (screen (snd (fst (advance env (analyzeCurrentFrame r speakResult) w tr))))
  = true.
Proof.
  intros Hcam Hr. cbv zeta.
  assert (Rel : released_at_end (analyzeCurrentFrame r speakResult) w).
  { unfold analyzeCurrentFrame. cbn [bind get released_at_end].
    rewrite Hcam, Hr. cbn [negb orb].
    unfold setIsProcessing at 1. cbn [bind modify released_at_end].
    apply released_after_finally. }
  pose proof (released_at_end_run env _ w tr Rel) as E.
  split; [exact E|]. split; [exact E|]. split; [exact Rel|].
  unfold analyzeCurrentFrame. cbn [bind get advance].
  rewrite Hcam, Hr. cbn [negb orb].
  unfold setIsProcessing at 1. cbn [bind modify advance].
  reflexivity.
Qed.

Lemma guard_released_on_every_exit_witness :
  result_of (run blind (analyzeCurrentFrame (firstRender granted) true)
               attached [])
    = Failed (Error "Speech is not available") /\
  st_isProcessing
    (screen (world_of (run blind (analyzeCurrentFrame (firstRender granted) true)
                         attached []))) = false.
Proof.
  split; [vm_compute; reflexivity|].
  exact (proj1 (@guard_released_on_every_exit
                  blind attached [] (firstRender granted) true granted
                  eq_refl eq_refl)).
Defined.

(** A call whose closure reads the flag as set does nothing: no cycle, no
    error, nothing queued. *)
Lemma analyzeCurrentFrame_refused env r speakResult :
  isProcessing r = true -> noop env (analyzeCurrentFrame r speakResult) tt.
Proof.
  intros H w tr. unfold analyzeCurrentFrame. cbn [bind get run].
  rewrite H, orb_true_r. reflexivity.
Qed.

(** The interval callback is the closure of the first render, in which
    [isProcessing] is [false] and [currentMode] is [scene]: whenever the
    camera is attached it starts a capture, whether or not the flag is set
    in the state of the screen. *)
Lemma interval_callback_ignores_the_flag env perm w tr :
  cameraRef (screen w) = true ->
  exists rest w',
    advance env (intervalCallback (firstRender perm)) w tr
    = (Suspended (Called (takePictureAsync (Fin 0.5) true)) rest, w',
       tr ++ [Called (takePictureAsync (Fin 0.5) true)]) /\
    st_isProcessing (screen w') = true.
Proof.
  intros Hcam. unfold intervalCallback, firstRender.
  cbn [isProcessing currentMode negb mode_eqb andb].
  unfold analyzeCurrentFrame. cbn [bind get advance isProcessing].
  rewrite Hcam. cbn [negb orb].
  unfold setIsProcessing at 1. cbn [bind modify advance].
  cbn [try_finally try_catch bind await advance currentMode suspends].
  eexists. eexists. split; reflexivity.
Qed.

(** C3, evaluated on the code.  A tap starts a cycle, which sets the flag
    and waits for the camera; the screen renders again and reads the flag
    as set.  The interval callback is the closure of the first render: it
    reads [isProcessing = false], and a tick starts a second cycle while
    the first one is still waiting.  A second tap, through the closure of
    the new render, is refused.  Two taps that are both handled by the
    closure of one render start two cycles as well, also on a screen whose
    permission was still unknown at the first render (no interval). *)
Theorem tick_starts_a_second_cycle :
  st_isProcessing (screen (world capturing)) = true /\
  isProcessing (rendered capturing) = true /\
  processingInterval (screen (world capturing)) = Some (firstRender granted) /\
  pending capturing = [Called (takePictureAsync (Fin 0.5) true)] /\
  pending (step calm capturing Tick)
    = [Called (takePictureAsync (Fin 0.5) true);
       Called (takePictureAsync (Fin 0.5) true)] /\
  pending (steps calm capturing [Tap; Complete 1])
    = [Called (takePictureAsync (Fin 0.5) true)] /\
  pending (steps calm started [Tap; Tap; Complete 0; Complete 1])
    = [Called (takePictureAsync (Fin 0.5) true);
       Called (takePictureAsync (Fin 0.5) true)] /\
  pending (steps calm initialConfig
             [Mount None; Commit granted; AttachCamera;
              Tap; Tap; Complete 0; Commit granted; Complete 1])
    = [Called (takePictureAsync (Fin 0.5) true);
       Called (takePictureAsync (Fin 0.5) true)].
Proof. vm_compute. repeat split. Qed.

End CycleClaims.

(* ================================================================== *)
(** ** Further properties of the detector *)
(* ================================================================== *)

Section DetectorExtras.
Import Vision.

Lemma labels_are_truthy :
  forallb string_truthy cocoLabels = true.
Proof. vm_compute. reflexivity. Qed.

Lemma Qfloor_inject (z : Z) :
  Qeq_bool (inject_Z z) (inject_Z (Qfloor (inject_Z z))) = true.
Proof. rewrite Qfloor_Z. apply Qeq_bool_iff. reflexivity. Qed.

Lemma getClassLabel_closed_form (classId : option num) :
  getClassLabel classId =
    match classId with
    | Some (Fin q) =>
        if (0 <=? Qfloor q)%Z && (Qfloor q <? 92)%Z
        then nth (Z.to_nat (Qfloor q)) cocoLabels "unknown"
        else "unknown"
    | _ => "unknown"
    end.
Proof.
  destruct classId as [[q | | |]|]; try reflexivity.
  unfold getClassLabel. cbn [toNumber Math_floor index_by_num].
  rewrite Qfloor_inject, Qfloor_Z. cbn [andb].
  destruct (0 <=? Qfloor q)%Z eqn:Lo; cbn [andb]; [|reflexivity].
  destruct (Qfloor q <? 92)%Z eqn:Hi.
  - apply Z.leb_le in Lo. apply Z.ltb_lt in Hi.
    assert (L : (Z.to_nat (Qfloor q) < List.length cocoLabels)%nat)
      by (change (List.length cocoLabels) with 92%nat; lia).
    rewrite (nth_error_nth' cocoLabels "unknown" L).
    pose proof labels_are_truthy as T.
    rewrite forallb_forall in T.
    rewrite (T _ (nth_In cocoLabels "unknown" L)). reflexivity.
  - apply Z.ltb_ge in Hi. apply Z.leb_le in Lo.
    assert (L : (List.length cocoLabels <= Z.to_nat (Qfloor q))%nat)
      by (change (List.length cocoLabels) with 92%nat; lia).
    apply nth_error_None in L. rewrite L. reflexivity.
Qed.

Lemma getClassLabel_in_table (classId : option num) :
  In (getClassLabel classId) cocoLabels.
Proof.
  assert (U : In "unknown" cocoLabels) by (left; reflexivity).
  rewrite getClassLabel_closed_form.
  destruct classId as [[q | | |]|]; try exact U.
  destruct ((0 <=? Qfloor q)%Z && (Qfloor q <? 92)%Z) eqn:B; [|exact U].
  apply andb_true_iff in B. destruct B as [Lo Hi].
  apply Z.leb_le in Lo. apply Z.ltb_lt in Hi.
  apply nth_In. change (List.length cocoLabels) with 92%nat. lia.
Qed.

(** X1: the label of a class id is always an entry of the COCO table:
    the entry at [floor(classId)] when that is an index of the table, and
    ["unknown"] otherwise (absent, [NaN], infinite, negative or too large
    an id); the lookup never fails. *)
Theorem getClassLabel_is_total (classId : option num) :
  In (getClassLabel classId) cocoLabels /\
  getClassLabel classId =
    match classId with
    | Some (Fin q) =>
        if (0 <=? Qfloor q)%Z && (Qfloor q <? 92)%Z
        then nth (Z.to_nat (Qfloor q)) cocoLabels "unknown"
        else "unknown"
    | _ => "unknown"
    end.
Proof.
  split; [apply getClassLabel_in_table | apply getClassLabel_closed_form].
Qed.

Lemma output_labels_in_table predictions d :
  In d (processPredictions predictions) -> In (label d) cocoLabels.
Proof.
  unfold processPredictions.
  destruct (locate predictions) as [[[st|] [bt|]] [ct|]]; try (intros []).
  rewrite In_detectLoop. intros (i & s & _ & _ & ->).
  apply getClassLabel_in_table.
Qed.

(** On the labels of the table, lower-casing changes nothing, and the
    rules for "tree" and "table" never fire. *)
Lemma coco_labels_and_rules :
  forallb (fun l =>
    String.eqb (toLowerCase l) l &&
    Bool.eqb (array_includes ["tree"; "bench"; "bicycle"] l)
             (array_includes ["bench"; "bicycle"] l) &&
    Bool.eqb (array_includes ["chair"; "table"; "couch"] l)
             (array_includes ["chair"; "couch"] l)) cocoLabels = true.
Proof. vm_compute. reflexivity. Qed.

Lemma some_on_coco_labels (rule rule' : list string) objects :
  (forall l, In l cocoLabels ->
     array_includes rule (toLowerCase l) = array_includes rule' l) ->
  (forall o, In o objects -> In (label o) cocoLabels) ->
  some (array_includes rule) (map (fun obj => toLowerCase (label obj)) objects)
  = labelled rule' objects.
Proof.
  intros Hrule Hin. unfold some, labelled.
  induction objects as [|o rest IH]; [reflexivity|].
  cbn [map existsb]. rewrite IH by (intros; apply Hin; now right).
  rewrite Hrule by (apply Hin; now left). reflexivity.
Qed.

(** X2: for the detections of [processPredictions], whose labels come from
    the COCO table, the scene type is "street" when a car, a traffic light
    or a street sign is detected; otherwise "outdoor" when a bench or a
    bicycle is; otherwise "indoor" when a chair or a couch is; otherwise
    "unknown".  The rules for "tree" and "table" match no label of the
    table (a "dining table" is not a "table"). *)
Theorem sceneType_of_detections (predictions : list Tensor) :
  determineSceneType (processPredictions predictions) =
    (let objects := processPredictions predictions in
     if labelled ["car"; "traffic light"; "street sign"] objects
     then "street"
     else if labelled ["bench"; "bicycle"] objects then "outdoor"
     else if labelled ["chair"; "couch"] objects then "indoor"
     else "unknown").
Proof.
  pose proof coco_labels_and_rules as T. rewrite forallb_forall in T.
  assert (L : forall l, In l cocoLabels ->
            toLowerCase l = l /\
            array_includes ["tree"; "bench"; "bicycle"] l
              = array_includes ["bench"; "bicycle"] l /\
            array_includes ["chair"; "table"; "couch"] l
              = array_includes ["chair"; "couch"] l).
  { intros l Hl. specialize (T l Hl).
    apply andb_true_iff in T. destruct T as [T T3].
    apply andb_true_iff in T. destruct T as [T1 T2].
    apply String.eqb_eq in T1. apply Bool.eqb_prop in T2, T3. auto. }
  cbv zeta. unfold determineSceneType.
  rewrite (@some_on_coco_labels ["car"; "traffic light"; "street sign"]
             ["car"; "traffic light"; "street sign"]),
          (@some_on_coco_labels ["tree"; "bench"; "bicycle"]
             ["bench"; "bicycle"]),
          (@some_on_coco_labels ["chair"; "table"; "couch"]
             ["chair"; "couch"]);
    try (intros o; apply output_labels_in_table);
    try (intros l Hl; destruct (L l Hl) as (-> & E2 & E3); auto).
  reflexivity.
Qed.

Lemma Qcompare_div (m c d : Q) :
  (0 < d)%Q -> (m / d ?= c)%Q = (m ?= c * d)%Q.
Proof.
  intros Hd.
  assert (Nz : ~ (d == 0)%Q) by (intro E; rewrite E in Hd; discriminate).
  destruct (Qcompare_spec m (c * d)) as [E | E | E].
  - apply Qeq_alt. rewrite E. field. exact Nz.
  - apply Qlt_alt. apply Qlt_shift_div_r; assumption.
  - apply Qgt_alt. apply Qlt_shift_div_l; assumption.
Qed.

(** X3: for a finite mean brightness [m] on the 0..255 scale, the lighting
    is "bright" exactly when [m > 178.5], "moderate" when
    [76.5 < m <= 178.5] and "dim" when [m <= 76.5]. *)
Theorem lighting_thresholds (m : Q) :
  ((178.5 < m)%Q /\ lightingOf (Fin m) = "bright") \/
  ((76.5 < m)%Q /\ (m <= 178.5)%Q /\ lightingOf (Fin m) = "moderate") \/
  ((m <= 76.5)%Q /\ lightingOf (Fin m) = "dim").
Proof.
  unfold lightingOf, div. change (Qeq_bool 255 0) with false. cbv iota zeta.
  unfold gt. cbn [JS.compare].
  rewrite !Qcompare_div by reflexivity.
  change (0.7 * 255)%Q with 178.5%Q. change (0.3 * 255)%Q with 76.5%Q.
  destruct (Qcompare_spec m 178.5) as [E | E | E].
  - right. destruct (Qcompare_spec m 76.5) as [F | F | F].
    + rewrite F in E. discriminate.
    + rewrite E in F. discriminate.
    + left. split; [exact F|]. split; [rewrite E; apply Qle_refl | reflexivity].
  - right. destruct (Qcompare_spec m 76.5) as [F | F | F].
    + right. split; [rewrite F; apply Qle_refl | reflexivity].
    + right. split; [apply Qlt_le_weak, F | reflexivity].
    + left. split; [exact F|]. split; [apply Qlt_le_weak, E | reflexivity].
  - left. split; [exact E | reflexivity].
Qed.

(** X4: for a finite, non-zero box height [h] the estimated distance [d]
    is inversely proportional to it, [d * h = 3.4], and has the sign of
    [h]: a box whose corners are swapped gets a negative distance. *)
Theorem estimateDistance_inverse (h : Q) :
  ~ (h == 0)%Q ->
  exists d : Q,
    estimateDistance (Fin h) = Fin d /\
    (d * h == 3.4)%Q /\
    ((0 < d)%Q <-> (0 < h)%Q).
Proof.
  intros Nz. unfold estimateDistance, strict_eq. cbn [JS.compare mul].
  destruct (Qcompare_spec h 0) as [E | E | E]; [contradiction | |].
  all: assert (M : ~ (h * 300 == 0)%Q)
      by (intro M; apply Qmult_integral in M; destruct M as [M | M];
          [contradiction | discriminate]).
  all: unfold div; destruct (Qeq_bool (h * 300) 0) eqn:B;
    [apply Qeq_bool_iff in B; contradiction|].
  all: eexists; split; [reflexivity|].
  all: assert (P : (1.7 * 600 / (h * 300) * h == 3.4)%Q) by (field; exact Nz).
  all: split; [exact P|].
  - split; intros H.
    + exfalso. apply (Qlt_irrefl 3.4).
      apply Qlt_trans with 0%Q; [|reflexivity].
      rewrite <- P.
      setoid_replace 0%Q with (1.7 * 600 / (h * 300) * 0)%Q by ring.
      apply Qmult_lt_l; assumption.
    + exfalso. apply (Qlt_irrefl 0). apply Qlt_trans with h; assumption.
  - split; intros H; [exact E|].
    destruct (Qlt_le_dec 0 (1.7 * 600 / (h * 300))) as [G | G]; [exact G|].
    exfalso. apply (Qlt_irrefl 0).
    apply Qlt_le_trans with 3.4%Q; [reflexivity|]. rewrite <- P.
    setoid_replace 0%Q with (0 * h)%Q by ring.
    apply Qmult_le_compat_r; [exact G | apply Qlt_le_weak, E].
Qed.

Lemma estimateDistance_inverse_witness :
  exists d : Q,
    estimateDistance (Fin (-0.3)) = Fin d /\
    (d * (-0.3) == 3.4)%Q /\
    ((0 < d)%Q <-> (0 < -0.3)%Q).
Proof.
  apply (@estimateDistance_inverse (-0.3)%Q). intro H. discriminate.
Defined.

Lemma map_confidence_detectLoop boxes classes scores : forall n,
  map confidence (detectLoop boxes classes n scores)
  = filter (fun s => gt s confidenceThreshold) scores.
Proof.
  induction scores as [|s rest IH]; intros n; cbn [detectLoop filter];
    [reflexivity|].
  rewrite map_app, IH. destruct (gt s confidenceThreshold); reflexivity.
Qed.

(** X5: the detections come out in the order of the candidates, one for
    each score above the threshold and no other: their confidences are the
    scores above 0.5, in order.  When the three tensors are not recognised
    the result is empty.  Every detection has a distance. *)
Theorem processPredictions_keeps_order (predictions : list Tensor) :
  match locate predictions with
  | (Some st, Some _, Some _) =>
      map confidence (processPredictions predictions)
      = filter (fun s => gt s confidenceThreshold) (data st)
  | _ => processPredictions predictions = []
  end /\
  forallb (fun d => match distance d with Some _ => true | None => false end)
          (processPredictions predictions) = true.
Proof.
  unfold processPredictions.
  destruct (locate predictions) as [[[st|] [bt|]] [ct|]];
    try (split; reflexivity).
  split; [apply map_confidence_detectLoop|].
  apply forallb_forall. intros d Hd.
  apply In_detectLoop in Hd. destruct Hd as (i & s & _ & _ & ->). reflexivity.
Qed.

(** X6: when the box tensor is too short to hold the box of a kept
    candidate, no error is raised: the detection has no position, a [NaN]
    width and height, and a [NaN] distance. *)
Theorem short_box_tensor_gives_NaN
    (predictions : list Tensor) (st bt ct : Tensor) (i : nat) (s : num) :
  locate predictions = (Some st, Some bt, Some ct) ->
  nth_error (data st) i = Some s ->
  gt s confidenceThreshold = true ->
  (List.length (data bt) <= i * 4)%nat ->
  In {| label := getClassLabel (nth_error (data ct) i);
        confidence := s;
        boundingBox := {| x := None; y := None; width := NaN; height := NaN |};
        distance := Some NaN |}
     (processPredictions predictions).
Proof.
  intros Hloc Hs Hg Hlen.
  rewrite (processPredictions_located Hloc), In_detectLoop.
  exists i, s. split; [exact Hs|]. split; [exact Hg|].
  unfold detection. cbn [Nat.add].
  assert (N : forall k, nth_error (data bt) (i * 4 + k) = None)
    by (intros k; apply nth_error_None; lia).
  pose proof (N 0%nat) as N0. rewrite Nat.add_0_r in N0.
  rewrite N0, !N. reflexivity.
Qed.

Lemma short_box_tensor_gives_NaN_witness :
  In {| label := "chair";
        confidence := Fin 0.9;
        boundingBox := {| x := None; y := None; width := NaN; height := NaN |};
        distance := Some NaN |}
     (processPredictions Samples.truncated).
Proof.
  exact (@short_box_tensor_gives_NaN Samples.truncated Examples.scores101
           Samples.shortBoxes Examples.classes101 1 (Fin 0.9)
           eq_refl eq_refl eq_refl (le_n 4)).
Defined.

End DetectorExtras.



Ltac destruct_answers :=
  repeat match goal with
         | |- context [answer ?e ?n ?c] =>
             let o := fresh "o" in
             destruct (answer e n c) as [?|o]; cbn
         end.

Section VisionServiceExtras.
Import Vision VisionState.

Lemma lightingOf_is_known (m : num) :
  In (lightingOf m) ["bright"; "moderate"; "dim"].
Proof.
  unfold lightingOf. cbv zeta.
  destruct (gt (div m (Fin 255)) (Fin 0.7)); [now left|].
  destruct (gt (div m (Fin 255)) (Fin 0.3)); [right; now left|].
  right; right; now left.
Qed.

Lemma output_above_threshold predictions d :
  In d (processPredictions predictions) ->
  gt (confidence d) confidenceThreshold = true.
Proof.
  unfold processPredictions.
  destruct (locate predictions) as [[[st|] [bt|]] [ct|]]; try (intros []).
  rewrite In_detectLoop. intros (i & s & _ & Hg & ->). exact Hg.
Qed.

Lemma analyzeScene_uninitialized env w tr imageBase64 :
  _isInitialized (vision w) && model (vision w) = false ->
  run env (VisionService.analyzeScene imageBase64) w tr
  = (Failed (Error "Vision Service not initialized"), w, tr).
Proof.
  intros H. unfold VisionService.analyzeScene. rewrite run_get.
  destruct (_isInitialized (vision w)), (model (vision w));
    try discriminate; reflexivity.
Qed.

(** X7: a scene analysis that succeeds is coherent: the service was
    initialised, the scene type is the one determined from the objects it
    reports, every reported object scores above the threshold and carries
    a label of the table, the lighting is one of "bright", "moderate" and
    "dim", and there is exactly one dominant colour. *)
Theorem analyzeScene_result_is_coherent
    (env : Env) (w : World) (tr : list Event) (imageBase64 : string)
    (a : SceneAnalysis) :
  result_of (run env (VisionService.analyzeScene imageBase64) w tr) = Ok a ->
  _isInitialized (vision w) = true /\
  model (vision w) = true /\
  sceneType a = determineSceneType (objects a) /\
  Forall (fun d => gt (confidence d) confidenceThreshold = true /\
                   In (label d) cocoLabels) (objects a) /\
  In (lightingCondition a) ["bright"; "moderate"; "dim"] /\
  List.length (dominantColors a) = 1%nat.
Proof.
  intros H.
  destruct (_isInitialized (vision w) && model (vision w)) eqn:F.
  - apply andb_true_iff in F. destruct F as [F1 F2].
    split; [exact F1|]. split; [exact F2|].
    revert H. revert env w tr a F1 F2.
    assert (R : returns (VisionService.analyzeScene imageBase64)
      (fun a =>
         sceneType a = determineSceneType (objects a) /\
         Forall (fun d => gt (confidence d) confidenceThreshold = true /\
                          In (label d) cocoLabels) (objects a) /\
         In (lightingCondition a) ["bright"; "moderate"; "dim"] /\
         List.length (dominantColors a) = 1%nat)).
    { unfold VisionService.analyzeScene. repeat returns_step.
      cbn [sceneType objects lightingCondition dominantColors].
      split; [reflexivity|]. split; [|split].
      - apply Forall_forall. intros d Hd. split.
        + exact (output_above_threshold _ _ Hd).
        + exact (output_labels_in_table _ _ Hd).
      - apply lightingOf_is_known.
      - reflexivity. }
    intros env w tr a _ _ H. exact (R env w tr a H).
  - rewrite (analyzeScene_uninitialized env w tr imageBase64 F) in H.
    discriminate.
Qed.

Lemma analyzeScene_result_is_coherent_witness :
  exists a,
    result_of (run calm (VisionService.analyzeScene "/9j/4AAQ")
                 Samples.sighted []) = Ok a /\
    sceneType a = determineSceneType (objects a) /\
    In (lightingCondition a) ["bright"; "moderate"; "dim"].
Proof.
  eexists. split; [vm_compute; reflexivity|].
  pose proof (@analyzeScene_result_is_coherent calm Samples.sighted []
                "/9j/4AAQ" _ eq_refl) as H.
  split; [exact (proj1 (proj2 (proj2 H)))|].
  exact (proj1 (proj2 (proj2 (proj2 (proj2 H))))).
Defined.

(** X8: once [dispose] has returned, the service is not initialised and
    [analyzeScene] throws "Vision Service not initialized" at once,
    without any operation of the platform and without changing the
    state. *)
Theorem analyzeScene_after_dispose
    (env : Env) (w : World) (tr : list Event) (w' : World)
    (tr' : list Event) :
  run env VisionService.dispose w tr = (Ok tt, w', tr') ->
  _isInitialized (vision w') = false /\
  model (vision w') = false /\
  forall env' imageBase64 tr'',
    run env' (VisionService.analyzeScene imageBase64) w' tr''
    = (Failed (Error "Vision Service not initialized"), w', tr'').
Proof.
  intros H.
  assert (F : _isInitialized (vision w') = false /\ model (vision w') = false).
  { revert H. unfold VisionService.dispose. rewrite run_get.
    destruct (model (vision w)) eqn:M.
    - rewrite run_bind, run_await.
      destruct (answer env (List.length tr) tensor_dispose) as [[]|e];
        cbn; intros H; [|discriminate].
      injection H as <- _. split; reflexivity.
    - cbn. intros H. injection H as <- _. cbn. split; [reflexivity | exact M]. }
  destruct F as [F1 F2]. split; [exact F1|]. split; [exact F2|].
  intros env' imageBase64 tr''. apply analyzeScene_uninitialized.
  now rewrite F1.
Qed.

Lemma analyzeScene_after_dispose_witness :
  run calm (VisionService.analyzeScene "/9j/4AAQ")
      (world_of (run calm VisionService.dispose Samples.sighted [])) []
  = (Failed (Error "Vision Service not initialized"),
     world_of (run calm VisionService.dispose Samples.sighted []), []).
Proof.
  exact (proj2 (proj2 (@analyzeScene_after_dispose calm Samples.sighted []
                         _ _ eq_refl))
           calm "/9j/4AAQ" []).
Defined.

(** X9: [initialize] does nothing when the service is initialised.
    Otherwise it either returns with the model loaded and the service
    initialised, or throws "Vision Service initialization failed", whatever
    the step that failed, and leaves the service not initialised. *)
Theorem initialize_all_or_nothing (env : Env) (w : World) (tr : list Event) :
  let r := run env VisionService.initialize w tr in
  if _isInitialized (vision w) then r = (Ok tt, w, tr)
  else
    (result_of r = Ok tt /\
     _isInitialized (vision (world_of r)) = true /\
     model (vision (world_of r)) = true) \/
    (result_of r = Failed (Error "Vision Service initialization failed") /\
     _isInitialized (vision (world_of r)) = false).
Proof.
  cbv zeta. unfold VisionService.initialize. rewrite run_get.
  destruct (_isInitialized (vision w)) eqn:I; [reflexivity|].
  cbn. destruct_answers; auto.
Qed.

End VisionServiceExtras.

(* ================================================================== *)
(** ** Further properties of the narration chain *)
(* ================================================================== *)

Section MistralExtras.
Import MistralService MistralState.

(** X10: Mistral is never enabled with an empty key.  [initialize] enables
    the service with a non-empty key, and with an empty key it throws
    "Mistral Service initialization failed", disables the service and
    leaves the empty key in place of the former one; [setEnabled] and
    [dispose] keep the rule as well. *)
Theorem mistral_enabled_only_with_a_key
    (env : Env) (w : World) (tr : list Event) (key : string) (b : bool) :
  run env (initialize key) w tr =
    (if (0 <? String.length key)%nat
     then (Ok tt, set_mistral key true w, tr)
     else (Failed (Error "Mistral Service initialization failed"),
           set_mistral key false w, tr)) /\
  keyed (world_of (run env (initialize key) w tr)) = true /\
  keyed (world_of (run env (setEnabled b) w tr)) = true /\
  keyed (world_of (run env dispose w tr)) = true /\
  keyed initialWorld = true.
Proof.
  destruct w as [v h [k e] vs o l s]. unfold keyed.
  split; [|split; [|split; [|split]]].
  - destruct key; reflexivity.
  - destruct key; reflexivity.
  - destruct b, k; reflexivity.
  - reflexivity.
  - reflexivity.
Qed.

Lemma completionText_is_a_value (j : Json) :
  (exists t, completionText j = Ret t) \/ (exists e, completionText j = Throw e).
Proof.
  unfold completionText.
  assert (P : forall v name (k : option Json -> Prog string),
            (forall x, (exists t, k x = Ret t) \/ (exists e, k x = Throw e)) ->
            (exists t, bind (prop v name) k = Ret t) \/
            (exists e, bind (prop v name) k = Throw e)).
  { intros v name k Hk. destruct v as [[]|]; cbn; eauto. }
  assert (F : forall v (k : option Json -> Prog string),
            (forall x, (exists t, k x = Ret t) \/ (exists e, k x = Throw e)) ->
            (exists t, bind (first v) k = Ret t) \/
            (exists e, bind (first v) k = Throw e)).
  { intros v k Hk. destruct v as [[| | |[]| |]|]; cbn; eauto. }
  apply P. intros choices. apply F. intros choice.
  apply P. intros message. apply P. intros content.
  destruct content as [[]|]; cbn; eauto.
Qed.

Lemma run_completionText env j w tr :
  run env (completionText j) w tr
  = (result_of (run env (completionText j) w tr), w, tr).
Proof.
  destruct (completionText_is_a_value j) as [(t & ->) | (e & ->)]; reflexivity.
Qed.

Lemma completionText_env env env' j w w' tr tr' :
  result_of (run env (completionText j) w tr)
  = result_of (run env' (completionText j) w' tr').
Proof.
  destruct (completionText_is_a_value j) as [(t & ->) | (e & ->)]; reflexivity.
Qed.

(** How a cloud request runs. *)
Lemma run_cloudRequest env model messages conf w tr :
  run env (cloudRequest model messages conf) w tr =
  (let request := requestOf w model messages in
   let tr1 := tr ++ [Asked Date_now] in
   let tr2 := tr1 ++ [Called request] in
   if isEnabled (mistral w) then
     match answer env (S (List.length tr)) request with
     | Failed e => (Failed e, w, tr2)
     | Ok response =>
         if ok response then
           match body_json response with
           | Failed e => (Failed e, w, tr2)
           | Ok j =>
               match result_of (run env (completionText j) w tr2) with
               | Failed e => (Failed e, w, tr2)
               | Ok text =>
                   (Ok {| text := text;
                          confidence := conf;
                          processingTime :=
                            (reply env (List.length tr2) Date_now
                             - reply env (List.length tr) Date_now)%Z;
                          source := mistral_source |},
                    w, tr2 ++ [Asked Date_now])
               end
           end
         else
           (Failed
              match body_text response with
              | Ok errorText =>
                  Error ("Mistral API error: "
                         ++ string_of_Z (status response) ++ " "
                         ++ statusText response ++ " - " ++ errorText)%string
              | Failed e => e
              end, w, tr2)
     end
   else (Failed unavailable, w, tr1)).
Proof.
  cbv zeta. unfold cloudRequest. rewrite run_ask.
  unfold isAvailable. rewrite run_bind. cbn [run bind get].
  destruct (isEnabled (mistral w)); cbn [negb]; [|reflexivity].
  rewrite run_rethrow, run_bind. unfold makeRequest.
  rewrite run_get, run_await.
  rewrite length_app, Nat.add_1_r. cbn [List.length]. fold (requestOf w model messages).
  destruct (answer env (S (List.length tr)) _) as [response|e]; [|reflexivity].
  destruct (ok response); cbn [negb].
  - destruct (body_json response) as [j|e]; [|reflexivity].
    cbn [run]. rewrite run_bind, run_completionText.
    destruct (result_of (run env (completionText j) w _)) as [t|e];
      reflexivity.
  - destruct (body_text response); reflexivity.
Qed.

Lemma generateEnhancedDescription_shape o s l t :
  generateEnhancedDescription o s l t =
  cloudRequest "mistral-small-latest"
    [{| role := "user";
        content := ContentText (buildEnhancedPrompt o s l t) |}] (Fin 0.95).
Proof. reflexivity. Qed.

Lemma generateNavigationGuidance_shape t o u :
  generateNavigationGuidance t o u =
  cloudRequest "mistral-small-latest"
    [{| role := "user"; content := ContentText (navigationPrompt t o u) |}]
    (Fin 0.90).
Proof. reflexivity. Qed.

Lemma answerQuestion_shape q c :
  answerQuestion q c =
  cloudRequest "mistral-small-latest"
    [{| role := "user"; content := ContentText (questionPrompt q c) |}]
    (Fin 0.92).
Proof. reflexivity. Qed.

Lemma analyzeImageWithVision_shape b m :
  analyzeImageWithVision b m =
  cloudRequest "pixtral-12b-2409"
    [{| role := "user";
        content := ContentParts
          [PartText visionPrompt;
           PartImageUrl ("data:" ++ m ++ ";base64," ++ b)%string] |}]
    (Fin 0.98).
Proof. reflexivity. Qed.

(** X11: while Mistral is disabled, each of its four cloud methods throws
    "Mistral Service not available" after reading the clock, sends no
    request and leaves the state as it is. *)
Theorem cloud_methods_refuse_when_disabled
    (env : Env) (w : World) (tr : list Event)
    (objects : list Scene.SceneObject) (sceneType lightingCondition : string)
    (detectedText : option string) (targetObject userIntent : string)
    (question : string) (sceneContext : Scene.SceneContext)
    (imageBase64 mimeType : string) :
  isEnabled (mistral w) = false ->
  let refused := (Failed unavailable, w, tr ++ [Asked Date_now]) in
  run env (generateEnhancedDescription objects sceneType lightingCondition
             detectedText) w tr = refused /\
  run env (generateNavigationGuidance targetObject objects userIntent) w tr
    = refused /\
  run env (answerQuestion question sceneContext) w tr = refused /\
  run env (analyzeImageWithVision imageBase64 mimeType) w tr = refused.
Proof.
  intros H. cbv zeta.
  rewrite generateEnhancedDescription_shape, generateNavigationGuidance_shape,
    answerQuestion_shape, analyzeImageWithVision_shape.
  rewrite !run_cloudRequest. cbv zeta. rewrite H. repeat split.
Qed.

Lemma cloud_methods_refuse_when_disabled_witness :
  run calm (analyzeImageWithVision "/9j/4AAQ" "image/jpeg") initialWorld []
  = (Failed (Error "Mistral Service not available"), initialWorld,
     [Asked Date_now]).
Proof.
  exact (proj2 (proj2 (proj2
    (@cloud_methods_refuse_when_disabled calm initialWorld [] [] "" "" None
       "" "" ""
       {| Scene.objects := []; Scene.text := None; Scene.sceneType := "";
          Scene.lightingCondition := "" |}
       "/9j/4AAQ" "image/jpeg" eq_refl)))).
Defined.



(** A cloud request leaves the state alone and sends at most one request,
    none while Mistral is disabled. *)
Lemma cloudRequest_effects env model messages conf w tr :
  exists new,
    trace_of (run env (cloudRequest model messages conf) w tr) = tr ++ new /\
    (requests new <= if isEnabled (mistral w) then 1 else 0)%nat /\
    world_of (run env (cloudRequest model messages conf) w tr) = w.
Proof.
  rewrite run_cloudRequest. cbv zeta.
  destruct (isEnabled (mistral w)).
  - destruct (answer env _ _) as [response|e].
    + destruct (ok response).
      * destruct (body_json response) as [j|e].
        -- destruct (result_of _) as [t|e].
           ++ eexists. rewrite <- !app_assoc.
              split; [reflexivity|]. split; [|reflexivity]. cbn. lia.
           ++ eexists. rewrite <- !app_assoc.
              split; [reflexivity|]. split; [|reflexivity]. cbn. lia.
        -- eexists. rewrite <- !app_assoc.
           split; [reflexivity|]. split; [|reflexivity]. cbn. lia.
      * eexists. rewrite <- !app_assoc.
        split; [reflexivity|]. split; [|reflexivity]. cbn. lia.
    + eexists. rewrite <- !app_assoc.
      split; [reflexivity|]. split; [|reflexivity]. cbn. lia.
  - eexists. split; [reflexivity|]. split; [|reflexivity]. cbn. lia.
Qed.

End MistralExtras.

Section NarrationExtras.
Import LLMService.

(** Whatever a cloud method returns has the cloud source. *)
Lemma MistralService_source_of env (request : Prog MistralService.MistralResponse)
    w tr m :
  result_of (run env request w tr) = Ok m ->
  (exists model messages conf, request = cloudRequest model messages conf) ->
  source (ofMistral m) = Some mistral_source.
Proof.
  intros H (model & messages & conf & ->).
  rewrite run_cloudRequest in H. cbv zeta in H.
  destruct (MistralState.isEnabled (mistral w)); [|discriminate].
  destruct (answer env _ _) as [response|e]; [|discriminate].
  destruct (ok response); [|discriminate].
  destruct (body_json response) as [j|e]; [|discriminate].
  destruct (result_of (run env (MistralService.completionText j) _ _))
    as [t|e]; [|discriminate].
  cbn in H. injection H as <-. reflexivity.
Qed.

(** How a narration runs. *)
Lemma run_narrate env request template w tr :
  run env (narrate request template) w tr =
  (let startTime := reply env (List.length tr) Date_now in
   let tr1 := tr ++ [Asked Date_now] in
   let local w' tr' :=
     (Ok (template startTime (reply env (List.length tr') Date_now)),
      w', tr' ++ [Asked Date_now]) in
   if MistralState.isEnabled (mistral w) then
     match run env request w tr1 with
     | (Ok r, w', tr') => (Ok (ofMistral r), w', tr')
     | (Failed _, w', tr') => local w' tr'
     end
   else local w tr1).
Proof.
  cbv zeta. unfold narrate.
  rewrite run_ask, run_rethrow, run_bind.
  unfold tryMistral, MistralService.isAvailable.
  rewrite run_bind. cbn [run bind get].
  destruct (MistralState.isEnabled (mistral w)); [|reflexivity].
  rewrite run_try_catch, run_bind.
  destruct (run env request w (tr ++ [Asked Date_now])) as [[[r|e] w'] tr'];
    reflexivity.
Qed.

Lemma generateSceneDescription_shape o s l t :
  generateSceneDescription o s l t =
  narrate (MistralService.generateEnhancedDescription o s l t)
    (fun startTime now =>
       {| text := generateTemplateDescription o s l;
          confidence := Fin 0.85;
          processingTime := now - startTime;
          source := Some template_source |}).
Proof. reflexivity. Qed.

Lemma generateNavigationGuidance_llm_shape t o u :
  generateNavigationGuidance t o u =
  narrate (MistralService.generateNavigationGuidance t o u)
    (fun startTime now =>
       {| text := generateTemplateNavigation t o;
          confidence := Fin 0.80;
          processingTime := now - startTime;
          source := Some template_source |}).
Proof. reflexivity. Qed.

Lemma answerQuestion_llm_shape q c :
  answerQuestion q c =
  narrate (MistralService.answerQuestion q c)
    (fun startTime now =>
       {| text := generateTemplateAnswer q c;
          confidence := Fin 0.75;
          processingTime := now - startTime;
          source := Some template_source |}).
Proof. reflexivity. Qed.

(** A narration returns, with the cloud result or with the local one. *)
Lemma narrate_returns env request template w tr :
  exists r,
    result_of (run env (narrate request template) w tr) = Ok r /\
    ((exists m, result_of (run env request w (tr ++ [Asked Date_now])) = Ok m /\
                MistralState.isEnabled (mistral w) = true /\
                r = ofMistral m) \/
     (exists startTime now, r = template startTime now)).
Proof.
  rewrite run_narrate. cbv zeta.
  destruct (MistralState.isEnabled (mistral w)).
  - destruct (run env request w (tr ++ [Asked Date_now])) as [[[m|e] w'] tr'].
    + eexists. split; [reflexivity|]. left. exists m. repeat split.
    + eexists. split; [reflexivity|]. right. do 2 eexists. reflexivity.
  - eexists. split; [reflexivity|]. right. do 2 eexists. reflexivity.
Qed.

(** X13: the three narration methods of [LLMService] never throw, whatever
    the platform does.  Each returns either the cloud result (only while
    Mistral is enabled and its call succeeds) or its local result: the
    template text with source ['template'] and confidence 0.85 (scene),
    0.80 (navigation) or 0.75 (question). *)
Theorem narration_never_throws
    (env : Env) (w : World) (tr : list Event)
    (objects : list Scene.SceneObject) (sceneType lightingCondition : string)
    (detectedText : option string) (targetObject userIntent : string)
    (question : string) (sceneContext : Scene.SceneContext) :
  let fromCloud (r : LLMResponse) := source r = Some mistral_source in
  let fromTemplate (r : LLMResponse) (t : string) (c : num) :=
    source r = Some template_source /\ text r = t /\ confidence r = c in
  (exists r,
     result_of (run env (generateSceneDescription objects sceneType
                           lightingCondition detectedText) w tr) = Ok r /\
     (fromCloud r \/
      fromTemplate r
        (generateTemplateDescription objects sceneType lightingCondition)
        (Fin 0.85))) /\
  (exists r,
     result_of (run env (generateNavigationGuidance targetObject objects
                           userIntent) w tr) = Ok r /\
     (fromCloud r \/
      fromTemplate r (generateTemplateNavigation targetObject objects)
        (Fin 0.80))) /\
  (exists r,
     result_of (run env (answerQuestion question sceneContext) w tr) = Ok r /\
     (fromCloud r \/
      fromTemplate r (generateTemplateAnswer question sceneContext)
        (Fin 0.75))).
Proof.
  cbv zeta.
  rewrite generateSceneDescription_shape, generateNavigationGuidance_llm_shape,
    answerQuestion_llm_shape.
  split; [|split].
  - destruct (narrate_returns env
                (MistralService.generateEnhancedDescription objects sceneType
                   lightingCondition detectedText)
                (fun startTime now =>
                   {| text := generateTemplateDescription objects sceneType
                                lightingCondition;
                      confidence := Fin 0.85;
                      processingTime := now - startTime;
                      source := Some template_source |}) w tr)
      as (r & Hr & [(m & Hm & _ & ->) | (s & n & ->)]).
    + exists (ofMistral m). split; [exact Hr|]. left.
      apply (@MistralService_source_of _ _ _ _ _ Hm).
      do 3 eexists. reflexivity.
    + eexists. split; [exact Hr|]. right. repeat split.
  - destruct (narrate_returns env
                (MistralService.generateNavigationGuidance targetObject
                   objects userIntent)
                (fun startTime now =>
                   {| text := generateTemplateNavigation targetObject objects;
                      confidence := Fin 0.80;
                      processingTime := now - startTime;
                      source := Some template_source |}) w tr)
      as (r & Hr & [(m & Hm & _ & ->) | (s & n & ->)]).
    + exists (ofMistral m). split; [exact Hr|]. left.
      apply (@MistralService_source_of _ _ _ _ _ Hm).
      do 3 eexists. reflexivity.
    + eexists. split; [exact Hr|]. right. repeat split.
  - destruct (narrate_returns env
                (MistralService.answerQuestion question sceneContext)
                (fun startTime now =>
                   {| text := generateTemplateAnswer question sceneContext;
                      confidence := Fin 0.75;
                      processingTime := now - startTime;
                      source := Some template_source |}) w tr)
      as (r & Hr & [(m & Hm & _ & ->) | (s & n & ->)]).
    + exists (ofMistral m). split; [exact Hr|]. left.
      apply (@MistralService_source_of _ _ _ _ _ Hm).
      do 3 eexists. reflexivity.
    + eexists. split; [exact Hr|]. right. repeat split.
Qed.

Lemma requests_app (a b : list Event) :
  requests (a ++ b) = (requests a + requests b)%nat.
Proof. unfold requests. now rewrite filter_app, length_app. Qed.

Lemma narrate_effects env model messages conf template w tr :
  exists new,
    trace_of (run env (narrate (cloudRequest model messages conf) template)
                w tr) = tr ++ new /\
    (requests new <= if MistralState.isEnabled (mistral w) then 1 else 0)%nat /\
    world_of (run env (narrate (cloudRequest model messages conf) template)
                w tr) = w.
Proof.
  rewrite run_narrate. cbv zeta.
  destruct (cloudRequest_effects env model messages conf w
              (tr ++ [Asked Date_now])) as (new & Ht & Hn & Hw).
  destruct (MistralState.isEnabled (mistral w)).
  - destruct (run env (cloudRequest model messages conf) w
                (tr ++ [Asked Date_now])) as [[[r|e] w'] tr'];
      cbn [trace_of world_of fst snd] in *; subst w' tr'.
    + exists ([Asked Date_now] ++ new). rewrite app_assoc.
      split; [reflexivity|]. split; [|reflexivity].
      rewrite requests_app. exact Hn.
    + exists ([Asked Date_now] ++ new ++ [Asked Date_now]).
      rewrite !app_assoc. split; [reflexivity|]. split; [|reflexivity].
      rewrite <- !app_assoc, !requests_app. cbn. cbn in Hn. lia.
  - exists [Asked Date_now; Asked Date_now]. rewrite <- app_assoc.
    split; [reflexivity|]. split; [|reflexivity]. cbn. lia.
Qed.

(** X14: a narration (scene description, navigation guidance, question
    answering, image analysis) sends at most one request to the cloud, so
    a failed request is never retried; it sends none while Mistral is
    disabled; and it leaves the state of the services unchanged. *)
Theorem narration_sends_at_most_one_request
    (env : Env) (w : World) (tr : list Event) (n : Narration) :
  exists new,
    trace_of (run env (perform n) w tr) = tr ++ new /\
    (requests new <= if MistralState.isEnabled (mistral w) then 1 else 0)%nat /\
    world_of (run env (perform n) w tr) = w.
Proof.
  destruct n as [o s l t | t o u | q c | b m]; cbn [perform].
  - rewrite generateSceneDescription_shape,
      generateEnhancedDescription_shape. apply narrate_effects.
  - rewrite generateNavigationGuidance_llm_shape,
      generateNavigationGuidance_shape. apply narrate_effects.
  - rewrite answerQuestion_llm_shape, answerQuestion_shape.
    apply narrate_effects.
  - rewrite analyzeImageWithVision_shape, run_bind.
    match goal with
    | |- context [run env (cloudRequest ?mo ?ms ?cf) w tr] =>
        destruct (cloudRequest_effects env mo ms cf w tr)
          as (new & Ht & Hn & Hw);
        destruct (run env (cloudRequest mo ms cf) w tr) as [[[r|e] w'] tr']
    end; cbn [trace_of world_of fst snd run] in *; subst w' tr';
      exists new; auto.
Qed.

Lemma close_or_far (v : option num) :
  lt (or_default v (Fin 10)) (Fin 2)
  = negb (ge (or_default v (Fin 10)) (Fin 2)).
Proof.
  destruct v as [[q | | |]|]; try reflexivity.
  unfold or_default, truthy. destruct (Qeq_bool q 0); cbn [negb]; [reflexivity|].
  unfold lt, ge. cbn [JS.compare]. destruct (q ?= 2)%Q; reflexivity.
Qed.

Lemma filter_split_length {A} (p q : A -> bool) (xs : list A) :
  (forall a, p a = negb (q a)) ->
  (List.length (filter p xs) + List.length (filter q xs))%nat = List.length xs.
Proof.
  intros H. induction xs as [|a r IH]; [reflexivity|].
  cbn [filter]. rewrite (H a). destruct (q a); cbn [negb List.length]; lia.
Qed.

(** X15: the local template puts every object in exactly one of its two
    groups, whatever its distance (absent, zero, negative, [NaN] or
    infinite): no object is left out and none is listed twice. *)
Theorem template_groups_partition
    (objects : list Scene.SceneObject) (o : Scene.SceneObject) :
  In o objects ->
  (List.length (closeObjects objects) + List.length (farObjects objects))%nat
    = List.length objects /\
  ((In o (closeObjects objects) /\ ~ In o (farObjects objects)) \/
   (In o (farObjects objects) /\ ~ In o (closeObjects objects))).
Proof.
  intros Hin. split.
  - apply filter_split_length. intros a. apply close_or_far.
  - unfold closeObjects, farObjects. rewrite !filter_In.
    pose proof (close_or_far (Scene.distance o)) as E.
    destruct (ge (or_default (Scene.distance o) (Fin 10)) (Fin 2));
      cbn [negb] in E; rewrite E.
    + right. split; [auto|]. intros [_ H]. discriminate.
    + left. split; [auto|]. intros [_ H]. discriminate.
Qed.

Lemma template_groups_partition_witness :
  (List.length (closeObjects [Examples.chair (Fin 0.9); Examples.lamp])
   + List.length (farObjects [Examples.chair (Fin 0.9); Examples.lamp]))%nat
  = 2%nat.
Proof.
  exact (proj1 (@template_groups_partition
                  [Examples.chair (Fin 0.9); Examples.lamp] Examples.lamp
                  (or_intror (or_introl eq_refl)))).
Defined.

End NarrationExtras.

(* ================================================================== *)
(** ** Further properties of the output channels *)
(* ================================================================== *)

Section VoiceExtras.
Import VoiceService VoiceState.

(** X16: a non-priority [speak] never throws.  While something is
    speaking it only appends the text to the queue; on an idle channel it
    speaks the text at once, ahead of whatever is still queued, and a
    failure of the platform is caught and leaves the channel idle.
    [provideFeedback] is such a call. *)
Theorem speak_without_priority
    (env : Env) (w : World) (tr : list Event) (text : string)
    (event : Feedback.FeedbackEvent) :
  let queue := speechQueue (voice w) in
  let options := settings (voice w) in
  run env (speak text false) w tr =
    (if isSpeaking (voice w)
     then (Ok tt, voiceChannel true (queue ++ [text]) w, tr)
     else (Ok tt,
           voiceChannel
             (succeeded (answer env (List.length tr) (Speech_speak text options)))
             queue w,
           tr ++ [Called (Speech_speak text options)])) /\
  run env (provideFeedback event) w tr
    = run env (speak (feedbackSounds event) false) w tr /\
  result_of (run env (provideFeedback event) w tr) = Ok tt.
Proof.
  destruct w as [[st sp q] h m v o l s]. cbv zeta.
  cbn [voice isSpeaking speechQueue settings].
  split; [|split; [reflexivity|]].
  - destruct sp; [reflexivity|]. cbn.
    destruct (answer env (List.length tr) (Speech_speak text st)) as [[]|e];
      reflexivity.
  - unfold provideFeedback. destruct sp; [reflexivity|]. cbn.
    destruct (answer env (List.length tr) _) as [[]|e]; reflexivity.
Qed.

Lemma voiceChannel_twice a b q q' w :
  voiceChannel a q (voiceChannel b q' w) = voiceChannel a q w.
Proof. reflexivity. Qed.

Lemma run_announceAll env texts : forall w tr,
  isSpeaking (voice w) = true ->
  run env (announceAll texts) w tr
  = (Ok tt, voiceChannel true (speechQueue (voice w) ++ texts) w, tr).
Proof.
  induction texts as [|t rest IH]; intros w tr H.
  - destruct w as [[st sp q] h m v o l s]. cbn in *. subst sp.
    rewrite app_nil_r. reflexivity.
  - cbn [announceAll fold_right]. rewrite run_bind.
    fold (announceAll rest).
    replace (run env (speak t false) w tr)
      with (Ok tt, voiceChannel true (speechQueue (voice w) ++ [t]) w, tr)
      by (destruct w as [[st sp q] h m v o l s]; cbn in *; subst sp;
          reflexivity).
    rewrite IH by reflexivity.
    cbn [voice voiceChannel with_voice speechQueue].
    rewrite <- app_assoc. reflexivity.
Qed.

Lemma run_completions env queue : forall w tr,
  forallb string_truthy queue = true ->
  (forall n t, answer env n (Speech_speak t (settings (voice w))) = Ok tt) ->
  run env (for_n (List.length queue) onDone) (voiceChannel true queue w) tr
  = (Ok tt, voiceChannel true [] w,
     tr ++ utterances (settings (voice w)) queue).
Proof.
  induction queue as [|t rest IH]; intros w tr Ht Hok.
  - cbn. rewrite app_nil_r. reflexivity.
  - cbn [forallb] in Ht. apply andb_true_iff in Ht. destruct Ht as [Ht Hr].
    cbn [List.length for_n]. rewrite run_bind.
    replace (run env onDone (voiceChannel true (t :: rest) w) tr)
      with (Ok tt, voiceChannel true rest w,
            tr ++ [Called (Speech_speak t (settings (voice w)))]).
    + rewrite IH by assumption.
      cbn [utterances map]. rewrite <- app_assoc. reflexivity.
    + destruct w as [[st sp q] h m v o l s]. cbn in Hok |- *.
      destruct t as [|c t]; [discriminate|]. cbn.
      rewrite Hok. reflexivity.
Qed.

(** X17: the queue is first in, first out, and loses nothing: texts that
    are announced without priority while something is speaking are spoken
    afterwards, one at each completion, in the order of the calls (for
    non-empty texts and a platform that speaks them). *)
Theorem queue_is_first_in_first_out
    (env : Env) (w : World) (tr : list Event) (texts : list string) :
  isSpeaking (voice w) = true ->
  speechQueue (voice w) = [] ->
  forallb string_truthy texts = true ->
  (forall n t, answer env n (Speech_speak t (settings (voice w))) = Ok tt) ->
  run env (announceAll texts) w tr = (Ok tt, voiceChannel true texts w, tr) /\
  run env (announceAll texts ;; for_n (List.length texts) onDone) w tr
  = (Ok tt, voiceChannel true [] w,
     tr ++ utterances (settings (voice w)) texts).
Proof.
  intros Hs Hq Ht Hok.
  pose proof (run_announceAll env texts w tr Hs) as E.
  rewrite Hq in E. cbn [app] in E. split; [exact E|].
  rewrite run_bind, E. apply run_completions; assumption.
Qed.

Lemma queue_is_first_in_first_out_witness :
  run calm (announceAll ["A"; "B"; "C"] ;; for_n 3 onDone)
      (Examples.speaking []) []
  = (Ok tt, Examples.speaking [],
     utterances (settings init) ["A"; "B"; "C"]).
Proof.
  exact (proj2 (@queue_is_first_in_first_out calm (Examples.speaking []) []
                  ["A"; "B"; "C"] eq_refl eq_refl eq_refl
                  (fun n t => eq_refl))).
Defined.

(** X18: [parseCommand] answers ['unknown'] exactly when the text, in
    lower case, contains none of the twelve words it looks for. *)
Theorem unknown_command_iff_no_keyword (text : string) :
  parseCommand text = Command.unknown <->
  forallb (fun k => negb (includes (toLowerCase text) k)) commandKeywords
  = true.
Proof.
  unfold parseCommand, commandKeywords. cbv zeta.
  set (l := toLowerCase text). cbn [forallb].
  repeat (match goal with
          | |- context [includes l ?k] => destruct (includes l k)
          end;
          cbn [orb andb negb];
          try (split; intros H; discriminate H)).
  split; reflexivity.
Qed.

End VoiceExtras.

Section SpokenExtras.
Import VoiceService.

Lemma lt_Fin (a b : Q) :
  lt (Fin a) (Fin b) = if Qlt_le_dec a b then true else false.
Proof.
  unfold lt. cbn [JS.compare].
  destruct (Qlt_le_dec a b) as [H | H];
    destruct (Qcompare_spec a b) as [E | E | E]; try reflexivity; exfalso.
  - rewrite E in H. exact (Qlt_irrefl _ H).
  - exact (Qlt_irrefl _ (Qlt_trans _ _ _ H E)).
  - exact (Qlt_not_le _ _ E H).
Qed.

Lemma Qfloor_between (z : Z) (q : Q) :
  (inject_Z z <= q)%Q -> (q < inject_Z (z + 1))%Q -> Qfloor q = z.
Proof.
  intros Hl Hu.
  pose proof (Qfloor_resp_le _ _ Hl) as L. rewrite Qfloor_Z in L.
  pose proof (Qle_lt_trans _ _ _ (Qfloor_le q) Hu) as U.
  rewrite <- Zlt_Qlt in U. lia.
Qed.

Lemma rounds_to (z : Z) (d : Q) :
  (inject_Z z - (1 # 2) <= d)%Q -> (d < inject_Z z + (1 # 2))%Q ->
  Math_round (Fin d) = Fin (inject_Z z).
Proof.
  intros Hl Hu. unfold Math_round. f_equal. f_equal.
  apply Qfloor_between.
  - apply Qplus_le_l with (z := (- (1 # 2))%Q).
    ring_simplify. ring_simplify in Hl. exact Hl.
  - rewrite inject_Z_plus.
    apply Qplus_lt_l with (z := (- (1 # 2))%Q).
    ring_simplify. ring_simplify in Hu. exact Hu.
Qed.

(** X19: the distance phrase of [announceNavigation] for a finite
    distance [d]: "very close" below 1, the distance rounded to the
    nearest meter from 1 up to 3 (so "3 meters" is said from 2.5 on, and
    the unit is "meters" for 1 as well), and "far ahead" from 3 on. *)
Theorem distance_phrases (d : Q) :
  ((d < 1)%Q /\ distanceText (Fin d) = "very close") \/
  ((1 <= d)%Q /\ (d < 3 # 2)%Q /\ distanceText (Fin d) = "1 meters") \/
  ((3 # 2 <= d)%Q /\ (d < 5 # 2)%Q /\ distanceText (Fin d) = "2 meters") \/
  ((5 # 2 <= d)%Q /\ (d < 3)%Q /\ distanceText (Fin d) = "3 meters") \/
  ((3 <= d)%Q /\ distanceText (Fin d) = "far ahead").
Proof.
  unfold distanceText. rewrite !lt_Fin.
  destruct (Qlt_le_dec d 1) as [H1 | H1]; [left; split; [assumption|reflexivity]|].
  right.
  destruct (Qlt_le_dec d 3) as [H3 | H3];
    [|do 3 right; split; [assumption|reflexivity]].
  destruct (Qlt_le_dec d (3 # 2)) as [Ha | Ha].
  - left. split; [assumption|]. split; [assumption|].
    rewrite (@rounds_to 1 d); [reflexivity| |].
    + eapply Qle_trans; [|exact H1]. discriminate.
    + exact Ha.
  - right. destruct (Qlt_le_dec d (5 # 2)) as [Hb | Hb].
    + left. split; [assumption|]. split; [assumption|].
      rewrite (@rounds_to 2 d); [reflexivity| |]; assumption.
    + right. left. split; [assumption|]. split; [assumption|].
      rewrite (@rounds_to 3 d); [reflexivity|exact Hb|].
      eapply Qlt_le_trans; [exact H3|]. discriminate.
Qed.

Lemma prefix_refl (s : string) : prefix s s = true.
Proof.
  induction s as [|c s IH]; [reflexivity|]. cbn.
  destruct (ascii_dec c c); [assumption|congruence].
Qed.

Lemma prefix_app (s : string) : forall a b,
  prefix s a = true -> prefix s (a ++ b) = true.
Proof.
  induction s as [|c s IH]; intros a b H;
    [destruct (a ++ b)%string; reflexivity|].
  destruct a as [|c' a]; [discriminate|]. cbn in H |- *.
  destruct (ascii_dec c c'); [auto|discriminate].
Qed.

Lemma includes_refl (s : string) : includes s s = true.
Proof.
  destruct s; cbn [includes]; rewrite prefix_refl; reflexivity.
Qed.

Lemma includes_app_l (a b s : string) :
  includes a s = true -> includes (a ++ b) s = true.
Proof.
  induction a as [|c a IH]; cbn [includes]; intros H.
  - destruct s; [|discriminate]. destruct b; reflexivity.
  - change (String c a ++ b)%string with (String c (a ++ b)%string). cbn [includes].
    apply orb_true_iff in H. apply orb_true_iff. destruct H as [H | H].
    + left. exact (@prefix_app s (String c a) b H).
    + right. auto.
Qed.

Lemma includes_app_r (a b s : string) :
  includes b s = true -> includes (a ++ b) s = true.
Proof.
  intros H. induction a as [|c a IH]; [exact H|].
  change (String c a ++ b)%string with (String c (a ++ b)%string). cbn [includes].
  rewrite IH. apply orb_true_r.
Qed.

Lemma join_includes (sep : string) (xs : list string) (x s : string) :
  In x xs -> includes x s = true -> includes (join sep xs) s = true.
Proof.
  induction xs as [|y r IH]; [contradiction|]. intros [-> | Hin] Hs.
  - destruct r; [exact Hs|].
    change (includes (x ++ sep ++ join sep (s0 :: r)) s = true).
    apply includes_app_l. exact Hs.
  - destruct r as [|z r']; [contradiction|].
    change (includes (y ++ sep ++ join sep (z :: r')) s = true).
    apply includes_app_r, includes_app_r, IH; assumption.
Qed.

(** The three tests of [generateSceneDescription] on one distance: exactly
    one of them holds. *)
Lemma one_group (v : option num) :
  let d := or_default v (Fin 10) in
  (lt d (Fin 2), ge d (Fin 2) && lt d (Fin 5), ge d (Fin 5))
  = (true, false, false) \/
  (lt d (Fin 2), ge d (Fin 2) && lt d (Fin 5), ge d (Fin 5))
  = (false, true, false) \/
  (lt d (Fin 2), ge d (Fin 2) && lt d (Fin 5), ge d (Fin 5))
  = (false, false, true).
Proof.
  cbv zeta.
  assert (H : forall q : Q,
    (lt (Fin q) (Fin 2), ge (Fin q) (Fin 2) && lt (Fin q) (Fin 5),
     ge (Fin q) (Fin 5)) = (true, false, false) \/
    (lt (Fin q) (Fin 2), ge (Fin q) (Fin 2) && lt (Fin q) (Fin 5),
     ge (Fin q) (Fin 5)) = (false, true, false) \/
    (lt (Fin q) (Fin 2), ge (Fin q) (Fin 2) && lt (Fin q) (Fin 5),
     ge (Fin q) (Fin 5)) = (false, false, true)).
  { intros q. unfold lt, ge. cbn [JS.compare].
    destruct (Qcompare_spec q 2) as [E | E | E];
      destruct (Qcompare_spec q 5) as [F | F | F]; cbn [andb]; auto;
      exfalso; destruct q as [n d]; unfold Qeq, Qlt in E, F;
      cbn in E, F; lia. }
  destruct v as [[q | | |]|]; cbn [or_default truthy]; auto.
  destruct (negb (Qeq_bool q 0)); auto.
Qed.

Lemma three_filters_length {A} (p q r : A -> bool) (xs : list A) :
  (forall a, (p a, q a, r a) = (true, false, false) \/
             (p a, q a, r a) = (false, true, false) \/
             (p a, q a, r a) = (false, false, true)) ->
  (List.length (filter p xs) + List.length (filter q xs)
   + List.length (filter r xs))%nat = List.length xs.
Proof.
  intros H. induction xs as [|a xs IH]; [reflexivity|].
  cbn [filter].
  destruct (H a) as [E | [E | E]]; injection E as -> -> ->;
    cbn [List.length]; lia.
Qed.

Lemma nonempty_length {A} (a : A) (xs : list A) :
  In a xs -> (0 <? List.length xs)%nat = true.
Proof. destruct xs; [contradiction|reflexivity]. Qed.

(** X20: the spoken scene description loses no object: every object falls
    in exactly one of the three distance groups (below 2, from 2 to below
    5, from 5 on, a missing or zero distance counting as 10), and the label
    of every object occurs in the description. *)
Theorem spoken_description_names_every_object
    (objects : list Spoken.Object) (obj : Spoken.Object) :
  In obj objects ->
  (List.length (closeObjects objects) + List.length (mediumObjects objects)
   + List.length (farObjects objects))%nat = List.length objects /\
  includes (generateSceneDescription objects) (Spoken.label obj) = true.
Proof.
  intros Hin. split.
  - apply three_filters_length. intros a. apply one_group.
  - unfold generateSceneDescription.
    replace (List.length objects =? 0)%nat with false
      by (destruct objects; [contradiction|reflexivity]).
    cbv zeta.
    assert (G : forall group lead,
              In obj group ->
              includes (lead ++ join ", " (map Spoken.label group))
                       (Spoken.label obj) = true).
    { intros group lead Hg. apply includes_app_r.
      apply join_includes with (x := Spoken.label obj);
        [apply in_map; exact Hg | apply includes_refl]. }
    destruct (one_group (Spoken.distance obj)) as [E | [E | E]];
      cbv zeta in E; injection E as E1 E2 E3.
    + assert (Hg : In obj (closeObjects objects))
        by (apply filter_In; auto).
      rewrite (nonempty_length _ _ Hg).
      destruct (0 <? List.length (mediumObjects objects))%nat;
        destruct (0 <? List.length (farObjects objects))%nat;
        (apply join_includes
           with (x := ("Close to you: "
                       ++ join ", " (map Spoken.label (closeObjects objects)))%string);
         [cbn [app In]; auto | apply G; exact Hg]).
    + assert (Hg : In obj (mediumObjects objects))
        by (apply filter_In; auto).
      rewrite (nonempty_length _ _ Hg).
      destruct (0 <? List.length (closeObjects objects))%nat;
        destruct (0 <? List.length (farObjects objects))%nat;
        (apply join_includes
           with (x := ("A few meters away: "
                       ++ join ", " (map Spoken.label (mediumObjects objects)))%string);
         [cbn [app In]; auto | apply G; exact Hg]).
    + assert (Hg : In obj (farObjects objects))
        by (apply filter_In; auto).
      rewrite (nonempty_length _ _ Hg).
      destruct (0 <? List.length (closeObjects objects))%nat;
        destruct (0 <? List.length (mediumObjects objects))%nat;
        (apply join_includes
           with (x := ("In the distance: "
                       ++ join ", " (map Spoken.label (farObjects objects)))%string);
         [cbn [app In]; auto | apply G; exact Hg]).
Qed.

Lemma spoken_description_names_every_object_witness :
  includes
    (generateSceneDescription
       [ {| Spoken.label := "chair"; Spoken.distance := Some (Fin 1) |};
         {| Spoken.label := "door"; Spoken.distance := None |} ])
    "door" = true.
Proof.
  exact (proj2 (@spoken_description_names_every_object
                  [ {| Spoken.label := "chair";
                       Spoken.distance := Some (Fin 1) |};
                    {| Spoken.label := "door"; Spoken.distance := None |} ]
                  {| Spoken.label := "door"; Spoken.distance := None |}
                  (or_intror (or_introl eq_refl)))).
Defined.

End SpokenExtras.

Section HapticExtras.
Import HapticService HapticState.

(** X21: [directionalCue] is not protected the way [trigger] is: when
    the haptic engine fails, the failure of the first pulse reaches the
    caller (and nothing follows the failed pulse), while [trigger] swallows
    it.  With haptics disabled neither does anything. *)
Theorem directionalCue_is_unprotected
    (env : Env) (w : World) (tr : list Event) (e : Err)
    (direction : Direction.Direction) (pattern : HapticPattern) :
  (forall style,
     answer env (List.length tr) (Haptics_impactAsync style) = Failed e) ->
  result_of (run env (directionalCue direction) w tr)
    = (if isEnabled (haptic w) then Failed e else Ok tt) /\
  world_of (run env (directionalCue direction) w tr) = w /\
  List.length (trace_of (run env (directionalCue direction) w tr))
    = (if isEnabled (haptic w) then S (List.length tr) else List.length tr) /\
  result_of (run env (trigger pattern) w tr) = Ok tt.
Proof.
  intros Hfail.
  assert (T : result_of (run env (trigger pattern) w tr) = Ok tt).
  { apply trigger_is_caught. }
  unfold directionalCue. rewrite run_get.
  destruct (isEnabled (haptic w)); cbn [negb];
    [|repeat split; try reflexivity; exact T].
  destruct direction; cbn; rewrite Hfail; cbn;
    rewrite ?length_app, ?Nat.add_1_r; repeat split; try reflexivity;
    exact T.
Qed.

Lemma directionalCue_is_unprotected_witness :
  result_of (run Examples.numb (directionalCue Direction.left) initialWorld [])
    = Failed (Error "Haptics unavailable") /\
  result_of (run Examples.numb (trigger navigation_cue) initialWorld [])
    = Ok tt.
Proof.
  pose proof (@directionalCue_is_unprotected Examples.numb initialWorld []
                (Error "Haptics unavailable") Direction.left navigation_cue
                (fun style => eq_refl)) as H.
  split; [exact (proj1 H) | exact (proj2 (proj2 (proj2 H)))].
Defined.

(** X22: the pause of [distanceFeedback] is the distance times 200 ms
    clamped to the range from 100 to 1000 ms: for every finite distance it
    is a finite number of that range, also for a negative distance.  A
    [NaN] distance gives a [NaN] pause. *)
Theorem feedbackInterval_is_clamped (d : Q) :
  (exists ms : Q,
     feedbackInterval (Fin d) = Fin ms /\ (100 <= ms)%Q /\ (ms <= 1000)%Q /\
     (ms == d * 200 \/ ms == 100 \/ ms == 1000)%Q) /\
  feedbackInterval PInf = Fin 1000 /\
  feedbackInterval NInf = Fin 100 /\
  feedbackInterval NaN = NaN.
Proof.
  split; [|repeat split; reflexivity].
  unfold feedbackInterval, Math_min, Math_max. cbn [mul JS.compare].
  destruct (Qcompare_spec 1000 (d * 200)) as [E | E | E].
  - exists 1000%Q. repeat split; try discriminate. right. right. reflexivity.
  - exists 1000%Q. repeat split; try discriminate. right. right. reflexivity.
  - cbn [JS.compare].
    destruct (Qcompare_spec 100 (d * 200)) as [F | F | F].
    + exists 100%Q. repeat split; try discriminate. right. left. reflexivity.
    + exists (d * 200)%Q. repeat split.
      * apply Qlt_le_weak. exact F.
      * apply Qlt_le_weak. exact E.
      * left. reflexivity.
    + exists 100%Q. repeat split; try discriminate. right. left. reflexivity.
Qed.

End HapticExtras.

Section OCRExtras.
Import OCRService.

Variable currencyPattern : string -> bool.
Variable currencyMatch : string -> option (string * string).
Variable parseFloat : string -> num.

(** X23: text detection is a placeholder that yields no detection, so
    whatever the regular expressions and [parseFloat] of the runtime do,
    [detectSpecificText] returns an empty result for every kind of text and
    [detectCurrency] never finds an amount: it returns [null] once the
    service is initialised, and fails with the error of [detectText]
    before. *)
Theorem currency_is_never_found
    (env : Env) (w : World) (tr : list Event) (imageData : string)
    (kind : Kind.TextKind) :
  let nothing :=
    {| detections := []; fullText := "";
       timestamp := reply env (List.length tr) Date_now |} in
  let refused : Err := Error "OCR Service not initialized" in
  run env (detectSpecificText currencyPattern imageData kind) w tr
    = (if ocr_isInitialized w
       then (Ok nothing, w, tr ++ [Asked Date_now])
       else (Failed refused, w, tr)) /\
  run env (detectCurrency currencyPattern currencyMatch parseFloat imageData)
      w tr
    = (if ocr_isInitialized w
       then (Ok None, w, tr ++ [Asked Date_now])
       else (Failed refused, w, tr)).
Proof.
  cbv zeta. destruct w as [vo h m v o l s]. cbn [ocr_isInitialized].
  split.
  - destruct o; [destruct kind|]; reflexivity.
  - destruct o; reflexivity.
Qed.

End OCRExtras.

Section ReadingOrderExtras.
Import OCRService.

(** X25: the comparator of [organizeTextForReading] is not an ordering:
    the 20 pixel tolerance on the vertical position lets three detections
    precede one another in a cycle, so that no arrangement of them agrees
    with the comparator. *)
Theorem reading_order_has_a_cycle :
  exists a b c : TextDetection,
    strictlyBefore a c = true /\
    strictlyBefore c b = true /\
    strictlyBefore b a = true.
Proof.
  exists (Samples.word "a" 2 0), (Samples.word "b" 1 15),
         (Samples.word "c" 0 30).
  repeat split; vm_compute; reflexivity.
Qed.

End ReadingOrderExtras.

(* ================================================================== *)
(** ** Further properties of the screen *)
(* ================================================================== *)

Section AlwaysFacts.
Variable env : Env.

Lemma always_ret {A} (a : A) : always env (Ret a) (fun _ => True).
Proof. intros w tr. split; [reflexivity | exact I]. Qed.

Lemma always_bind {A B} (p : Prog A) (f : A -> Prog B) (Q : World -> Prop) :
  always env p (fun _ => True) -> (forall a, always env (f a) Q) ->
  always env (bind p f) Q.
Proof.
  intros Hp Hf w tr. rewrite run_bind.
  destruct (Hp w tr) as [S _].
  destruct (run env p w tr) as [[[a | e] w'] tr']; [apply Hf | discriminate].
Qed.

Lemma always_try_catch {A} (p : Prog A) (h : Err -> Prog A) :
  (forall e, always env (h e) (fun _ => True)) ->
  always env (try_catch p h) (fun _ => True).
Proof.
  intros Hh w tr. rewrite run_try_catch.
  destruct (run env p w tr) as [[[a | e] w'] tr'];
    [split; [reflexivity | exact I] | apply Hh].
Qed.

Lemma always_protected {A} (p : Prog A) (h : Err -> Prog A)
    (Q : World -> Prop) :
  always env p Q -> always env (try_catch p h) Q.
Proof.
  intros Hp w tr. rewrite run_try_catch.
  destruct (Hp w tr) as [S HQ].
  destruct (run env p w tr) as [[[a | e] w'] tr'];
    [split; [reflexivity | exact HQ] | discriminate].
Qed.

Lemma always_isolated (p : Prog unit) :
  always env (CameraScreen.isolated p) (fun _ => True).
Proof. apply always_try_catch. intros e. apply always_ret. Qed.

Lemma always_trigger (pattern : HapticService.HapticPattern) :
  always env (HapticService.trigger pattern) (fun _ => True).
Proof.
  intros w tr. destruct (trigger_is_caught env pattern w tr) as [E _].
  rewrite E. split; [reflexivity | exact I].
Qed.

Hypothesis speech_stops : forall n, answer env n Speech_stop = Ok tt.

Lemma always_speak (text : string) (priority : bool) :
  always env (VoiceService.speak text priority) (fun _ => True).
Proof.
  intros w tr. split; [|exact I].
  destruct w as [[st sp q] h m v o l s].
  destruct priority; cbn; rewrite ?speech_stops; cbn;
    [|destruct sp; cbn]; destruct_answers; reflexivity.
Qed.

End AlwaysFacts.

Ltac destruct_units :=
  repeat match goal with
         | a : unit |- _ => destruct a
         end.

Section ScreenExtras.
Import CameraScreen Screen.

(** X26: [switchMode] sets the mode cell before anything can fail, so
    the mode is switched whatever the haptic and the speech engines do;
    the processing flag, the camera ref and the closure held by the
    interval are left as they were, so the periodic analysis keeps the
    mode of the render that registered it. *)
Theorem switchMode_sets_the_mode
    (env : Env) (m : Mode) (w : World) (tr : list Event) :
  let w' := world_of (run env (switchMode m) w tr) in
  st_currentMode (screen w') = m /\
  st_isProcessing (screen w') = st_isProcessing (screen w) /\
  cameraRef (screen w') = cameraRef (screen w) /\
  processingInterval (screen w') = processingInterval (screen w).
Proof.
  cbv zeta. unfold switchMode, setCurrentMode. rewrite run_modify, run_bind.
  destruct (trigger_is_caught env HapticService.success
              (with_screen
                 (fun s =>
                    {| st_isProcessing := st_isProcessing s;
                       st_currentMode := m;
                       cameraRef := cameraRef s;
                       processingInterval := processingInterval s |}) w) tr)
    as [R W].
  destruct (run env (HapticService.trigger HapticService.success) _ tr)
    as [[[[] | e] w1] tr1]; [|discriminate].
  cbn [world_of fst snd] in W. subst w1.
  destruct w as [[st sp q] h m0 v o l [ip cm cr pi]].
  cbn. destruct_answers; destruct_units; repeat split; reflexivity.
Qed.

(** X27: [cleanup] always clears the interval.  It then either releases
    every service, or stops at a failing [model.dispose()]: the exception
    leaves the component with the model, the OCR service and the LLM
    service still initialised. *)
Theorem cleanup_outcomes (env : Env) (w : World) (tr : list Event) :
  let r := run env cleanup w tr in
  processingInterval (screen (world_of r)) = None /\
  ((result_of r = Ok tt /\ allDisposed (world_of r) = true) \/
   (exists e,
      result_of r = Failed e /\
      VisionState.model (vision w) = true /\
      answer env (List.length tr) tensor_dispose = Failed e /\
      vision (world_of r) = vision w /\
      ocr_isInitialized (world_of r) = ocr_isInitialized w /\
      llm_isInitialized (world_of r) = llm_isInitialized w)).
Proof.
  cbv zeta. destruct w as [vo h m [md ini] o l [ip cm cr pi]].
  destruct md; cbn.
  - destruct (answer env (List.length tr) tensor_dispose) as [[] | e] eqn:E;
      cbn; (split; [reflexivity|]).
    + left. split; reflexivity.
    + right. exists e. repeat split; reflexivity.
  - split; [reflexivity|]. left. split; reflexivity.
Qed.

(** X28: a tap in text mode can only answer "No text detected": with the
    OCR service initialised, a captured frame and a speech engine that
    accepts [stop], the cycle performs the capture, the (empty) detection
    and that one announcement, never the text-found pulses, and releases
    the processing flag. *)
Theorem text_mode_reads_nothing
    (env : Env) (r : Render) (w : World) (tr : list Event) (photo : Photo) :
  cameraRef (screen w) = true ->
  isProcessing r = false ->
  currentMode r = text ->
  ocr_isInitialized w = true ->
  answer env (List.length tr) (takePictureAsync (Fin 0.5) true)
    = Ok (Some photo) ->
  defined_truthy (base64 photo) = true ->
  (forall n, answer env n Speech_stop = Ok tt) ->
  let result := run env (analyzeCurrentFrame r true) w tr in
  result_of result = Ok tt /\
  trace_of result
    = tr ++ [Called (takePictureAsync (Fin 0.5) true); Asked Date_now;
             Called Speech_stop;
             Called (Speech_speak "No text detected"
                       (VoiceState.settings (voice w)))] /\
  st_isProcessing (screen (world_of result)) = false /\
  VoiceState.speechQueue (voice (world_of result)) = [].
Proof.
  intros Hcam Hproc Hmode Hocr Hphoto Hb64 Hstop. cbv zeta.
  destruct w as [[st sp q] h m v o l [ip cm cr pi]].
  cbn in Hcam, Hocr, Hphoto |- *. subst cr o.
  unfold analyzeCurrentFrame. rewrite Hproc, Hmode. cbn.
  rewrite Hphoto. cbn. rewrite Hb64. cbn. rewrite Hstop. cbn.
  destruct_answers; destruct_units; rewrite <- ?app_assoc; repeat split;
    reflexivity.
Qed.

Lemma text_mode_reads_nothing_witness :
  trace_of (run calm
              (analyzeCurrentFrame
                 {| permission := Examples.granted; isProcessing := false;
                    currentMode := text |} true)
              (with_ocr true Examples.attached) [])
  = [Called (takePictureAsync (Fin 0.5) true); Asked Date_now;
     Called Speech_stop;
     Called (Speech_speak "No text detected"
               (VoiceState.settings VoiceState.init))].
Proof.
  exact (proj1 (proj2
    (@text_mode_reads_nothing calm
       {| permission := Examples.granted; isProcessing := false;
          currentMode := text |}
       (with_ocr true Examples.attached) []
       {| base64 := Some "/9j/4AAQ" |}
       eq_refl eq_refl eq_refl eq_refl eq_refl eq_refl
       (fun n => eq_refl)))).
Defined.

(** X29: start-up survives its services.  Once the camera permission is
    granted and the speech engine accepts [stop], [initializeServices]
    returns and registers the periodic analysis with the closure of its
    render, whatever else fails: the storage, Mistral, the voices, the
    haptic engine, the download or the warm-up of the model. *)
Theorem startup_survives_failing_services
    (env : Env) (r : Render) (perm : Permission) (w : World)
    (tr : list Event) :
  permission r = Some perm ->
  granted perm = true ->
  (forall n, answer env n Speech_stop = Ok tt) ->
  result_of (run env (initializeServices r) w tr) = Ok tt /\
  processingInterval (screen (world_of (run env (initializeServices r) w tr)))
    = Some r.
Proof.
  intros Hperm Hgranted Hstop.
  assert (H : always env (initializeServices r)
                (fun w' => processingInterval (screen w') = Some r)).
  { unfold initializeServices. rewrite Hperm, Hgranted. cbn [negb bind].
    apply always_protected.
    repeat (apply always_bind;
            [first [ apply always_isolated
                   | apply always_trigger
                   | apply always_speak; exact Hstop
                   | apply always_try_catch; intros e;
                     apply always_speak; exact Hstop
                   | intros w0 tr0; split; [reflexivity | exact I] ]
            | intros ]).
    intros w0 tr0. split; reflexivity. }
  destruct (H w tr) as [S Q]. split; [|exact Q].
  destruct (result_of (run env (initializeServices r) w tr)) as [[] | e];
    [reflexivity | discriminate].
Qed.

Lemma startup_survives_failing_services_witness :
  processingInterval
    (screen (world_of (run Examples.numb
                         (initializeServices (firstRender Examples.granted))
                         initialWorld [])))
  = Some (firstRender Examples.granted).
Proof.
  exact (proj2 (@startup_survives_failing_services Examples.numb
                  (firstRender Examples.granted)
                  {| granted := true |} initialWorld []
                  eq_refl eq_refl (fun n => eq_refl))).
Defined.

(** X30: without the camera permission nothing is started.  When the
    permission is not granted and the request is refused,
    [initializeServices] only asks for it and announces that it is
    required: no service is initialised and no interval is registered.
    While the permission is still unknown it does nothing at all. *)
Theorem no_start_without_permission
    (env : Env) (r : Render) (w : World) (tr : list Event) :
  permission r <> Some {| granted := true |} ->
  answer env (List.length tr) requestPermission
    = Ok {| granted := false |} ->
  (forall n, answer env n Speech_stop = Ok tt) ->
  let result := run env (initializeServices r) w tr in
  let announcement :=
    [Called requestPermission; Called Speech_stop;
     Called (Speech_speak
               "Camera permission is required for NeuroLens to work"
               (VoiceState.settings (voice w)))] in
  result_of result = Ok tt /\
  trace_of result
    = (match permission r with None => tr | Some _ => tr ++ announcement end)
  /\
  screen (world_of result) = screen w /\
  vision (world_of result) = vision w /\
  mistral (world_of result) = mistral w /\
  ocr_isInitialized (world_of result) = ocr_isInitialized w /\
  llm_isInitialized (world_of result) = llm_isInitialized w.
Proof.
  intros Hperm Hreq Hstop. cbv zeta. unfold initializeServices.
  destruct (permission r) as [[[]]|]; [congruence | |].
  - destruct w as [[st sp q] h m v o l s]. cbn in Hreq |- *.
    rewrite Hreq. cbn. rewrite Hstop. cbn.
    destruct_answers; destruct_units; rewrite <- ?app_assoc; repeat split;
    reflexivity.
  - repeat split; reflexivity.
Qed.

Lemma no_start_without_permission_witness :
  screen (world_of (run Samples.refusing
                      (initializeServices
                         (firstRender (Some {| granted := false |})))
                      initialWorld []))
  = screen initialWorld.
Proof.
  exact (proj1 (proj2 (proj2
    (@no_start_without_permission Samples.refusing
       (firstRender (Some {| granted := false |})) initialWorld []
       ltac:(discriminate) eq_refl (fun n => eq_refl))))).
Defined.

End ScreenExtras.
